(** * Gym sensor app: the rep-counting session controller

    A shallow embedding of the workout session screen
    (the [Session] component of [app/workout/plan.tsx]), the BLE
    connection context ([BleConnectionProvider]) and the scan callback of
    [useBleConnectToSensor], together with the properties the
    specification states about them.  Around them the development
    follows the texts the screens show ([formatTime], [formatDuration]),
    the confirm and plan screens, the workout history
    ([workoutStorage]), the connection hook over time, and the two
    connection effects of the session screen.

    Conventions of the embedding:
    - JavaScript numbers that count reps, sets and seconds are integers and
      are modelled by [Z].  A number that [parseInt] returns is a [Num]:
      the integer a double holds that is nearest to the literal, or an
      infinity; NaN is the absence of a number.
    - Text decoded by [atob] is a binary string: every character has a
      code in 0..255, which is what [ascii] offers.  Strings are processed
      as [list ascii].
    - React state cells are modelled by the value the next render will see
      (updaters are applied in the order they are queued); what a render
      has bound in its closures is kept apart, in a [Render] record, so
      that a callback created by one render keeps reading the values of
      that render.  Refs are plain mutable fields.
    - An array held in a state cell carries the identity of its
      allocation, which is what a dependency list compares. *)

From Stdlib Require Import ZArith Ascii String Bool Lia Sorted.
From stdpp Require Import base list strings.

Local Open Scope Z_scope.

(** ** Text: character classes, the two regular expressions, [parseInt] *)

Module Text.

Definition code (c : ascii) : Z := Z.of_nat (nat_of_ascii c).

(** [\d] *)
Definition isDigit (c : ascii) : bool := (48 <=? code c) && (code c <=? 57).

(** [\s] restricted to the codes a binary string can hold: TAB, LF, VT,
    FF, CR, SPACE and NBSP. *)
Definition isSpace (c : ascii) : bool :=
  ((9 <=? code c) && (code c <=? 13)) || (code c =? 32) || (code c =? 160).

(** [[:\s]] *)
Definition isSep (c : ascii) : bool := (code c =? 58) || isSpace c.

(** Canonical form of a character under the [i] flag, for the letters
    the pattern uses: an ASCII letter and its other case are the same. *)
Definition toUpper (c : ascii) : ascii :=
  if (97 <=? code c) && (code c <=? 122)
  then ascii_of_nat (nat_of_ascii c - 32) else c.

Definition toLower (c : ascii) : ascii :=
  if (65 <=? code c) && (code c <=? 90)
  then ascii_of_nat (nat_of_ascii c + 32) else c.

Definition eqi (a b : ascii) : bool := Ascii.eqb (toUpper a) (toUpper b).

Fixpoint takeWhile (f : ascii -> bool) (s : list ascii) : list ascii :=
  match s with
  | c :: t => if f c then c :: takeWhile f t else []
  | [] => []
  end.

Fixpoint dropWhile (f : ascii -> bool) (s : list ascii) : list ascii :=
  match s with
  | c :: t => if f c then dropWhile f t else s
  | [] => []
  end.

Definition digitVal (c : ascii) : Z := code c - 48.

(** Value of a run of decimal digits, most significant first. *)
Definition decimal (ds : list ascii) : Z :=
  fold_left (fun acc c => 10 * acc + digitVal c) ds 0.

(** A JavaScript number that is not NaN, as this program meets them:
    an integer that a double holds, or an infinity.  The sign of a zero
    is not kept; the program compares and subtracts these numbers, which
    does not tell the two zeros apart. *)
Inductive Num := Fin (v : Z) | PosInf | NegInf.

Coercion Fin : Z >-> Num.

#[global] Instance Num_eq_dec : EqDecision Num.
Proof. solve_decision. Defined.

(** The integer a double holds that is nearest to [n >= 0]: [n] itself
    below 2^53, else [n] rounded to 53 significant bits, a tie going to
    the even significand. *)
Definition nearestDouble (n : Z) : Z :=
  if n <? 2 ^ 53 then n
  else
    let e := Z.log2 n - 52 in
    let q := n / 2 ^ e in
    let r := n mod 2 ^ e in
    let q' :=
      if (2 ^ (e - 1) <? r) || ((r =? 2 ^ (e - 1)) && Z.odd q)
      then q + 1 else q in
    q' * 2 ^ e.

(** The number value of the integer [n >= 0] with a sign: what rounds
    to 2^1024 or more is an infinity. *)
Definition toNumber (negative : bool) (n : Z) : Num :=
  let m := nearestDouble n in
  if 2 ^ 1024 <=? m then (if negative then NegInf else PosInf)
  else Fin (if negative then - m else m).

(** [parseInt(s, 10)]: leading white space is skipped, one sign is
    accepted, then the longest run of digits is read and given its
    number value; [None] is NaN.  The number value is that of the whole
    run (the language lets an engine read the digits after the 20th as
    zeros, which moves the value of such a run by less than one part in
    10^19). *)
Definition parseInt (s : list ascii) : option Num :=
  let s1 := dropWhile isSpace s in
  let '(negative, s2) :=
    match s1 with
    | c :: t => if code c =? 45 then (true, t)
                else if code c =? 43 then (false, t) else (false, s1)
    | [] => (false, s1)
    end in
  match takeWhile isDigit s2 with
  | [] => None
  | ds => Some (toNumber negative (decimal ds))
  end.

(** [a - b]; [None] is NaN.  The difference of two integers is kept
    exact: the program compares it with 0, which rounding to a double
    does not change, and takes its minimum with the room left in a set,
    an integer of at most two digits, which the rounded and the exact
    difference share. *)
Definition sub (a b : Num) : option Num :=
  match a, b with
  | Fin x, Fin y => Some (Fin (x - y))
  | PosInf, PosInf => None
  | NegInf, NegInf => None
  | PosInf, _ => Some PosInf
  | NegInf, _ => Some NegInf
  | Fin _, PosInf => Some NegInf
  | Fin _, NegInf => Some PosInf
  end.

(** [x > 0], which is false of NaN. *)
Definition positive (x : option Num) : bool :=
  match x with
  | Some (Fin v) => 0 <? v
  | Some PosInf => true
  | _ => false
  end.

(** [x === 0] *)
Definition isZero (x : Num) : bool :=
  match x with
  | Fin v => v =? 0
  | _ => false
  end.

(** [Math.min(x, k)] as the bound of [for (let i = 0; i < ...; i++)],
    for an integer [k]: under a NaN or the negative infinity the body
    runs as often as under 0, not at all. *)
Definition minWith (x : option Num) (k : Z) : Z :=
  match x with
  | Some (Fin v) => Z.min v k
  | Some PosInf => k
  | _ => 0
  end.

(** [Number.isFinite(x)], with the number kept. *)
Definition finite (x : option Num) : option Z :=
  match x with
  | Some (Fin v) => Some v
  | _ => None
  end.

(** The pattern [REPS[:\s]*(\d+)] with flag [i], tried at the head of
    [s]: the capture group, when the pattern matches there.  The two
    star/plus loops are greedy and their classes are disjoint, so the
    match is settled without backtracking. *)
Definition repsAt (s : list ascii) : option (list ascii) :=
  match s with
  | r :: e :: p :: s' :: rest =>
      if eqi r "R" && eqi e "E" && eqi p "P" && eqi s' "S" then
        match takeWhile isDigit (dropWhile isSep rest) with
        | [] => None
        | ds => Some ds
        end
      else None
  | _ => None
  end.

(** [text.match(/REPS[:\s]*(\d+)/i)]: the leftmost position where the
    pattern matches; the result is capture group 1. *)
Fixpoint matchReps (s : list ascii) : option (list ascii) :=
  match repsAt s with
  | Some ds => Some ds
  | None => match s with
            | _ :: t => matchReps t
            | [] => None
            end
  end.

(** [text.match(/(\d+)/)]: the first maximal run of digits. *)
Definition matchNumber (s : list ascii) : option (list ascii) :=
  match takeWhile isDigit (dropWhile (fun c => negb (isDigit c)) s) with
  | [] => None
  | ds => Some ds
  end.

(** The value a notification carries (lines 1877-1884): [None] is the
    [null] that [newReps] keeps when neither pattern matches, or a NaN
    from [parseInt]. *)
Definition parseNotification (text : string) : option Num :=
  let t := list_ascii_of_string text in
  match matchReps t with
  | Some m => parseInt m
  | None => match matchNumber t with
            | Some m => parseInt m
            | None => None
            end
  end.

(** [m?.[1]] as a condition: a captured group that is not empty. *)
Definition truthy (m : option (list ascii)) : bool :=
  match m with
  | Some (_ :: _) => true
  | _ => false
  end.

(** The value a fallback read carries (lines 1934-1938): both patterns
    are run, a captured group is tested for truthiness, and a result
    that is not finite ([!Number.isFinite(parsed)]) is dropped. *)
Definition parsePoll (text : string) : option Z :=
  let t := list_ascii_of_string text in
  let mReps := matchReps t in
  let mNumber := matchNumber t in
  let parsed :=
    if truthy mReps then parseInt (default [] mReps)
    else if truthy mNumber then parseInt (default [] mNumber)
    else None in
  finite parsed.

(** Where a scan with class [f] stops: at the end of the text or at a
    character outside [f]. *)
Definition stopsAt (f : ascii -> bool) (rest : list ascii) : Prop :=
  match rest with
  | c :: _ => f c = false
  | [] => True
  end.

(** The labelled pattern read declaratively: [s] starts with the four
    letters in either case, then separators, then the digits [ds], and
    what follows is not a digit. *)
Definition isLabel (lab : list ascii) : Prop :=
  map toUpper lab = map toUpper (list_ascii_of_string "REPS").

Definition notDigitNext (rest : list ascii) : Prop := stopsAt isDigit rest.

Inductive LabelledAt : list ascii -> list ascii -> Prop :=
| labelledAt lab seps ds rest :
    isLabel lab ->
    forallb isSep seps = true ->
    ds <> [] ->
    forallb isDigit ds = true ->
    notDigitNext rest ->
    LabelledAt (lab ++ seps ++ ds ++ rest) ds.

End Text.

Import Text.

(** ** The session screen *)

Module Session.

(** What the screen receives once and never changes: the two memoised
    targets and the machine label. *)
Record Params := { sets : Z; reps : Z; machineName : string }.

(** [params.sets ? parseInt(params.sets, 10) : 3], then
    [isNaN(parsed) || parsed < 1 ? 3 : Math.min(20, parsed)]: the
    negative infinity is below 1, and the minimum of 20 and the positive
    infinity is 20. *)
Definition setsOfParam (param : option string) : Z :=
  let parsed :=
    match param with
    | Some (String c t) => parseInt (list_ascii_of_string (String c t))
    | _ => Some (Fin 3)
    end in
  match parsed with
  | None => 3
  | Some (Fin n) => if n <? 1 then 3 else Z.min 20 n
  | Some PosInf => 20
  | Some NegInf => 3
  end.

(** [params.reps ? parseInt(params.reps, 10) : 10], then
    [isNaN(parsed) || parsed < 1 ? 10 : Math.min(50, parsed)]. *)
Definition repsOfParam (param : option string) : Z :=
  let parsed :=
    match param with
    | Some (String c t) => parseInt (list_ascii_of_string (String c t))
    | _ => Some (Fin 10)
    end in
  match parsed with
  | None => 10
  | Some (Fin n) => if n <? 1 then 10 else Z.min 50 n
  | Some PosInf => 50
  | Some NegInf => 10
  end.

(** An array in a state cell: [ident] is the identity of the allocation
    ([Object.is] on two arrays compares it), [elems] the contents. *)
Record Arr := { ident : nat; elems : list Z }.

(** The [useState] cells the engine reads or writes.  [restTimer] is
    the number of seconds the rest drawer displays; the interval that
    advances it (lines 2178-2199) is not followed here, so it keeps the
    value it is given. *)
Record State := {
  currentSetIndex : nat;
  setRepsCompleted : Arr;
  setRestTimes : Arr;
  showRestDrawer : bool;
  restTimer : Z;
  userId : option string;
  sensorReps : Num
}.

(** The [useRef] cells. *)
Record Refs := {
  lastSensorRepRef : Num;
  currentRepsRef : Z;
  showRestDrawerRef : bool;
  sessionStartTimeRef : Z
}.

(** Diagnostics shown in development builds only. *)
Record Diag := {
  bleLastText : option string;
  bleNotifyCount : Z;
  bleLastAtMs : option Z;
  bleLastError : option string
}.

(** The arguments of one call of [saveWorkout]. *)
Record SaveCall := {
  w_machineName : string;
  w_sets : Z;
  w_reps : Z;
  w_setRepsCompleted : list Z;
  w_setRestTimes : list Z;
  w_duration : Z;
  w_userId : string
}.

(** The dependency list of the save-on-complete effect. *)
Record SaveDeps := {
  d_isAllSetsComplete : bool;
  d_machineName : string;
  d_sets : Z;
  d_reps : Z;
  d_userId : option string;
  d_setRepsCompleted : nat;
  d_setRestTimes : nat
}.

#[global] Instance SaveDeps_eq_dec : EqDecision SaveDeps.
Proof. solve_decision. Defined.

(** The component instance: cells, refs, the allocation counter, the
    calls of [saveWorkout] made so far (oldest first) and the
    dependencies the save effect saw at the last commit. *)
Record Session := {
  state : State;
  refs : Refs;
  diag : Diag;
  allocated : nat;
  saveWorkoutCalls : list SaveCall;
  saveEffectDeps : option SaveDeps
}.

(** What one run of the component body binds; the closures it creates
    ([incrementRep], [continueToNextSet], the effects) read these. *)
Record Render := {
  r_currentSetIndex : nat;
  r_setRepsCompleted : Arr;
  r_setRestTimes : Arr;
  r_showRestDrawer : bool;
  r_restTimer : Z;
  r_userId : option string;
  r_currentReps : Z;
  r_isSetComplete : bool;
  r_isAllSetsComplete : bool;
  r_isLastSet : bool
}.

(** *** State setters *)

Definition withState (f : State -> State) (s : Session) : Session :=
  {| state := f (state s); refs := refs s; diag := diag s;
     allocated := allocated s; saveWorkoutCalls := saveWorkoutCalls s;
     saveEffectDeps := saveEffectDeps s |}.

Definition withRefs (f : Refs -> Refs) (s : Session) : Session :=
  {| state := state s; refs := f (refs s); diag := diag s;
     allocated := allocated s; saveWorkoutCalls := saveWorkoutCalls s;
     saveEffectDeps := saveEffectDeps s |}.

Definition withDiag (f : Diag -> Diag) (s : Session) : Session :=
  {| state := state s; refs := refs s; diag := f (diag s);
     allocated := allocated s; saveWorkoutCalls := saveWorkoutCalls s;
     saveEffectDeps := saveEffectDeps s |}.

(** [setSetRepsCompleted((prev) => ...)]: the updater builds a new array. *)
Definition setSetRepsCompleted (f : list Z -> list Z) (s : Session) : Session :=
  let st := state s in
  {| state := {| currentSetIndex := currentSetIndex st;
                 setRepsCompleted :=
                   {| ident := allocated s;
                      elems := f (elems (setRepsCompleted st)) |};
                 setRestTimes := setRestTimes st;
                 showRestDrawer := showRestDrawer st;
                 restTimer := restTimer st;
                 userId := userId st;
                 sensorReps := sensorReps st |};
     refs := refs s; diag := diag s;
     allocated := S (allocated s);
     saveWorkoutCalls := saveWorkoutCalls s;
     saveEffectDeps := saveEffectDeps s |}.

(** [setSetRestTimes((prev) => ...)] *)
Definition setSetRestTimes (f : list Z -> list Z) (s : Session) : Session :=
  let st := state s in
  {| state := {| currentSetIndex := currentSetIndex st;
                 setRepsCompleted := setRepsCompleted st;
                 setRestTimes :=
                   {| ident := allocated s;
                      elems := f (elems (setRestTimes st)) |};
                 showRestDrawer := showRestDrawer st;
                 restTimer := restTimer st;
                 userId := userId st;
                 sensorReps := sensorReps st |};
     refs := refs s; diag := diag s;
     allocated := S (allocated s);
     saveWorkoutCalls := saveWorkoutCalls s;
     saveEffectDeps := saveEffectDeps s |}.

Definition setShowRestDrawer (b : bool) : Session -> Session :=
  withState (fun st =>
    {| currentSetIndex := currentSetIndex st;
       setRepsCompleted := setRepsCompleted st;
       setRestTimes := setRestTimes st;
       showRestDrawer := b;
       restTimer := restTimer st;
       userId := userId st;
       sensorReps := sensorReps st |}).

Definition setCurrentSetIndex (f : nat -> nat) : Session -> Session :=
  withState (fun st =>
    {| currentSetIndex := f (currentSetIndex st);
       setRepsCompleted := setRepsCompleted st;
       setRestTimes := setRestTimes st;
       showRestDrawer := showRestDrawer st;
       restTimer := restTimer st;
       userId := userId st;
       sensorReps := sensorReps st |}).

Definition setSensorReps (v : Num) : Session -> Session :=
  withState (fun st =>
    {| currentSetIndex := currentSetIndex st;
       setRepsCompleted := setRepsCompleted st;
       setRestTimes := setRestTimes st;
       showRestDrawer := showRestDrawer st;
       restTimer := restTimer st;
       userId := userId st;
       sensorReps := v |}).

Definition setUserId (u : string) : Session -> Session :=
  withState (fun st =>
    {| currentSetIndex := currentSetIndex st;
       setRepsCompleted := setRepsCompleted st;
       setRestTimes := setRestTimes st;
       showRestDrawer := showRestDrawer st;
       restTimer := restTimer st;
       userId := Some u;
       sensorReps := sensorReps st |}).

Definition setLastSensorRepRef (v : Num) : Session -> Session :=
  withRefs (fun r =>
    {| lastSensorRepRef := v; currentRepsRef := currentRepsRef r;
       showRestDrawerRef := showRestDrawerRef r;
       sessionStartTimeRef := sessionStartTimeRef r |}).

Definition setCurrentRepsRef (v : Z) : Session -> Session :=
  withRefs (fun r =>
    {| lastSensorRepRef := lastSensorRepRef r; currentRepsRef := v;
       showRestDrawerRef := showRestDrawerRef r;
       sessionStartTimeRef := sessionStartTimeRef r |}).

Definition setShowRestDrawerRef (b : bool) : Session -> Session :=
  withRefs (fun r =>
    {| lastSensorRepRef := lastSensorRepRef r;
       currentRepsRef := currentRepsRef r;
       showRestDrawerRef := b;
       sessionStartTimeRef := sessionStartTimeRef r |}).

(** *** One render *)

(** [setRepsCompleted[currentSetIndex] || 0] *)
Definition currentRepsOf (l : list Z) (i : nat) : Z := default 0 (l !! i).

(** [setRepsCompleted.every((r) => r >= reps)] *)
Definition everyComplete (p : Params) (l : list Z) : bool :=
  forallb (fun r => reps p <=? r) l.

(** The values the component body binds (lines 1792-1795). *)
Definition bind (p : Params) (s : Session) : Render :=
  let st := state s in
  let currentReps :=
    currentRepsOf (elems (setRepsCompleted st)) (currentSetIndex st) in
  {| r_currentSetIndex := currentSetIndex st;
     r_setRepsCompleted := setRepsCompleted st;
     r_setRestTimes := setRestTimes st;
     r_showRestDrawer := showRestDrawer st;
     r_restTimer := restTimer st;
     r_userId := userId st;
     r_currentReps := currentReps;
     r_isSetComplete := reps p <=? currentReps;
     r_isAllSetsComplete := everyComplete p (elems (setRepsCompleted st));
     r_isLastSet := sets p - 1 <=? Z.of_nat (currentSetIndex st) |}.

(** The refs the body refreshes for the BLE callbacks (lines 1797-1799;
    the two effects at 2249-2257 assign the same values again). *)
Definition syncRefs (r : Render) (s : Session) : Session :=
  setShowRestDrawerRef (r_showRestDrawer r)
    (setCurrentRepsRef (r_currentReps r) s).

Definition saveDepsOf (p : Params) (r : Render) : SaveDeps :=
  {| d_isAllSetsComplete := r_isAllSetsComplete r;
     d_machineName := machineName p;
     d_sets := sets p;
     d_reps := reps p;
     d_userId := r_userId r;
     d_setRepsCompleted := ident (r_setRepsCompleted r);
     d_setRestTimes := ident (r_setRestTimes r) |}.

(** An effect runs at the first commit and whenever a dependency is not
    the one of the previous commit. *)
Definition depsChanged (old : option SaveDeps) (new : SaveDeps) : bool :=
  match old with
  | None => true
  | Some d => negb (bool_decide (d = new))
  end.

(** The save-on-complete effect (lines 2155-2176), committed at time
    [now]: the call of [saveWorkout] is appended to the log.  A string
    is truthy when it is not empty. *)
Definition saveEffect (p : Params) (now : Z) (r : Render) (s : Session)
  : Session :=
  let deps := saveDepsOf p r in
  if depsChanged (saveEffectDeps s) deps then
    let call (u : string) :=
      {| w_machineName := machineName p;
         w_sets := sets p;
         w_reps := reps p;
         w_setRepsCompleted := elems (r_setRepsCompleted r);
         w_setRestTimes := elems (r_setRestTimes r);
         w_duration := (now - sessionStartTimeRef (refs s)) / 1000;
         w_userId := u |} in
    let calls :=
      match r_userId r with
      | Some (String c t) =>
          if r_isAllSetsComplete r
          then saveWorkoutCalls s ++ [call (String c t)]
          else saveWorkoutCalls s
      | _ => saveWorkoutCalls s
      end in
    {| state := state s; refs := refs s; diag := diag s;
       allocated := allocated s;
       saveWorkoutCalls := calls;
       saveEffectDeps := Some deps |}
  else s.

(** A render followed by its commit. *)
Definition render (p : Params) (now : Z) (s : Session) : Render * Session :=
  let r := bind p s in
  (r, saveEffect p now r (syncRefs r s)).

(** *** The handlers *)

(** The updater of [incrementRep]: a copy of [prev] in which the entry
    of the current set is one more, when it is below the target.  An
    index outside the array reads [undefined], which is not below
    anything. *)
Definition bumpRep (p : Params) (i : nat) (prev : list Z) : list Z :=
  match prev !! i with
  | Some n => if n <? reps p then <[i := n + 1]> prev else prev
  | None => prev
  end.

(** [incrementRep] (lines 2201-2232), as the closure of render [r]. *)
Definition incrementRep (p : Params) (r : Render) (s : Session) : Session :=
  if r_isAllSetsComplete r then s
  else
    let s1 := setSetRepsCompleted (bumpRep p (r_currentSetIndex r)) s in
    if (reps p <=? r_currentReps r + 1)
       && (Z.of_nat (r_currentSetIndex r) <? sets p - 1)
    then setSensorReps 0 (setLastSensorRepRef 0 (setShowRestDrawer true s1))
    else s1.

(** [next[i] = v] on a copy: inside the array the entry is replaced;
    beyond its end JavaScript grows the array, and the holes it leaves
    read as [undefined], which every reader of [setRestTimes] turns
    into 0. *)
Definition assign (i : nat) (v : Z) (l : list Z) : list Z :=
  if bool_decide (i < length l)%nat then <[i := v]> l
  else l ++ replicate (i - length l) 0 ++ [v].

(** [continueToNextSet] (lines 2234-2247), as the closure of render [r]. *)
Definition continueToNextSet (p : Params) (r : Render) (s : Session)
  : Session :=
  let s1 := setSetRestTimes (assign (r_currentSetIndex r) (r_restTimer r)) s in
  let s2 := setShowRestDrawer false s1 in
  let s3 := setCurrentSetIndex (fun prev => S prev) s2 in
  setCurrentRepsRef 0 (setSensorReps 0 (setLastSensorRepRef 0 s3)).

(** [for (let i = 0; i < repsToAdd; i++) incrementRep();] *)
Definition incrementRepTimes (p : Params) (r : Render) (n : Z) (s : Session)
  : Session :=
  Nat.iter (Z.to_nat n) (incrementRep p r) s.

(** The rep merge rule (lines 1885-1898 and 1939-1950), with [newReps]
    a number that is not NaN (it may be an infinity on the notification
    path); [incrementRep] is the one of render [r], the render whose
    effect installed the callback. *)
Definition mergeSample (p : Params) (r : Render) (newReps : Num) (s : Session)
  : Session :=
  let s0 := setSensorReps newReps s in
  let currentRepsNow := currentRepsRef (refs s0) in
  let inRestPeriod := showRestDrawerRef (refs s0) in
  let sensorRepDelta := sub newReps (lastSensorRepRef (refs s0)) in
  if positive sensorRepDelta && (currentRepsNow <? reps p) && negb inRestPeriod
  then
    let repsToAdd := minWith sensorRepDelta (reps p - currentRepsNow) in
    setLastSensorRepRef newReps (incrementRepTimes p r repsToAdd s0)
  else if positive (Some newReps) && isZero (lastSensorRepRef (refs s0))
          && (currentRepsNow <? reps p) && negb inRestPeriod
  then setLastSensorRepRef newReps (incrementRep p r s0)
  else s0.

(** The notification callback (lines 1860-1902) for a delivery that is
    not cancelled, carries no error and has a value, whose decoding is
    [text]; [now] is the clock.  The value is merged when it is not NaN
    ([!isNaN(newReps)]). *)
Definition onNotification (p : Params) (r : Render) (now : Z) (text : string)
    (s : Session) : Session :=
  let s1 :=
    withDiag (fun d =>
      {| bleLastText := Some text;
         bleNotifyCount := bleNotifyCount d + 1;
         bleLastAtMs := Some now;
         bleLastError := bleLastError d |}) s in
  match parseNotification text with
  | Some newReps => mergeSample p r newReps s1
  | None => s1
  end.

(** One tick of the fallback read (lines 1926-1952) that is not
    cancelled and reads a value, whose decoding is [text].  The value is
    merged when it is finite ([Number.isFinite(parsed)]). *)
Definition onPoll (p : Params) (r : Render) (now : Z) (text : string)
    (s : Session) : Session :=
  let s1 :=
    withDiag (fun d =>
      {| bleLastText := Some text;
         bleNotifyCount := bleNotifyCount d;
         bleLastAtMs := Some now;
         bleLastError := bleLastError d |}) s in
  match parsePoll text with
  | Some parsed => mergeSample p r (Fin parsed) s1
  | None => s1
  end.

(** *** The screen over time *)

(** [useState(Array(sets).fill(0))] and the initial refs; the session
    start time is the time of the mount.  An array length follows
    [sets], which is at least 1. *)
Definition mount (p : Params) (now : Z) : Session :=
  {| state :=
       {| currentSetIndex := 0;
          setRepsCompleted :=
            {| ident := 0; elems := replicate (Z.to_nat (sets p)) 0 |};
          setRestTimes :=
            {| ident := 1; elems := replicate (Z.to_nat (sets p)) 0 |};
          showRestDrawer := false;
          restTimer := 0;
          userId := None;
          sensorReps := 0 |};
     refs := {| lastSensorRepRef := 0; currentRepsRef := 0;
                showRestDrawerRef := false;
                sessionStartTimeRef := now |};
     diag := {| bleLastText := None; bleNotifyCount := 0;
                bleLastAtMs := None; bleLastError := None |};
     allocated := 2;
     saveWorkoutCalls := [];
     saveEffectDeps := None |}.

(** The screen with the closures that are live: [screen] is the last
    committed render, whose handlers the buttons call; [monitor] is the
    render whose effect subscribed to the characteristic, whose
    [incrementRep] the BLE callbacks call.  The subscribing effects
    depend on [showRestDrawer], [isAllSetsComplete], the handles and
    [reps], not on the rep count, so a callback outlives the renders
    that follow a rep. *)
Record Screen := {
  session : Session;
  screen : Render;
  monitor : Render
}.

(** What can happen to the screen: React renders and commits; an
    effect subscribes the callbacks of the last render; a notification
    or a fallback read delivers a payload; the user presses "+1 Rep" or
    "Continue"; the request for the signed-in user answers. *)
Inductive Event :=
| Rendered (now : Z)
| Subscribed
| Notified (now : Z) (text : string)
| Polled (now : Z) (text : string)
| Tapped
| Continued
| UserResolved (id : string).

(** The Continue button lives in the rest drawer, which the screen
    shows when its render saw [showRestDrawer].  The mount effect asks
    for the user once and stores an id that is truthy, so a resolution
    finds the cell empty. *)
Definition step (p : Params) (e : Event) (x : Screen) : Screen :=
  match e with
  | Rendered now =>
      let '(r, s) := render p now (session x) in
      {| session := s; screen := r; monitor := monitor x |}
  | Subscribed =>
      {| session := session x; screen := screen x; monitor := screen x |}
  | Notified now text =>
      {| session := onNotification p (monitor x) now text (session x);
         screen := screen x; monitor := monitor x |}
  | Polled now text =>
      {| session := onPoll p (monitor x) now text (session x);
         screen := screen x; monitor := monitor x |}
  | Tapped =>
      {| session := incrementRep p (screen x) (session x);
         screen := screen x; monitor := monitor x |}
  | Continued =>
      if r_showRestDrawer (screen x)
      then {| session := continueToNextSet p (screen x) (session x);
              screen := screen x; monitor := monitor x |}
      else x
  | UserResolved id =>
      match userId (state (session x)), id with
      | None, String _ _ =>
          {| session := setUserId id (session x);
             screen := screen x; monitor := monitor x |}
      | _, _ => x
      end
  end.

Definition run (p : Params) (evs : list Event) (x : Screen) : Screen :=
  fold_left (fun x e => step p e x) evs x.

(** The screen after the first render of a session mounted at [now]. *)
Definition start (p : Params) (now : Z) : Screen :=
  let '(r, s) := render p now (mount p now) in
  {| session := s; screen := r; monitor := r |}.

(** Events of the sensor path and of React itself: no button is
    pressed. *)
Definition isSensorEvent (e : Event) : bool :=
  match e with
  | Rendered _ | Subscribed | Notified _ _ | Polled _ _ => true
  | _ => false
  end.

Definition sampleText (e : Event) : option string :=
  match e with
  | Notified _ t | Polled _ t => Some t
  | _ => None
  end.

(** The payloads a trace delivers, in order. *)
Definition sampleTexts (evs : list Event) : list string :=
  omap sampleText evs.

(** Completed reps of set [i]. *)
Definition repsOfSet (s : Session) (i : nat) : option Z :=
  elems (setRepsCompleted (state s)) !! i.

(** The guard of the delta branch, on the refs a callback reads. *)
Definition deltaGuard (p : Params) (newReps : Num) (s : Session) : bool :=
  positive (sub newReps (lastSensorRepRef (refs s)))
  && (currentRepsRef (refs s) <? reps p)
  && negb (showRestDrawerRef (refs s)).

(** The merge rule with its delta branch only. *)
Definition mergeSampleDeltaOnly (p : Params) (r : Render) (newReps : Num)
    (s : Session) : Session :=
  let s0 := setSensorReps newReps s in
  if deltaGuard p newReps s0 then
    setLastSensorRepRef newReps
      (incrementRepTimes p r
         (minWith (sub newReps (lastSensorRepRef (refs s0)))
                  (reps p - currentRepsRef (refs s0))) s0)
  else s0.

(** The boundary rule as the specification words it: the parsed value
    clamped into the range, the default when nothing parses. *)
Definition clamp (lo hi n : Z) : Z := Z.max lo (Z.min hi n).

Definition paramValue (param : option string) : option Num :=
  match param with
  | Some s => parseInt (list_ascii_of_string s)
  | None => None
  end.

Definition setsAsSpecified (param : option string) : Z :=
  match paramValue param with
  | Some (Fin n) => clamp 1 20 n
  | Some PosInf => 20
  | Some NegInf => 1
  | None => 3
  end.

Definition repsAsSpecified (param : option string) : Z :=
  match paramValue param with
  | Some (Fin n) => clamp 1 50 n
  | Some PosInf => 50
  | Some NegInf => 1
  | None => 10
  end.

(** The specification's reading of exactly-once: a screen that has seen
    every set complete has called [saveWorkout] once. *)
Definition savedExactlyOnce (x : Screen) : Prop :=
  r_isAllSetsComplete (screen x) = true ->
  length (saveWorkoutCalls (session x)) = 1%nat.

(** *** Notions the statements use *)

(** The contents of [setRepsCompleted]. *)
Definition repsArray (s : Session) : list Z := elems (setRepsCompleted (state s)).

(** An array that only gained reps, none past the target. *)
Definition grows (p : Params) (l l' : list Z) : Prop :=
  length l' = length l
  /\ forall j n, l !! j = Some n ->
       exists n', l' !! j = Some n' /\ n <= n' /\ n' <= Z.max n (reps p).


(** The samples of a trace climb from [v]: each value is the one before
    it or one more; the result is the last value. *)
Fixpoint climb (v : Z) (texts : list string) : option Z :=
  match texts with
  | [] => Some v
  | t :: ts =>
      match parseNotification t with
      | Some (Fin w) => if (w =? v) || (w =? v + 1) then climb w ts else None
      | _ => None
      end
  end.

(** The first set is the current one, its entry [e] is within the
    target, no ref or closure is ahead of it, the rest drawer is open
    only when it is full, and the sensor baseline is the last value [v]
    while it is not. *)
Definition tracking (p : Params) (v : Z) (x : Screen) : Prop :=
  currentSetIndex (state (session x)) = 0%nat
  /\ r_currentSetIndex (screen x) = 0%nat
  /\ r_currentSetIndex (monitor x) = 0%nat
  /\ exists e,
       repsArray (session x) = e :: replicate (Z.to_nat (sets p) - 1) 0
       /\ e <= reps p
       /\ currentRepsRef (refs (session x)) <= e
       /\ r_currentReps (screen x) <= e
       /\ r_currentReps (monitor x) <= e
       /\ (showRestDrawer (state (session x)) = true -> e = reps p)
       /\ (showRestDrawerRef (refs (session x)) = true -> e = reps p)
       /\ (r_isAllSetsComplete (screen x) = true -> e = reps p)
       /\ (r_isAllSetsComplete (monitor x) = true -> e = reps p)
       /\ (e = reps p \/ (e = v /\ lastSensorRepRef (refs (session x)) = v)).

(** Whether the last commit of the save effect saw every set complete. *)
Definition completionCommitted (s : Session) : bool :=
  match saveEffectDeps s with
  | Some d => d_isAllSetsComplete d
  | None => false
  end.

(** [userId] is truthy: a string that is not empty. *)
Definition knownUser (u : option string) : bool :=
  match u with
  | Some (String _ _) => true
  | _ => false
  end.

(** Whether the last commit of the save effect saw every set complete
    and a user id with it. *)
Definition committedBoth (s : Session) : bool :=
  match saveEffectDeps s with
  | Some d => d_isAllSetsComplete d && knownUser (d_userId d)
  | None => false
  end.

(** The log of saves follows the commits: what the last commit saw of
    completion and user is still so, and as long as no commit saw both,
    nothing has been saved. *)
Definition unsaved (p : Params) (x : Screen) : Prop :=
  (committedBoth (session x) = true ->
   everyComplete p (repsArray (session x)) = true
   /\ knownUser (userId (state (session x))) = true)
  /\ (committedBoth (session x) = false ->
      saveWorkoutCalls (session x) = []).

(** The answer that stores a user id. *)
Definition resolvesUser (e : Event) : bool :=
  match e with
  | UserResolved (String _ _) => true
  | _ => false
  end.

(** The call of [saveWorkout] made by a commit at [now] for user [u]. *)
Definition saveCallOf (p : Params) (now : Z) (u : string) (s : Session)
  : SaveCall :=
  {| w_machineName := machineName p;
     w_sets := sets p;
     w_reps := reps p;
     w_setRepsCompleted := repsArray s;
     w_setRestTimes := elems (setRestTimes (state s));
     w_duration := (now - sessionStartTimeRef (refs s)) / 1000;
     w_userId := u |}.

(** The screen after the commit that saw session [s0] complete: the cells
    the effect depends on are those of [s0], the effect has seen them,
    the buttons are those of a complete session, and the log is [calls]. *)
Definition settled (p : Params) (s0 : Session) (calls : list SaveCall)
    (x : Screen) : Prop :=
  let s := session x in
  currentSetIndex (state s) = currentSetIndex (state s0)
  /\ setRepsCompleted (state s) = setRepsCompleted (state s0)
  /\ setRestTimes (state s) = setRestTimes (state s0)
  /\ showRestDrawer (state s) = false
  /\ restTimer (state s) = restTimer (state s0)
  /\ userId (state s) = userId (state s0)
  /\ reps p <= currentRepsRef (refs s)
  /\ r_isAllSetsComplete (screen x) = true
  /\ r_showRestDrawer (screen x) = false
  /\ saveEffectDeps s = Some (saveDepsOf p (bind p s0))
  /\ saveWorkoutCalls s = calls.

End Session.

(** ** The connection handoff store ([BleConnectionProvider]) *)

Module Handoff.

Section Store.

(** The transport's handles are opaque to the store. *)
Context {Device Manager : Type}.

Record BleConnectionState := {
  device : option Device;
  manager : option Manager;
  machine : option string;
  sensorName : option string;
  sensorMac : option string
}.

Definition initialState : BleConnectionState :=
  {| device := None; manager := None; machine := None;
     sensorName := None; sensorMac := None |}.

(** [setPreConnected]: [setState({ device, manager, ... })]. *)
Definition setPreConnected (d : Device) (m : Manager)
    (machine sensorName sensorMac : string)
    (st : BleConnectionState) : BleConnectionState :=
  {| device := Some d; manager := Some m; machine := Some machine;
     sensorName := Some sensorName; sensorMac := Some sensorMac |}.

(** [clearPreConnected]: [setState(initialState)]. *)
Definition clearPreConnected (st : BleConnectionState)
  : BleConnectionState := initialState.

(** How the session screen takes the handoff (lines 1832-1837): when
    both handles are present it clears the store and keeps them. *)
Definition consume (st : BleConnectionState)
  : option (Device * Manager) * BleConnectionState :=
  match device st, manager st with
  | Some d, Some m => (Some (d, m), clearPreConnected st)
  | _, _ => (None, st)
  end.

(** A handoff is pending when the session screen would take it. *)
Definition pending (st : BleConnectionState) : option (Device * Manager) :=
  fst (consume st).

End Store.

Arguments BleConnectionState : clear implicits.

End Handoff.

(** ** Discovery: which scanned peripheral is the sensor
    ([useBleConnectToSensor]) *)

Module Discovery.

(** [toLowerCase] on the ASCII letters; names and addresses of the
    sensors are ASCII. *)
Definition toLowerCase (s : string) : string :=
  string_of_list_ascii (map toLower (list_ascii_of_string s)).

(** [trim] *)
Definition trim (s : string) : string :=
  string_of_list_ascii
    (rev (dropWhile isSpace (rev (dropWhile isSpace (list_ascii_of_string s))))).

(** A string is truthy when it is not empty. *)
Definition nonEmpty (s : string) : bool :=
  match s with
  | EmptyString => false
  | String _ _ => true
  end.

(** [a || b] on strings that may be missing. *)
Definition orElse (a : option string) (b : string) : string :=
  match a with
  | Some x => if nonEmpty x then x else b
  | None => b
  end.

(** [sensorName?.trim() || "IMU-STACK"] *)
Definition targetNameOf (sensorName : option string) : string :=
  orElse (option_map trim sensorName) "IMU-STACK".

(** [sensorMac?.trim() || undefined] *)
Definition targetMacOf (sensorMac : option string) : option string :=
  match option_map trim sensorMac with
  | Some x => if nonEmpty x then Some x else None
  | None => None
  end.

(** What a scan callback reads of a discovered peripheral. *)
Record Peripheral := {
  id : string;
  name : option string;
  localName : option string
}.

(** [d?.name || d?.localName || ""] *)
Definition deviceNameOf (d : option Peripheral) : string :=
  match d with
  | Some d => orElse (name d) (orElse (localName d) "")
  | None => ""
  end.

(** [d?.id ?? ""] *)
Definition deviceIdOf (d : option Peripheral) : string :=
  match d with
  | Some d => id d
  | None => ""
  end.

(** [targetMac && (deviceId === targetMac ||
     deviceId?.toLowerCase() === targetMac.toLowerCase())] *)
Definition matchesMac (targetMac : option string) (d : option Peripheral)
  : bool :=
  match targetMac with
  | Some mac =>
      nonEmpty mac &&
      (String.eqb (deviceIdOf d) mac
       || String.eqb (toLowerCase (deviceIdOf d)) (toLowerCase mac))
  | None => false
  end.

(** [!targetMac && (deviceName === targetName ||
     deviceName?.toLowerCase() === targetName.toLowerCase())] *)
Definition matchesName (targetName : string) (targetMac : option string)
    (d : option Peripheral) : bool :=
  negb (match targetMac with Some mac => nonEmpty mac | None => false end) &&
  (String.eqb (deviceNameOf d) targetName
   || String.eqb (toLowerCase (deviceNameOf d)) (toLowerCase targetName)).

(** [d && (matchesMac || matchesName)] *)
Definition matches (targetName : string) (targetMac : option string)
    (d : option Peripheral) : bool :=
  match d with
  | Some _ => matchesMac targetMac d || matchesName targetName targetMac d
  | None => false
  end.

(** The match as the specification words it: the address when the
    target has one, else the target name equal, case and all, to the
    primary name or to the local name. *)
Definition matchesAsSpecified (targetName : string)
    (targetMac : option string) (d : option Peripheral) : bool :=
  match d with
  | Some d =>
      match targetMac with
      | Some mac => String.eqb (id d) mac
      | None =>
          bool_decide (name d = Some targetName)
          || bool_decide (localName d = Some targetName)
      end
  | None => false
  end.

End Discovery.

Import Session.
Import Handoff Discovery.

(** ** Numbers as text: [toString], [padStart], the clock of the rest
    drawer and the duration of the history list *)

Module Display.

(** The character of a decimal digit [d], 0 to 9. *)
Definition digitChar (d : Z) : ascii := ascii_of_nat (Z.to_nat (48 + d)).

(** The digits of [n >= 0], most significant first; [fuel] bounds the
    number of digits. *)
Fixpoint digitsFuel (fuel : nat) (n : Z) (acc : list ascii) : list ascii :=
  match fuel with
  | O => acc
  | S f =>
      if n <? 10 then digitChar n :: acc
      else digitsFuel f (n / 10) (digitChar (n mod 10) :: acc)
  end.

Definition digits (n : Z) : list ascii :=
  digitsFuel (S (Z.to_nat (Z.log2 n))) n [].

(** [n.toString()] for an integer [n]. *)
Definition toString (n : Z) : list ascii :=
  if n <? 0 then "-"%char :: digits (- n) else digits n.

(** [s.padStart(2, "0")] *)
Definition padStart2 (s : list ascii) : list ascii :=
  replicate (2 - length s) "0"%char ++ s.

(** [formatTime] of the session screen (lines 2148-2152):
    [Math.floor(seconds / 60)] and [seconds % 60], each padded to two
    characters, with a colon between them.  [%] is the remainder whose
    sign is that of [seconds]. *)
Definition formatTime (seconds : Z) : list ascii :=
  let mins := seconds / 60 in
  let secs := Z.rem seconds 60 in
  padStart2 (toString mins) ++ ":"%char :: padStart2 (toString secs).

(** [formatDuration] of the history screen: nothing for a missing or
    zero duration, else minutes and seconds, the minutes only when there
    are some. *)
Definition formatDuration (seconds : option Z) : list ascii :=
  match seconds with
  | None => []
  | Some s =>
      if s =? 0 then []
      else
        let mins := s / 60 in
        let secs := Z.rem s 60 in
        if 0 <? mins
        then toString mins ++ list_ascii_of_string "m "
               ++ toString secs ++ list_ascii_of_string "s"
        else toString secs ++ list_ascii_of_string "s"
  end.

(** A decimal numeral as a reader expects one: digits, at least one, and
    no zero in front of another digit. *)
Definition numeral (ds : list ascii) : bool :=
  match ds with
  | [] => false
  | c :: rest =>
      forallb isDigit ds
      && (negb (code c =? 48) || match rest with [] => true | _ => false end)
  end.

(** What the history card sums: [reduce((sum, x) => sum + x, 0)]. *)
Definition total (l : list Z) : Z := fold_left Z.add l 0.

End Display.

(** ** The confirm screen ([Ble]): the targets the user picks and the
    parameters it hands to the session *)

Module Confirm.

(** [useState(3)] and [useState(10)] *)
Definition initialSets : Z := 3.
Definition initialReps : Z := 10.

(** The updater of [bumpSets]: [Math.max(1, Math.min(20, v + delta))]. *)
Definition bumpSets (delta v : Z) : Z := Z.max 1 (Z.min 20 (v + delta)).

(** The updater of [bumpReps]: [Math.max(1, Math.min(50, v + delta))]. *)
Definition bumpReps (delta v : Z) : Z := Z.max 1 (Z.min 50 (v + delta)).

(** The targets after a series of presses on the steppers. *)
Definition setsAfter (deltas : list Z) : Z :=
  fold_left (fun v d => bumpSets d v) deltas initialSets.

Definition repsAfter (deltas : list Z) : Z :=
  fold_left (fun v d => bumpReps d v) deltas initialReps.

(** [params: { sets: sets.toString(), reps: reps.toString(), ... }] *)
Definition paramOf (n : Z) : option string :=
  Some (string_of_list_ascii (Display.toString n)).

End Confirm.

(** ** The plan screen ([Plan]): the list of planned exercises *)

Module Plan.

Record PlannedExercise := {
  id : string;
  name : string;
  sets : Z;
  reps : Z
}.

(** The updater of [bumpSets(id, delta)]: the exercise with that id gets
    its sets moved and capped, the others are kept. *)
Definition bumpSets (i : string) (delta : Z) (prev : list PlannedExercise)
  : list PlannedExercise :=
  map (fun e =>
         if negb (String.eqb (id e) i) then e
         else {| id := id e; name := name e;
                 sets := Z.max 1 (Z.min 20 (sets e + delta));
                 reps := reps e |}) prev.

(** The updater of [bumpReps(id, delta)]. *)
Definition bumpReps (i : string) (delta : Z) (prev : list PlannedExercise)
  : list PlannedExercise :=
  map (fun e =>
         if negb (String.eqb (id e) i) then e
         else {| id := id e; name := name e; sets := sets e;
                 reps := Z.max 1 (Z.min 50 (reps e + delta)) |}) prev.

(** The exercise [addExercise(name)] shows at once, under a temporary
    id. *)
Definition newExercise (tempId name : string) : PlannedExercise :=
  {| id := tempId; name := name; sets := 3; reps := 10 |}.

(** The three updaters of [addExercise]: the optimistic append, the
    replacement by the saved row, the removal when saving failed. *)
Definition addOptimistic (newEx : PlannedExercise)
    (prev : list PlannedExercise) : list PlannedExercise :=
  prev ++ [newEx].

Definition addSaved (tempId : string) (saved : PlannedExercise)
    (prev : list PlannedExercise) : list PlannedExercise :=
  map (fun e => if String.eqb (id e) tempId then saved else e) prev.

Definition addFailed (tempId : string) (prev : list PlannedExercise)
  : list PlannedExercise :=
  List.filter (fun e => negb (String.eqb (id e) tempId)) prev.

(** The updater of [removeExercise(id)]. *)
Definition removeExercise (i : string) (prev : list PlannedExercise)
  : list PlannedExercise :=
  List.filter (fun e => negb (String.eqb (id e) i)) prev.

(** The bounds the table of planned exercises checks. *)
Definition withinBounds (e : PlannedExercise) : Prop :=
  1 <= sets e <= 20 /\ 1 <= reps e <= 50.

(** What the user and the database can do to the list. *)
Inductive Change :=
| BumpSets (i : string) (delta : Z)
| BumpReps (i : string) (delta : Z)
| AddOptimistic (tempId name : string)
| AddSaved (tempId : string) (saved : PlannedExercise)
| AddFailed (tempId : string)
| Remove (i : string).

Definition change (c : Change) (prev : list PlannedExercise)
  : list PlannedExercise :=
  match c with
  | BumpSets i delta => bumpSets i delta prev
  | BumpReps i delta => bumpReps i delta prev
  | AddOptimistic tempId name => addOptimistic (newExercise tempId name) prev
  | AddSaved tempId saved => addSaved tempId saved prev
  | AddFailed tempId => addFailed tempId prev
  | Remove i => removeExercise i prev
  end.

(** A row the database returns obeys its own checks. *)
Definition savedWithinBounds (c : Change) : Prop :=
  match c with
  | AddSaved _ saved => withinBounds saved
  | _ => True
  end.

End Plan.

(** ** A session done by hand: the user presses "+1 Rep" for every rep
    and "Continue" after every rest *)

Module Manual.

(** A press of "+1 Rep" and the render it causes. *)
Definition tap (t : Z) : list Event := [Tapped; Rendered t].

(** A press of "Continue" and the render it causes. *)
Definition next (t : Z) : list Event := [Continued; Rendered t].

(** [n] presses of "+1 Rep". *)
Definition taps (t : Z) (n : nat) : list Event := concat (replicate n (tap t)).

(** The whole workout: every set but the last is followed by a rest. *)
Definition workout (t : Z) (p : Params) : list Event :=
  concat (replicate (Z.to_nat (sets p) - 1)
            (taps t (Z.to_nat (reps p)) ++ next t))
  ++ taps t (Z.to_nat (reps p)).

(** The session of user [u] with [i] sets done and [j] reps of the next
    one, freshly rendered, nothing saved yet. *)
Definition atRep (p : Params) (u : string) (i j : nat) (x : Screen) : Prop :=
  let s := session x in
  currentSetIndex (state s) = i
  /\ repsArray s
     = replicate i (reps p) ++ Z.of_nat j
         :: replicate (Z.to_nat (sets p) - 1 - i) 0
  /\ elems (setRestTimes (state s)) = replicate (Z.to_nat (sets p)) 0
  /\ restTimer (state s) = 0
  /\ showRestDrawer (state s)
     = (reps p <=? Z.of_nat j) && (Z.of_nat i <? sets p - 1)
  /\ userId (state s) = Some u
  /\ screen x = bind p s
  /\ saveWorkoutCalls s = []
  /\ completionCommitted s = false.

End Manual.

(** ** The rest clock of the session (the effect on [showRestDrawer]) *)

Module RestClock.

(** [restStartTimeRef] and whether the interval of
    [restTimerIntervalRef] is running. *)
Record Clock := {
  restStartTimeRef : Z;
  running : bool
}.

Definition setRestTimer (v : Z) : Session -> Session :=
  withState (fun st =>
    {| currentSetIndex := currentSetIndex st;
       setRepsCompleted := setRepsCompleted st;
       setRestTimes := setRestTimes st;
       showRestDrawer := showRestDrawer st;
       restTimer := v;
       userId := userId st;
       sensorReps := sensorReps st |}).

(** The effect of a commit at [now] whose render [r] saw
    [showRestDrawer] change: the interval of the previous run is
    cleared, and a new one is started when the drawer is open. *)
Definition restEffect (r : Render) (now : Z) (c : Clock) (s : Session)
  : Clock * Session :=
  if r_showRestDrawer r
  then ({| restStartTimeRef := now; running := true |}, setRestTimer 0 s)
  else ({| restStartTimeRef := restStartTimeRef c; running := false |}, s).

(** The interval's callback at [now]. *)
Definition tick (c : Clock) (now : Z) (s : Session) : Session :=
  if running c
  then setRestTimer ((now - restStartTimeRef c) / 1000) s
  else s.

Definition ticks (c : Clock) (nows : list Z) (s : Session) : Session :=
  fold_left (fun s now => tick c now s) nows s.

End RestClock.

(** ** The workout history ([workoutStorage]) *)

Module Storage.

(** A stored workout.  [completedAt] is an ISO date in the source, read
    back with [new Date(...).getTime()]; the instant is kept here, in
    milliseconds. *)
Record Workout := {
  id : string;
  userId : string;
  machineName : string;
  sets : Z;
  reps : Z;
  completedAt : Z;
  setRepsCompleted : list Z;
  setRestTimes : list Z;
  duration : option Z
}.

Inductive Platform := web | native.

(** What is behind the key or the file: nothing, text that [JSON.parse]
    rejects, or the array it parses to. *)
Inductive Content :=
| Missing
| Unreadable
| Stored (workouts : list Workout).

(** The device: its platform, whether a document or cache directory is
    known ([getFilePath] returns a path), and the stored text. *)
Record Disk := {
  os : Platform;
  base : bool;
  content : Content
}.

Definition parsed (c : Content) : list Workout :=
  match c with
  | Stored workouts => workouts
  | _ => []
  end.

Definition readWorkouts (d : Disk) : list Workout :=
  match os d with
  | web => parsed (content d)
  | native => if base d then parsed (content d) else []
  end.

(** A write that the platform accepts. *)
Definition writeWorkouts (workouts : list Workout) (d : Disk) : Disk :=
  match os d with
  | web => {| os := os d; base := base d; content := Stored workouts |}
  | native =>
      if base d
      then {| os := os d; base := base d; content := Stored workouts |}
      else d
  end.

(** [Array.prototype.sort] with the comparator
    [getTime(b.completedAt) - getTime(a.completedAt)]: a stable sort,
    the most recent first. *)
Fixpoint insertNewest (w : Workout) (sorted : list Workout) : list Workout :=
  match sorted with
  | [] => [w]
  | x :: rest =>
      if completedAt x <=? completedAt w then w :: sorted
      else x :: insertNewest w rest
  end.

Definition sortNewestFirst (l : list Workout) : list Workout :=
  foldr insertNewest [] l.

Definition getWorkouts (user : string) (d : Disk) : list Workout :=
  sortNewestFirst
    (List.filter (fun w => String.eqb (userId w) user) (readWorkouts d)).

(** The record [saveWorkout] builds from the session's call, a fresh id
    and the clock. *)
Definition newWorkout (c : SaveCall) (newId : string) (now : Z) : Workout :=
  {| id := newId;
     userId := w_userId c;
     machineName := w_machineName c;
     sets := w_sets c;
     reps := w_reps c;
     completedAt := now;
     setRepsCompleted := w_setRepsCompleted c;
     setRestTimes := w_setRestTimes c;
     duration := Some (w_duration c) |}.

Definition saveWorkout (c : SaveCall) (newId : string) (now : Z) (d : Disk)
  : Disk :=
  writeWorkouts (readWorkouts d ++ [newWorkout c newId now]) d.

(** A device that keeps what is written. *)
Definition writable (d : Disk) : bool :=
  match os d with
  | web => true
  | native => base d
  end.

(** The most recent first. *)
Definition newerFirst (a b : Workout) : Prop := completedAt b <= completedAt a.

(** [totalReps] of the history screen:
    [item.setRepsCompleted.reduce((sum, reps) => sum + reps, 0)]. *)
Definition totalReps (w : Workout) : Z := Display.total (setRepsCompleted w).

End Storage.

(** ** The connection hook ([useBleConnectToSensor]) over time *)

Module Hook.

Inductive ConnectStatus := Idle | Scanning | Connecting | Connected | Error.

(** [State] of the BLE library. *)
Inductive AdapterState :=
| Unknown | Resetting | Unsupported | Unauthorized | PoweredOff | PoweredOn.

(** How a connection attempt ([d.connect()], the discovery, the list of
    services) ends: with an exception, or with the UUIDs of the
    services. *)
Inductive Attempt :=
| Threw (message : option string)
| Discovered (uuids : list string).

Definition SERVICE_UUID_LC : string := "6e400001-b5a3-f393-e0a9-e50e24dcca9e".

(** [services.some((s) => s.uuid.toLowerCase() === SERVICE_UUID_LC)] *)
Definition hasService (uuids : list string) : bool :=
  existsb (fun uuid => String.eqb (toLowerCase uuid) SERVICE_UUID_LC) uuids.

(** [e?.message ?? fallback] *)
Definition messageOr (message : option string) (fallback : string) : string :=
  match message with
  | Some text => text
  | None => fallback
  end.

Section WithManager.

(** The handle of the BLE manager is opaque; the connected device is
    the peripheral that was found. *)
Context {Manager : Type}.

(** The cells and refs of the hook, and where the body of [connect]
    stands: [awaitingAdapter] between the creation of the manager and
    the start of the scan; [listening] once the scan callback of this
    call has been registered (the library may go on delivering to it
    after the scan was asked to stop); [scanTimeoutRef] while the timer
    the ref holds is pending; [attempting] the connection attempts that
    have not ended, oldest first.  [connectCalls] logs the calls of
    [d.connect()]. *)
Record Hook := {
  status : ConnectStatus;
  error : option string;
  device : option Peripheral;
  manager : option Manager;
  connectInFlightRef : bool;
  awaitingAdapter : bool;
  listening : bool;
  scanTimeoutRef : bool;
  attempting : list Peripheral;
  connectCalls : list Peripheral
}.

Definition initial : Hook :=
  {| status := Idle; error := None; device := None; manager := None;
     connectInFlightRef := false; awaitingAdapter := false;
     listening := false; scanTimeoutRef := false;
     attempting := []; connectCalls := [] |}.

(** What happens to the hook: [connect()] is called ([made] is what
    [new BleManager()] yields if it is reached); the adapter phase ends
    with a state or an exception; the scan callback is called; the scan
    timer fires; a connection attempt ends. *)
Inductive Event :=
| Connect (made : Manager + option string)
| AdapterSettled (state : AdapterState)
| AdapterThrew (message : option string)
| Scanned (err : option (option string)) (d : option Peripheral)
| TimedOut
| Attempted (outcome : Attempt).

(** [setStatus("error"); setError(text); connectInFlightRef.current =
    false], with the scan timer cleared or left as [timer] says. *)
Definition fail (text : string) (timer : bool) (h : Hook) : Hook :=
  {| status := Error; error := Some text; device := device h;
     manager := manager h; connectInFlightRef := false;
     awaitingAdapter := false; listening := listening h;
     scanTimeoutRef := timer;
     attempting := attempting h; connectCalls := connectCalls h |}.

Section WithTarget.

Variable sensorName : string.
Variable sensorMac : option string.

Definition targetName : string := targetNameOf (Some sensorName).
Definition targetMac : option string := targetMacOf sensorMac.

(** [connect] up to its first [await] (lines 21-42).  Every scan ends
    with [stopDeviceScan], so a call that finds none in flight has no
    callback left to be delivered to. *)
Definition connect (made : Manager + option string) (h : Hook) : Hook :=
  if connectInFlightRef h then h
  else
    match manager h, made with
    | None, inr message =>
        {| status := Error;
           error := Some (messageOr message "Failed to init BLE");
           device := None; manager := None;
           connectInFlightRef := false; awaitingAdapter := false;
           listening := false; scanTimeoutRef := scanTimeoutRef h;
           attempting := attempting h; connectCalls := connectCalls h |}
    | None, inl m =>
        {| status := Scanning; error := None; device := None;
           manager := Some m;
           connectInFlightRef := true; awaitingAdapter := true;
           listening := false; scanTimeoutRef := scanTimeoutRef h;
           attempting := attempting h; connectCalls := connectCalls h |}
    | Some m, _ =>
        {| status := Scanning; error := None; device := None;
           manager := Some m;
           connectInFlightRef := true; awaitingAdapter := true;
           listening := false; scanTimeoutRef := scanTimeoutRef h;
           attempting := attempting h; connectCalls := connectCalls h |}
    end.

(** The end of the adapter phase (lines 74-93 and 154). *)
Definition adapterSettled (state : AdapterState) (h : Hook) : Hook :=
  if awaitingAdapter h then
    match state with
    | Unsupported | Unauthorized =>
        fail "Bluetooth not available" (scanTimeoutRef h) h
    | PoweredOn =>
        {| status := Scanning; error := error h; device := device h;
           manager := manager h;
           connectInFlightRef := connectInFlightRef h;
           awaitingAdapter := false;
           listening := true; scanTimeoutRef := true;
           attempting := attempting h; connectCalls := connectCalls h |}
    | _ => fail "Bluetooth not powered on" (scanTimeoutRef h) h
    end
  else h.

(** An exception in the adapter phase (lines 168-173). *)
Definition adapterThrew (message : option string) (h : Hook) : Hook :=
  if awaitingAdapter h
  then fail (messageOr message "Connection failed") (scanTimeoutRef h) h
  else h.

(** The scan callback (lines 94-124), up to the call of [d.connect()]. *)
Definition scanned (err : option (option string)) (d : option Peripheral)
    (h : Hook) : Hook :=
  if negb (listening h) then h
  else if negb (connectInFlightRef h) then h
  else
    match err with
    | Some message => fail (messageOr message "Scan error") false h
    | None =>
        match d with
        | Some found =>
            if matches targetName targetMac d then
              {| status := Connecting; error := error h; device := device h;
                 manager := manager h;
                 connectInFlightRef := false;
                 awaitingAdapter := awaitingAdapter h;
                 listening := listening h; scanTimeoutRef := false;
                 attempting := attempting h ++ [found];
                 connectCalls := connectCalls h ++ [found] |}
            else h
        | None => h
        end
    end.

(** The scan timer (lines 154-166). *)
Definition timedOut (h : Hook) : Hook :=
  if scanTimeoutRef h then
    if connectInFlightRef h
    then fail "Sensor not found. Make sure it's on and nearby." false h
    else
      {| status := status h; error := error h; device := device h;
         manager := manager h; connectInFlightRef := false;
         awaitingAdapter := awaitingAdapter h;
         listening := listening h; scanTimeoutRef := false;
         attempting := attempting h; connectCalls := connectCalls h |}
  else h.

(** The end of the oldest connection attempt (lines 126-150 and 172). *)
Definition attempted (outcome : Attempt) (h : Hook) : Hook :=
  match attempting h with
  | [] => h
  | found :: rest =>
      let '(st, err, dev) :=
        match outcome with
        | Threw message =>
            (Error, Some (messageOr message "Connection failed"), device h)
        | Discovered uuids =>
            if hasService uuids then (Connected, error h, Some found)
            else (Error, Some "Device missing expected service"%string,
                  device h)
        end in
      {| status := st; error := err; device := dev;
         manager := manager h; connectInFlightRef := false;
         awaitingAdapter := awaitingAdapter h;
         listening := listening h; scanTimeoutRef := scanTimeoutRef h;
         attempting := rest; connectCalls := connectCalls h |}
  end.

Definition step (e : Event) (h : Hook) : Hook :=
  match e with
  | Connect made => connect made h
  | AdapterSettled state => adapterSettled state h
  | AdapterThrew message => adapterThrew message h
  | Scanned err d => scanned err d h
  | TimedOut => timedOut h
  | Attempted outcome => attempted outcome h
  end.

Definition run (evs : list Event) (h : Hook) : Hook :=
  fold_left (fun h e => step e h) evs h.

(** The second effect of [ConnectingScreen]: once the hook reports a
    connection and the route names a machine, the handles are published
    for the session screen. *)
Definition publish (machine : option string) (h : Hook)
    (store : BleConnectionState Peripheral Manager)
  : BleConnectionState Peripheral Manager :=
  match status h, device h, manager h, machine with
  | Connected, Some d, Some m, Some label =>
      if nonEmpty label && nonEmpty (trim label)
      then setPreConnected d m label sensorName
             (match sensorMac with Some mac => mac | None => EmptyString end)
             store
      else store
  | _, _, _, _ => store
  end.

(** The number of calls of [connect()] among the events. *)
Definition connects (evs : list Event) : nat :=
  length (List.filter (fun e => match e with Connect _ => true | _ => false end)
            evs).

(** Advertisements of other peripherals, delivered without error. *)
Definition stranger (e : Event) : Prop :=
  match e with
  | Scanned None d => matches targetName targetMac d = false
  | _ => False
  end.

(** What the events so far guarantee about the hook. *)
Definition sound (evs : list Event) (h : Hook) : Prop :=
  Forall (fun d => matches targetName targetMac (Some d) = true) (attempting h)
  /\ (forall d, device h = Some d ->
        matches targetName targetMac (Some d) = true
        /\ exists uuids, In (Attempted (Discovered uuids)) evs
                         /\ hasService uuids = true)
  /\ (status h = Connected -> is_Some (device h) /\ is_Some (manager h))
  /\ (awaitingAdapter h = true -> is_Some (manager h))
  /\ (attempting h <> [] -> is_Some (manager h))
  /\ (connectInFlightRef h = true -> is_Some (manager h)).

End WithTarget.

End WithManager.

Arguments Hook : clear implicits.
Arguments Event : clear implicits.

End Hook.

(** ** The session's two connection effects (lines 1802-1987 and
    1990-2126): which device the screen holds, what it shows, and
    whether a subscription set up by an effect is still live *)

Module Wiring.

Inductive SensorStatus :=
| Idle | NeedScan | Scanning | Connecting | Connected | Error.

#[global] Instance SensorStatus_eq_dec : EqDecision SensorStatus.
Proof. solve_decision. Defined.

Section WithHandles.

(** Handles are compared by identity in a dependency list. *)
Context {Device Manager : Type}.
Context `{EqDecision Device, EqDecision Manager}.

(** The dependency lists of the two effects ([clearPreConnected] is
    memoised and never changes). *)
Record MainDeps := {
  m_showRestDrawer : bool;
  m_isAllSetsComplete : bool;
  m_preConnectedDevice : option Device;
  m_preConnectedManager : option Manager;
  m_reps : Z
}.

Record RetryDeps := {
  t_sensorStatus : SensorStatus;
  t_retryDevice : option Device;
  t_retryManager : option Manager;
  t_reps : Z
}.

#[global] Instance MainDeps_eq_dec : EqDecision MainDeps.
Proof. solve_decision. Defined.

#[global] Instance RetryDeps_eq_dec : EqDecision RetryDeps.
Proof. solve_decision. Defined.

(** The cell [sensorStatus], the refs, and what React and the closures
    keep: for each effect the dependencies of its last run and whether
    that run returned a cleanup; for each setup started by an effect,
    the device it subscribes to while its [setupCancelled] is false.
    [cancelled] logs the calls of [cancelConnection()].  The
    asynchronous part of a setup is not followed. *)
Record Link := {
  sensorStatus : SensorStatus;
  hadDeviceRef : bool;
  deviceRef : option Device;
  bleManagerRef : option Manager;
  mainSetup : option Device;
  retrySetup : option Device;
  cancelled : list Device;
  mainDeps : option MainDeps;
  mainCleanup : bool;
  retryDeps : option RetryDeps;
  retryCleanup : bool
}.

Definition mounted : Link :=
  {| sensorStatus := Idle; hadDeviceRef := false; deviceRef := None;
     bleManagerRef := None; mainSetup := None; retrySetup := None;
     cancelled := []; mainDeps := None; mainCleanup := false;
     retryDeps := None; retryCleanup := false |}.

(** What a render binds of the values the two effects read. *)
Record View := {
  v_showRestDrawer : bool;
  v_isAllSetsComplete : bool;
  v_preConnectedDevice : option Device;
  v_preConnectedManager : option Manager;
  v_sensorStatus : SensorStatus;
  v_retryDevice : option Device;
  v_retryManager : option Manager;
  v_reps : Z
}.

(** The render of the session screen: the engine's values, the store of
    the provider, the cell and the retry hook's device and manager. *)
Definition view (reps : Z) (r : Render)
    (store : BleConnectionState Device Manager)
    (retryDevice : option Device) (retryManager : option Manager)
    (l : Link) : View :=
  {| v_showRestDrawer := r_showRestDrawer r;
     v_isAllSetsComplete := r_isAllSetsComplete r;
     v_preConnectedDevice := Handoff.device store;
     v_preConnectedManager := Handoff.manager store;
     v_sensorStatus := sensorStatus l;
     v_retryDevice := retryDevice;
     v_retryManager := retryManager;
     v_reps := reps |}.

Definition mainDepsOf (v : View) : MainDeps :=
  {| m_showRestDrawer := v_showRestDrawer v;
     m_isAllSetsComplete := v_isAllSetsComplete v;
     m_preConnectedDevice := v_preConnectedDevice v;
     m_preConnectedManager := v_preConnectedManager v;
     m_reps := v_reps v |}.

Definition retryDepsOf (v : View) : RetryDeps :=
  {| t_sensorStatus := v_sensorStatus v;
     t_retryDevice := v_retryDevice v;
     t_retryManager := v_retryManager v;
     t_reps := v_reps v |}.

(** [if (deviceRef.current) { deviceRef.current.cancelConnection();
    deviceRef.current = null; }] *)
Definition dropDevice (l : Link) : Link :=
  {| sensorStatus := sensorStatus l; hadDeviceRef := hadDeviceRef l;
     deviceRef := None; bleManagerRef := bleManagerRef l;
     mainSetup := mainSetup l; retrySetup := retrySetup l;
     cancelled :=
       match deviceRef l with
       | Some d => cancelled l ++ [d]
       | None => cancelled l
       end;
     mainDeps := mainDeps l; mainCleanup := mainCleanup l;
     retryDeps := retryDeps l; retryCleanup := retryCleanup l |}.

Definition setSensorStatus (st : SensorStatus) (l : Link) : Link :=
  {| sensorStatus := st; hadDeviceRef := hadDeviceRef l;
     deviceRef := deviceRef l; bleManagerRef := bleManagerRef l;
     mainSetup := mainSetup l; retrySetup := retrySetup l;
     cancelled := cancelled l;
     mainDeps := mainDeps l; mainCleanup := mainCleanup l;
     retryDeps := retryDeps l; retryCleanup := retryCleanup l |}.

(** The cleanup the main effect returns in its handoff branch
    (lines 1960-1974). *)
Definition mainCleanupRun (l : Link) : Link :=
  dropDevice
    {| sensorStatus := sensorStatus l; hadDeviceRef := hadDeviceRef l;
       deviceRef := deviceRef l; bleManagerRef := bleManagerRef l;
       mainSetup := None; retrySetup := retrySetup l;
       cancelled := cancelled l;
       mainDeps := mainDeps l; mainCleanup := mainCleanup l;
       retryDeps := retryDeps l; retryCleanup := retryCleanup l |}.

(** The cleanup of the retry effect (lines 2115-2125). *)
Definition retryCleanupRun (l : Link) : Link :=
  {| sensorStatus := sensorStatus l; hadDeviceRef := hadDeviceRef l;
     deviceRef := deviceRef l; bleManagerRef := bleManagerRef l;
     mainSetup := mainSetup l; retrySetup := None;
     cancelled := cancelled l;
     mainDeps := mainDeps l; mainCleanup := mainCleanup l;
     retryDeps := retryDeps l; retryCleanup := retryCleanup l |}.

(** Book-keeping of React: the dependencies of the run and whether it
    returned a cleanup. *)
Definition ranMain (v : View) (cleanup : bool) (l : Link) : Link :=
  {| sensorStatus := sensorStatus l; hadDeviceRef := hadDeviceRef l;
     deviceRef := deviceRef l; bleManagerRef := bleManagerRef l;
     mainSetup := mainSetup l; retrySetup := retrySetup l;
     cancelled := cancelled l;
     mainDeps := Some (mainDepsOf v); mainCleanup := cleanup;
     retryDeps := retryDeps l; retryCleanup := retryCleanup l |}.

Definition ranRetry (v : View) (cleanup : bool) (l : Link) : Link :=
  {| sensorStatus := sensorStatus l; hadDeviceRef := hadDeviceRef l;
     deviceRef := deviceRef l; bleManagerRef := bleManagerRef l;
     mainSetup := mainSetup l; retrySetup := retrySetup l;
     cancelled := cancelled l;
     mainDeps := mainDeps l; mainCleanup := mainCleanup l;
     retryDeps := Some (retryDepsOf v); retryCleanup := cleanup |}.

(** The body of the main effect (lines 1802-1979). *)
Definition mainBody (v : View)
    (x : BleConnectionState Device Manager * Link)
  : BleConnectionState Device Manager * Link :=
  let '(store, l) := x in
  if v_showRestDrawer v || v_isAllSetsComplete v then
    (store, ranMain v false (setSensorStatus Idle (dropDevice l)))
  else
    match v_preConnectedDevice v, v_preConnectedManager v with
    | Some d, Some m =>
        (clearPreConnected store,
         ranMain v true
           {| sensorStatus := Connected; hadDeviceRef := true;
              deviceRef := Some d; bleManagerRef := Some m;
              mainSetup := Some d; retrySetup := retrySetup l;
              cancelled := cancelled l;
              mainDeps := mainDeps l; mainCleanup := mainCleanup l;
              retryDeps := retryDeps l; retryCleanup := retryCleanup l |})
    | _, _ =>
        (store,
         ranMain v false
           (setSensorStatus (if hadDeviceRef l then Error else NeedScan) l))
    end.

(** The body of the retry effect (lines 1990-2114). *)
Definition retryBody (v : View) (l : Link) : Link :=
  if negb (bool_decide (v_sensorStatus v = Error)) then ranRetry v false l
  else
    match v_retryDevice v, v_retryManager v with
    | Some d, Some m =>
        ranRetry v true
          {| sensorStatus := Connected; hadDeviceRef := true;
             deviceRef := Some d; bleManagerRef := Some m;
             mainSetup := mainSetup l; retrySetup := Some d;
             cancelled := cancelled l;
             mainDeps := mainDeps l; mainCleanup := mainCleanup l;
             retryDeps := retryDeps l; retryCleanup := retryCleanup l |}
    | _, _ => ranRetry v false l
    end.

(** The commit of a render: the cleanups of the effects whose
    dependencies changed, then their bodies, in the order of the
    source. *)
Definition commit (v : View)
    (x : BleConnectionState Device Manager * Link)
  : BleConnectionState Device Manager * Link :=
  let '(store, l) := x in
  let mainChanged := negb (bool_decide (mainDeps l = Some (mainDepsOf v))) in
  let retryChanged := negb (bool_decide (retryDeps l = Some (retryDepsOf v))) in
  let l1 := if mainChanged && mainCleanup l then mainCleanupRun l else l in
  let l2 := if retryChanged && retryCleanup l1 then retryCleanupRun l1 else l1 in
  let '(store3, l3) := if mainChanged then mainBody v (store, l2)
                       else (store, l2) in
  let l4 := if retryChanged then retryBody v l3 else l3 in
  (store3, l4).

(** A render of the screen and its commit, with the engine's render
    [r] and the retry hook holding [retryDevice] and [retryManager]. *)
Definition rendered (reps : Z) (r : Render)
    (retryDevice : option Device) (retryManager : option Manager)
    (x : BleConnectionState Device Manager * Link)
  : BleConnectionState Device Manager * Link :=
  commit (view reps r (fst x) retryDevice retryManager (snd x)) x.

(** A sample of the sensor reaches the engine only through a setup that
    has not been cancelled. *)
Definition delivering (l : Link) : bool :=
  match mainSetup l, retrySetup l with
  | None, None => false
  | _, _ => true
  end.

End WithHandles.

Arguments Link : clear implicits.
Arguments View : clear implicits.

End Wiring.

(** ** Inputs used as instances *)

(** A peripheral that advertises the sensor name in lower case. *)
Definition imuLower : Peripheral :=
  {| id := "C4:DE:E2:10:7A:01"; name := Some "imu-stack"; localName := None |}.

(** Target of one set of three reps. *)
Definition oneByThree : Params :=
  {| sets := 1; reps := 3; machineName := "Leg Press" |}.

(** Two sets of ten reps. *)
Definition twoByTen : Params :=
  {| sets := 2; reps := 10; machineName := "Bench" |}.

(** Payloads of a counter that goes from 0 to 10, then on to 12. *)
Definition zeroToTen : list string :=
  ["0"; "1"; "2"; "3"; "4"; "5"; "6"; "7"; "8"; "9"; "10"]%string.

Definition elevenTwelve : list string := ["11"; "12"]%string.

(** The three samples of the scenario, each followed by a render. *)
Definition threeReps : list Event :=
  [Notified 1000 "REPS:1"; Rendered 1001;
   Notified 2000 "REPS:2"; Rendered 2001;
   Notified 3000 "REPS:3"].

(** A payload whose digits are too many for a double: a 1 and 309
    zeros. *)
Definition tooLong : string :=
  string_of_list_ascii
    (list_ascii_of_string "REPS:1" ++ replicate 309 "0"%char).

(** A peripheral that is not the sensor. *)
Definition headset : Peripheral :=
  {| id := "11:22:33:44:55:66"; name := Some "Headset"%string;
     localName := None |}.

(** A scan for the sensor by name, with the adapter powered on. *)
Definition scanning : Hook.Hook unit :=
  Hook.run "IMU-STACK" None
    [Hook.Connect (inl tt); Hook.AdapterSettled Hook.PoweredOn] Hook.initial.

(** The sensor answers the scan and offers the service. *)
Definition sensorFound : list (Hook.Event unit) :=
  [Hook.Connect (inl tt); Hook.AdapterSettled Hook.PoweredOn;
   Hook.Scanned None (Some headset); Hook.Scanned None (Some imuLower);
   Hook.Attempted
     (Hook.Discovered ["6E400001-B5A3-F393-E0A9-E50E24DCCA9E"%string])].

(** The first render of a session of two sets of ten reps. *)
Definition firstRender : Render := bind twoByTen (mount twoByTen 0).

(** The render of the same session with the rest drawer open. *)
Definition restRender : Render :=
  bind twoByTen (setShowRestDrawer true (mount twoByTen 0)).

(** A screen that reports the connection of device 7 as lost. *)
Definition lostLink : Wiring.Link nat nat :=
  {| Wiring.sensorStatus := Wiring.Error; Wiring.hadDeviceRef := true;
     Wiring.deviceRef := None; Wiring.bleManagerRef := Some 1%nat;
     Wiring.mainSetup := None; Wiring.retrySetup := None;
     Wiring.cancelled := [7%nat];
     Wiring.mainDeps :=
       Some {| Wiring.m_showRestDrawer := false;
               Wiring.m_isAllSetsComplete := false;
               Wiring.m_preConnectedDevice := None;
               Wiring.m_preConnectedManager := None;
               Wiring.m_reps := 10 |};
     Wiring.mainCleanup := false;
     Wiring.retryDeps :=
       Some {| Wiring.t_sensorStatus := Wiring.Error;
               Wiring.t_retryDevice := None;
               Wiring.t_retryManager := Some 1%nat;
               Wiring.t_reps := 10 |};
     Wiring.retryCleanup := false |}.

(** A screen that holds device 7 and shows it as connected. *)
Definition connectedLink : Wiring.Link nat nat :=
  {| Wiring.sensorStatus := Wiring.Connected; Wiring.hadDeviceRef := true;
     Wiring.deviceRef := Some 7%nat; Wiring.bleManagerRef := Some 1%nat;
     Wiring.mainSetup := None; Wiring.retrySetup := None;
     Wiring.cancelled := [];
     Wiring.mainDeps :=
       Some {| Wiring.m_showRestDrawer := false;
               Wiring.m_isAllSetsComplete := false;
               Wiring.m_preConnectedDevice := None;
               Wiring.m_preConnectedManager := None;
               Wiring.m_reps := 10 |};
     Wiring.mainCleanup := false;
     Wiring.retryDeps :=
       Some {| Wiring.t_sensorStatus := Wiring.Connected;
               Wiring.t_retryDevice := Some 7%nat;
               Wiring.t_retryManager := Some 1%nat;
               Wiring.t_reps := 10 |};
     Wiring.retryCleanup := false |}.

(** * Properties *)

(** ** Tactics shared by the proofs *)

(** The operations on numbers are unfolded by hand. *)
Arguments positive : simpl never.
Arguments sub : simpl never.
Arguments isZero : simpl never.
Arguments minWith : simpl never.
Arguments finite : simpl never.

Ltac bool_to_prop :=
  repeat match goal with
  | H : _ && _ = true |- _ => apply andb_true_iff in H; destruct H
  | H : _ && _ = false |- _ => apply andb_false_iff in H
  | H : _ || _ = true |- _ => apply orb_true_iff in H
  | H : _ || _ = false |- _ => apply orb_false_iff in H; destruct H
  | H : negb _ = true |- _ => apply negb_true_iff in H
  | H : negb _ = false |- _ => apply negb_false_iff in H
  | H : (_ <? _) = true |- _ => apply Z.ltb_lt in H
  | H : (_ <? _) = false |- _ => apply Z.ltb_ge in H
  | H : (_ <=? _) = true |- _ => apply Z.leb_le in H
  | H : (_ <=? _) = false |- _ => apply Z.leb_gt in H
  | H : (_ =? _) = true |- _ => apply Z.eqb_eq in H
  | H : (_ =? _) = false |- _ => apply Z.eqb_neq in H
  end.

(** ** The handoff store *)

Section HandoffFacts.

Context {Device Manager : Type}.
Implicit Types (d : Device) (m : Manager) (st : BleConnectionState Device Manager).

Lemma consume_clears st : fst (consume (snd (consume st))) = None.
Proof.
  unfold consume.
  destruct (device st) eqn:Hd, (manager st) eqn:Hm; simpl;
    try rewrite Hd; try rewrite Hm; reflexivity.
Qed.

(** C6: a published handoff is returned by the first consume, which
    clears the slot; the consume after it returns nothing; consuming an
    empty store returns nothing; publishing overwrites, so one handoff
    at most is pending. *)
Theorem handoff_read_and_clear :
  forall d m (machine sensorName sensorMac : string) st,
    let published := setPreConnected d m machine sensorName sensorMac st in
    consume published = (Some (d, m), initialState)
    /\ consume (snd (consume published)) = (None, initialState)
    /\ consume (@initialState Device Manager) = (None, initialState)
    /\ fst (consume (snd (consume st))) = None
    /\ (forall d' m' (machine' sensorName' sensorMac' : string),
          setPreConnected d' m' machine' sensorName' sensorMac' published
          = setPreConnected d' m' machine' sensorName' sensorMac' st
          /\ pending
               (setPreConnected d' m' machine' sensorName' sensorMac' published)
             = Some (d', m'))
    /\ pending (clearPreConnected published) = None.
Proof.
  intros d m machine sensorName sensorMac st published.
  repeat split; try reflexivity.
  apply consume_clears.
Qed.

End HandoffFacts.

(** ** Discovery *)

Lemma eqb_or_lower a b :
  String.eqb a b || String.eqb (toLowerCase a) (toLowerCase b) = true
  <-> toLowerCase a = toLowerCase b.
Proof.
  rewrite orb_true_iff, !String.eqb_eq. split.
  - intros [->|H]; [reflexivity|exact H].
  - intros H. right. exact H.
Qed.

Lemma targetMacOf_nonEmpty sensorMac mac :
  targetMacOf sensorMac = Some mac -> nonEmpty mac = true.
Proof.
  unfold targetMacOf. destruct (option_map trim sensorMac) as [x|];
    [|discriminate].
  destruct (nonEmpty x) eqn:Hx; [|discriminate].
  intros H. injection H as <-. exact Hx.
Qed.

(** C7, as the code has it: with a target address the peripheral matches
    on its id alone, compared without regard to ASCII case; with none it
    matches on its advertised name (the primary name, or the local name
    when the primary one is missing or empty), compared to the target
    name without regard to case; so with an address that does not match,
    no name makes the peripheral match.  The address the hook derives
    from its argument is never the empty string. *)
Theorem sensor_match :
  forall (targetName : string) (targetMac : option string) (d : Peripheral),
    (forall mac, targetMac = Some mac -> nonEmpty mac = true ->
       (matches targetName targetMac (Some d) = true
        <-> toLowerCase (id d) = toLowerCase mac))
    /\ (forall mac, targetMac = Some mac -> nonEmpty mac = true ->
        toLowerCase (id d) <> toLowerCase mac ->
        matches targetName targetMac (Some d) = false)
    /\ (targetMac = None \/ targetMac = Some EmptyString ->
       (matches targetName targetMac (Some d) = true
        <-> toLowerCase (deviceNameOf (Some d)) = toLowerCase targetName))
    /\ deviceNameOf (Some d) = orElse (name d) (orElse (localName d) "")
    /\ matches targetName targetMac None = false
    /\ (forall sensorMac mac,
        targetMacOf sensorMac = Some mac -> nonEmpty mac = true).
Proof.
  intros targetName targetMac d.
  assert (Hmac : forall mac, targetMac = Some mac -> nonEmpty mac = true ->
            (matches targetName targetMac (Some d) = true
             <-> toLowerCase (id d) = toLowerCase mac)).
  { intros mac -> Hne. unfold matches, matchesMac, matchesName.
    rewrite Hne. simpl. rewrite orb_false_r. apply eqb_or_lower. }
  repeat apply conj.
  - exact Hmac.
  - intros mac Ht Hne Hdiff.
    apply not_true_is_false. intros Hm.
    apply (Hmac mac Ht Hne) in Hm. contradiction.
  - intros [-> | ->]; unfold matches, matchesMac, matchesName; simpl;
      apply eqb_or_lower.
  - reflexivity.
  - reflexivity.
  - apply targetMacOf_nonEmpty.
Qed.

Lemma sensor_match_witness :
  matches "IMU-STACK" (Some "c4:de:e2:10:7a:01") (Some imuLower) = true
  /\ matches "IMU-STACK" None (Some imuLower) = true.
Proof.
  split.
  - apply (proj1 (sensor_match "IMU-STACK" (Some "c4:de:e2:10:7a:01") imuLower)
             "c4:de:e2:10:7a:01" eq_refl eq_refl).
    reflexivity.
  - apply (proj1 (proj2 (proj2 (sensor_match "IMU-STACK" None imuLower)))
             (or_introl eq_refl)).
    reflexivity.
Defined.

(** C7 as stated fails: the target name "IMU-STACK" and the advertised
    name "imu-stack" differ as strings, yet the peripheral is selected. *)
Lemma sensor_match_case_counterexample :
  matches "IMU-STACK" None (Some imuLower) = true
  /\ matchesAsSpecified "IMU-STACK" None (Some imuLower) = false.
Proof. split; reflexivity. Qed.

(** ** Navigation parameters *)

Lemma paramValue_empty : paramValue (Some EmptyString) = None.
Proof. reflexivity. Qed.

Lemma setsOfParam_eq param :
  setsOfParam param =
  match paramValue param with
  | Some (Fin n) => if n <? 1 then 3 else Z.min 20 n
  | Some PosInf => 20
  | Some NegInf => 3
  | None => 3
  end.
Proof. destruct param as [[|c t]|]; reflexivity. Qed.

Lemma repsOfParam_eq param :
  repsOfParam param =
  match paramValue param with
  | Some (Fin n) => if n <? 1 then 10 else Z.min 50 n
  | Some PosInf => 50
  | Some NegInf => 10
  | None => 10
  end.
Proof. destruct param as [[|c t]|]; reflexivity. Qed.

(** C8, as the code has it: for every input the targets lie in [1,20]
    and [1,50]; an input that does not parse gives 3 and 10, and so does
    one that parses below 1 (the negative infinity of a literal too long
    for a double included); an input that parses to 1 or more is capped
    at 20 and 50 (the positive infinity included), which is then the
    clamp the specification names. *)
Theorem params_validated :
  forall param : option string,
    1 <= setsOfParam param <= 20
    /\ 1 <= repsOfParam param <= 50
    /\ (paramValue param = None ->
        setsOfParam param = 3 /\ repsOfParam param = 10)
    /\ (forall n : Z, paramValue param = Some (Fin n) -> n < 1 ->
        setsOfParam param = 3 /\ repsOfParam param = 10)
    /\ (forall n : Z, paramValue param = Some (Fin n) -> 1 <= n ->
        setsOfParam param = Z.min 20 n /\ repsOfParam param = Z.min 50 n
        /\ setsOfParam param = setsAsSpecified param
        /\ repsOfParam param = repsAsSpecified param)
    /\ (paramValue param = Some NegInf ->
        setsOfParam param = 3 /\ repsOfParam param = 10)
    /\ (paramValue param = Some PosInf ->
        setsOfParam param = 20 /\ repsOfParam param = 50
        /\ setsOfParam param = setsAsSpecified param
        /\ repsOfParam param = repsAsSpecified param).
Proof.
  intros param.
  rewrite setsOfParam_eq, repsOfParam_eq.
  unfold setsAsSpecified, repsAsSpecified, clamp.
  destruct (paramValue param) as [[n| |]|].
  - destruct (n <? 1) eqn:Hn; bool_to_prop; repeat split; intros;
      try discriminate;
      repeat match goal with H : Some _ = Some _ |- _ =>
        injection H as H; subst end;
      lia.
  - repeat split; intros; try discriminate; lia.
  - repeat split; intros; try discriminate; lia.
  - repeat split; intros; try discriminate; lia.
Qed.

Lemma params_validated_witness :
  setsOfParam (Some "35"%string) = 20 /\ repsOfParam (Some "35"%string) = 35
  /\ setsOfParam (Some "-4"%string) = 3 /\ setsOfParam (Some "abc"%string) = 3.
Proof.
  pose proof (params_validated (Some "35"%string))
    as (_ & _ & _ & _ & H35 & _).
  pose proof (params_validated (Some "-4"%string)) as (_ & _ & _ & Hneg & _).
  pose proof (params_validated (Some "abc"%string)) as (_ & _ & Hnan & _).
  specialize (H35 35 eq_refl ltac:(lia)).
  specialize (Hneg (-4) eq_refl ltac:(lia)).
  specialize (Hnan eq_refl).
  destruct H35 as (Hs & Hr & _), Hneg as (Hs' & _), Hnan as (Hs'' & _).
  repeat split; assumption.
Defined.

(** C8 as stated fails: "0" parses, the clamp of 0 into [1,20] is 1, and
    the screen uses 3 sets; likewise 10 reps where the clamp gives 1. *)
Lemma params_clamp_counterexample :
  paramValue (Some "0"%string) = Some (Fin 0)
  /\ setsOfParam (Some "0"%string) = 3
  /\ setsAsSpecified (Some "0"%string) = 1
  /\ repsOfParam (Some "0"%string) = 10
  /\ repsAsSpecified (Some "0"%string) = 1.
Proof. repeat split; reflexivity. Qed.

(** ** [incrementRep] *)

Lemma bumpRep_length p i l : length (bumpRep p i l) = length l.
Proof.
  unfold bumpRep. destruct (l !! i) as [n|]; [|reflexivity].
  destruct (n <? reps p); [apply length_insert|reflexivity].
Qed.

Lemma bumpRep_other p i j l : j <> i -> bumpRep p i l !! j = l !! j.
Proof.
  intros Hne. unfold bumpRep. destruct (l !! i) as [n|]; [|reflexivity].
  destruct (n <? reps p); [|reflexivity].
  apply list_lookup_insert_ne. congruence.
Qed.

Lemma bumpRep_at p i l n :
  l !! i = Some n ->
  bumpRep p i l !! i = Some (if n <? reps p then n + 1 else n).
Proof.
  intros Hl. unfold bumpRep. rewrite Hl.
  destruct (n <? reps p); [|exact Hl].
  apply list_lookup_insert_eq. eapply lookup_lt_Some; eauto.
Qed.

Lemma bumpRep_none p i l : l !! i = None -> bumpRep p i l = l.
Proof. intros Hl. unfold bumpRep. rewrite Hl. reflexivity. Qed.

(** The array [incrementRep] leaves in the cell. *)
Lemma incrementRep_elems p r s :
  elems (setRepsCompleted (state (incrementRep p r s))) =
  if r_isAllSetsComplete r then elems (setRepsCompleted (state s))
  else bumpRep p (r_currentSetIndex r) (elems (setRepsCompleted (state s))).
Proof.
  unfold incrementRep. destruct (r_isAllSetsComplete r); [reflexivity|].
  destruct (_ && _); reflexivity.
Qed.

Lemma incrementRep_index p r s :
  currentSetIndex (state (incrementRep p r s)) = currentSetIndex (state s).
Proof.
  unfold incrementRep. destruct (r_isAllSetsComplete r); [reflexivity|].
  destruct (_ && _); reflexivity.
Qed.

Lemma incrementRep_restTimes p r s :
  setRestTimes (state (incrementRep p r s)) = setRestTimes (state s).
Proof.
  unfold incrementRep. destruct (r_isAllSetsComplete r); [reflexivity|].
  destruct (_ && _); reflexivity.
Qed.

(** C10: [incrementRep] leaves [currentSetIndex], [setRestTimes] and
    every entry of [setRepsCompleted] other than the one of the current
    set as they were; that entry stays or, when it is below the target,
    grows by exactly 1; a call made when all sets are complete changes
    nothing at all. *)
Theorem incrementRep_frame :
  forall (p : Params) (r : Render) (s : Session),
    let s' := incrementRep p r s in
    let i := r_currentSetIndex r in
    currentSetIndex (state s') = currentSetIndex (state s)
    /\ setRestTimes (state s') = setRestTimes (state s)
    /\ length (elems (setRepsCompleted (state s')))
       = length (elems (setRepsCompleted (state s)))
    /\ (forall j, j <> i -> repsOfSet s' j = repsOfSet s j)
    /\ (repsOfSet s' i = repsOfSet s i
        \/ exists n, repsOfSet s i = Some n /\ n < reps p
                     /\ repsOfSet s' i = Some (n + 1))
    /\ (forall n, r_isAllSetsComplete r = false -> repsOfSet s i = Some n ->
        repsOfSet s' i = Some (if n <? reps p then n + 1 else n))
    /\ (r_isAllSetsComplete r = true -> s' = s)
    /\ (everyComplete p (elems (setRepsCompleted (state s))) = true ->
        incrementRep p (bind p s) s = s).
Proof.
  intros p r s s' i. subst s' i. unfold repsOfSet.
  rewrite incrementRep_index, incrementRep_restTimes, incrementRep_elems.
  repeat split.
  - destruct (r_isAllSetsComplete r); [reflexivity|apply bumpRep_length].
  - intros j Hj. destruct (r_isAllSetsComplete r); [reflexivity|].
    apply bumpRep_other, Hj.
  - destruct (r_isAllSetsComplete r); [left; reflexivity|].
    destruct (elems (setRepsCompleted (state s)) !! r_currentSetIndex r)
      as [n|] eqn:Hn.
    + rewrite (bumpRep_at _ _ _ _ Hn).
      destruct (n <? reps p) eqn:Hlt; [|left; reflexivity].
      right. exists n. bool_to_prop. auto.
    + rewrite bumpRep_none by exact Hn. left. exact Hn.
  - intros n Hr Hn. rewrite Hr. apply bumpRep_at, Hn.
  - intros Hr. unfold incrementRep. rewrite Hr. reflexivity.
  - intros Hall. unfold incrementRep, bind. simpl. rewrite Hall. reflexivity.
Qed.

(** ** The rep merge rule *)

Lemma iter_bumpRep_length p i k l :
  length (Nat.iter k (bumpRep p i) l) = length l.
Proof.
  induction k as [|k IH]; simpl; [reflexivity|].
  rewrite bumpRep_length. exact IH.
Qed.

Lemma iter_bumpRep_other p i j k l :
  j <> i -> Nat.iter k (bumpRep p i) l !! j = l !! j.
Proof.
  intros Hne. induction k as [|k IH]; simpl; [reflexivity|].
  rewrite bumpRep_other by exact Hne. exact IH.
Qed.

(** [k] calls of the updater add [k] to an entry, up to the target. *)
Lemma iter_bumpRep_at p i k l n :
  l !! i = Some n -> n <= reps p ->
  Nat.iter k (bumpRep p i) l !! i = Some (Z.min (n + Z.of_nat k) (reps p)).
Proof.
  intros Hl Hn. induction k as [|k IH].
  - simpl. rewrite Hl. f_equal. lia.
  - simpl. rewrite (bumpRep_at _ _ _ _ IH). f_equal.
    destruct (_ <? _) eqn:Hlt; bool_to_prop; lia.
Qed.

(** An entry above the target (which no run produces) is left alone. *)
Lemma iter_bumpRep_above p i k l n :
  l !! i = Some n -> reps p <= n ->
  Nat.iter k (bumpRep p i) l !! i = Some n.
Proof.
  intros Hl Hn. induction k as [|k IH]; simpl; [exact Hl|].
  rewrite (bumpRep_at _ _ _ _ IH).
  destruct (_ <? _) eqn:Hlt; bool_to_prop; [lia|reflexivity].
Qed.

Lemma iter_bumpRep_none p i k l :
  l !! i = None -> Nat.iter k (bumpRep p i) l = l.
Proof.
  intros Hl. induction k as [|k IH]; simpl; [reflexivity|].
  rewrite IH. apply bumpRep_none, Hl.
Qed.


Lemma incrementRepTimes_elems p r n s :
  elems (setRepsCompleted (state (incrementRepTimes p r n s))) =
  if r_isAllSetsComplete r then elems (setRepsCompleted (state s))
  else Nat.iter (Z.to_nat n) (bumpRep p (r_currentSetIndex r))
         (elems (setRepsCompleted (state s))).
Proof.
  unfold incrementRepTimes.
  induction (Z.to_nat n) as [|k IH]; simpl.
  - destruct (r_isAllSetsComplete r); reflexivity.
  - rewrite incrementRep_elems, IH.
    destruct (r_isAllSetsComplete r); reflexivity.
Qed.

Lemma incrementRepTimes_refs_other p r n s :
  currentRepsRef (refs (incrementRepTimes p r n s)) = currentRepsRef (refs s)
  /\ showRestDrawerRef (refs (incrementRepTimes p r n s))
     = showRestDrawerRef (refs s)
  /\ sessionStartTimeRef (refs (incrementRepTimes p r n s))
     = sessionStartTimeRef (refs s).
Proof.
  unfold incrementRepTimes.
  induction (Z.to_nat n) as [|k IH]; simpl; [auto|].
  unfold incrementRep at 1 3 5.
  destruct (r_isAllSetsComplete r); [exact IH|].
  destruct (_ && _); simpl; exact IH.
Qed.

(** On integers the operations on numbers are the usual ones. *)
Lemma num_ops_fin (x y k : Z) :
  sub (Fin x) (Fin y) = Some (Fin (x - y))
  /\ positive (Some (Fin x)) = (0 <? x)
  /\ isZero (Fin x) = (x =? 0)
  /\ minWith (Some (Fin x)) k = Z.min x k
  /\ finite (Some (Fin x)) = Some x.
Proof. repeat split. Qed.

(** A sample that passes the first-rep test passes the delta test: a
    positive number minus zero is positive. *)
Lemma first_rep_is_delta (v last : Num) :
  positive (Some v) = true -> isZero last = true ->
  positive (sub v last) = true.
Proof.
  unfold positive, isZero, sub.
  destruct v as [x| |], last as [y| |]; try discriminate; auto.
  intros Hx Hy. apply Z.eqb_eq in Hy. subst y. rewrite Z.sub_0_r. exact Hx.
Qed.

(** The array a sample leaves in the cell: [repsToAdd] calls of the
    updater under the guard, nothing otherwise. *)

(** The array a sample leaves in the cell: [repsToAdd] calls of the
    updater under the guard, nothing otherwise. *)
Lemma mergeSample_elems p r v s :
  elems (setRepsCompleted (state (mergeSample p r v s))) =
  if deltaGuard p v s && negb (r_isAllSetsComplete r) then
    Nat.iter
      (Z.to_nat (minWith (sub v (lastSensorRepRef (refs s)))
                         (reps p - currentRepsRef (refs s))))
      (bumpRep p (r_currentSetIndex r)) (elems (setRepsCompleted (state s)))
  else elems (setRepsCompleted (state s)).
Proof.
  unfold mergeSample, deltaGuard. simpl.
  destruct (positive (sub v (lastSensorRepRef (refs s)))) eqn:Hd; simpl.
  - destruct (currentRepsRef (refs s) <? reps p) eqn:Hc; simpl.
    + destruct (showRestDrawerRef (refs s)) eqn:Hr; simpl.
      * rewrite !andb_false_r. reflexivity.
      * rewrite incrementRepTimes_elems. simpl.
        destruct (r_isAllSetsComplete r); reflexivity.
    + rewrite !andb_false_r. reflexivity.
  - destruct (positive (Some v)) eqn:Hv; [|reflexivity].
    destruct (isZero (lastSensorRepRef (refs s))) eqn:Hz; [|reflexivity].
    rewrite (first_rep_is_delta _ _ Hv Hz) in Hd. discriminate.
Qed.

Lemma deltaGuard_excludes_first_rep p v s :
  deltaGuard p v s = false ->
  positive (Some v) && isZero (lastSensorRepRef (refs s))
  && (currentRepsRef (refs s) <? reps p)
  && negb (showRestDrawerRef (refs s)) = false.
Proof.
  unfold deltaGuard.
  destruct (positive (sub v (lastSensorRepRef (refs s)))) eqn:E1,
           (currentRepsRef (refs s) <? reps p) eqn:E2,
           (showRestDrawerRef (refs s)) eqn:E3;
    simpl; intros Hg; try discriminate;
    rewrite ?andb_false_r; try reflexivity.
  destruct (positive (Some v)) eqn:E4,
           (isZero (lastSensorRepRef (refs s))) eqn:E5;
    try reflexivity.
  rewrite (first_rep_is_delta _ _ E4 E5) in E1. discriminate.
Qed.

Lemma mergeSample_deltaOnly p r v s :
  mergeSample p r v s = mergeSampleDeltaOnly p r v s.
Proof.
  unfold mergeSample, mergeSampleDeltaOnly.
  change (deltaGuard p v (setSensorReps v s)) with (deltaGuard p v s).
  destruct (deltaGuard p v s) eqn:Hg.
  - unfold deltaGuard in Hg. simpl. simpl in Hg. rewrite Hg. reflexivity.
  - pose proof (deltaGuard_excludes_first_rep p v s Hg) as Hun.
    unfold deltaGuard in Hg.
    simpl. simpl in Hg. rewrite Hg. simpl in Hun. rewrite Hun.
    reflexivity.
Qed.

(** C9: the rule with two branches is the rule with the delta branch
    alone, because the guard of the first-rep branch cannot hold once the
    delta guard has failed; so the first sample [v] of a fresh set adds
    [min v (reps - currentReps)] reps, which is more than 1 whenever [v]
    and the room left both are; a first sample too long for a double
    fills the set.  For a finite sample [positive (Some v)] is [0 <? v]
    and [minWith (Some v) k] is [Z.min v k], as the last part spells
    out. *)
Theorem merge_is_delta_rule :
  forall (p : Params) (r : Render) (v : Num) (s : Session),
    mergeSample p r v s = mergeSampleDeltaOnly p r v s
    /\ (deltaGuard p v s = false ->
        positive (Some v) && isZero (lastSensorRepRef (refs s))
        && (currentRepsRef (refs s) <? reps p)
        && negb (showRestDrawerRef (refs s)) = false)
    /\ (forall cur,
          lastSensorRepRef (refs s) = 0 -> positive (Some v) = true ->
          showRestDrawerRef (refs s) = false ->
          currentRepsRef (refs s) = cur -> cur < reps p ->
          r_isAllSetsComplete r = false ->
          repsOfSet s (r_currentSetIndex r) = Some cur ->
          repsOfSet (mergeSample p r v s) (r_currentSetIndex r)
          = Some (cur + minWith (Some v) (reps p - cur)))
    /\ (forall x cur : Z,
          v = Fin x ->
          lastSensorRepRef (refs s) = 0 -> 0 < x ->
          showRestDrawerRef (refs s) = false ->
          currentRepsRef (refs s) = cur -> cur < reps p ->
          r_isAllSetsComplete r = false ->
          repsOfSet s (r_currentSetIndex r) = Some cur ->
          repsOfSet (mergeSample p r x s) (r_currentSetIndex r)
          = Some (cur + Z.min x (reps p - cur))).
Proof.
  intros p r v s.
  assert (Hfirst : forall cur,
            lastSensorRepRef (refs s) = 0 -> positive (Some v) = true ->
            showRestDrawerRef (refs s) = false ->
            currentRepsRef (refs s) = cur -> cur < reps p ->
            r_isAllSetsComplete r = false ->
            repsOfSet s (r_currentSetIndex r) = Some cur ->
            repsOfSet (mergeSample p r v s) (r_currentSetIndex r)
            = Some (cur + minWith (Some v) (reps p - cur))); [|repeat split].
  - intros cur Hlast Hv Hrest Hcur Hlt Hr Hentry.
    unfold repsOfSet in *. rewrite mergeSample_elems.
    unfold deltaGuard. rewrite Hlast, Hrest, Hcur, Hr.
    rewrite (first_rep_is_delta v (Fin 0) Hv eq_refl).
    replace (cur <? reps p) with true by (symmetry; apply Z.ltb_lt; lia).
    simpl andb. cbv iota.
    assert (Hmin : minWith (sub v (Fin 0)) (reps p - cur)
                   = minWith (Some v) (reps p - cur)).
    { unfold sub. destruct v as [x| |]; [rewrite Z.sub_0_r|..]; reflexivity. }
    rewrite Hmin.
    assert (Hroom : 0 <= minWith (Some v) (reps p - cur) <= reps p - cur).
    { unfold minWith, positive in *.
      destruct v as [x| |]; try discriminate; [|lia].
      apply Z.ltb_lt in Hv. lia. }
    rewrite (iter_bumpRep_at _ _ _ _ _ Hentry) by lia.
    f_equal. lia.
  - apply mergeSample_deltaOnly.
  - apply deltaGuard_excludes_first_rep.
  - exact Hfirst.
  - intros x cur -> Hlast Hx. apply Hfirst; [exact Hlast|].
    unfold positive. apply Z.ltb_lt. exact Hx.
Qed.

(** ** Parsing a payload *)

Lemma takeWhile_app f a rest :
  forallb f a = true -> stopsAt f rest -> takeWhile f (a ++ rest) = a.
Proof.
  intros Ha Hrest. induction a as [|c a IH]; simpl in *.
  - destruct rest as [|c rest]; simpl in *; [reflexivity|].
    rewrite Hrest. reflexivity.
  - apply andb_true_iff in Ha as [Hc Ha]. rewrite Hc, IH by exact Ha.
    reflexivity.
Qed.

Lemma dropWhile_app f a rest :
  forallb f a = true -> stopsAt f rest -> dropWhile f (a ++ rest) = rest.
Proof.
  intros Ha Hrest. induction a as [|c a IH]; simpl in *.
  - destruct rest as [|c rest]; simpl in *; [reflexivity|].
    rewrite Hrest. reflexivity.
  - apply andb_true_iff in Ha as [Hc Ha]. rewrite Hc. apply IH, Ha.
Qed.

Lemma takeWhile_dropWhile f s : takeWhile f s ++ dropWhile f s = s.
Proof.
  induction s as [|c s IH]; simpl; [reflexivity|].
  destruct (f c); simpl; [rewrite IH|]; reflexivity.
Qed.

Lemma takeWhile_all f s : forallb f (takeWhile f s) = true.
Proof.
  induction s as [|c s IH]; simpl; [reflexivity|].
  destruct (f c) eqn:Hc; simpl; [rewrite Hc; exact IH|reflexivity].
Qed.

Lemma dropWhile_stops f s : stopsAt f (dropWhile f s).
Proof.
  induction s as [|c s IH]; simpl; [exact I|].
  destruct (f c) eqn:Hc; simpl; [exact IH|exact Hc].
Qed.

Lemma takeWhile_none f s : forallb (fun c => negb (f c)) s = true ->
  takeWhile f (dropWhile (fun c => negb (f c)) s) = [].
Proof.
  induction s as [|c s IH]; simpl; [reflexivity|].
  intros H. apply andb_true_iff in H as [Hc H]. rewrite Hc. apply IH, H.
Qed.

Lemma digit_not_sep c : isDigit c = true -> isSep c = false.
Proof.
  unfold isDigit, isSep, isSpace. intros H. bool_to_prop.
  repeat (apply orb_false_iff; split); try apply andb_false_iff;
    rewrite ?Z.eqb_neq, ?Z.leb_gt; lia.
Qed.

Lemma digit_not_space c : isDigit c = true -> isSpace c = false.
Proof.
  intros H. apply digit_not_sep in H. unfold isSep in H.
  apply orb_false_iff in H as [_ H]. exact H.
Qed.

Lemma digits_stop_seps ds rest :
  ds <> [] -> forallb isDigit ds = true -> stopsAt isSep (ds ++ rest).
Proof.
  destruct ds as [|c ds]; [congruence|]. simpl. intros _ H.
  apply andb_true_iff in H as [H _]. apply digit_not_sep, H.
Qed.

Lemma digits_stop_nondigits ds rest :
  ds <> [] -> forallb isDigit ds = true ->
  stopsAt (fun c => negb (isDigit c)) (ds ++ rest).
Proof.
  destruct ds as [|c ds]; [congruence|]. simpl. intros _ H.
  apply andb_true_iff in H as [H _]. rewrite H. reflexivity.
Qed.

(** [parseInt] on a run of digits is its decimal value. *)
(** Below 2^53 the number value of an integer is the integer. *)
Lemma toNumber_exact n :
  n < 2 ^ 53 -> toNumber false n = Fin n.
Proof.
  intros Hn. unfold toNumber, nearestDouble.
  replace (n <? 2 ^ 53) with true by (symmetry; apply Z.ltb_lt; exact Hn).
  replace (2 ^ 1024 <=? n) with false; [reflexivity|].
  symmetry. apply Z.leb_gt. eapply Z.lt_trans; [exact Hn|].
  apply Z.pow_lt_mono_r; lia.
Qed.

(** From 2^53 on, the number value is a multiple of the unit in the
    last place, with a significand of 53 bits (or the next power of 2),
    at most half a unit away from the integer, and of even significand
    when exactly half a unit away. *)
Lemma nearestDouble_spec n :
  2 ^ 53 <= n ->
  let e := Z.log2 n - 52 in
  exists q,
    nearestDouble n = q * 2 ^ e /\ 2 ^ 52 <= q <= 2 ^ 53
    /\ 2 * Z.abs (nearestDouble n - n) <= 2 ^ e
    /\ (2 * Z.abs (nearestDouble n - n) = 2 ^ e -> Z.even q = true).
Proof.
  intros Hn e. unfold nearestDouble.
  replace (n <? 2 ^ 53) with false by (symmetry; apply Z.ltb_ge; exact Hn).
  fold e. cbv zeta.
  assert (He : 1 <= e).
  { pose proof (Z.log2_le_mono _ _ Hn) as H.
    rewrite Z.log2_pow2 in H by lia. unfold e. lia. }
  assert (Hlog : 2 ^ 52 * 2 ^ e <= n < 2 ^ 53 * 2 ^ e).
  { rewrite <- !Z.pow_add_r by lia.
    replace (52 + e) with (Z.log2 n) by (unfold e; lia).
    replace (53 + e) with (Z.succ (Z.log2 n)) by (unfold e; lia).
    apply Z.log2_spec. lia. }
  assert (Hhalf : 2 ^ e = 2 * 2 ^ (e - 1)).
  { replace e with (Z.succ (e - 1)) at 1 by lia.
    apply Z.pow_succ_r. lia. }
  assert (Hpos : 0 < 2 ^ (e - 1)) by (apply Z.pow_pos_nonneg; lia).
  pose proof (Z.div_mod n (2 ^ e) ltac:(lia)) as Hdm.
  pose proof (Z.mod_pos_bound n (2 ^ e) ltac:(lia)) as Hr.
  set (P := 2 ^ e) in *. set (h := 2 ^ (e - 1)) in *.
  set (q := n / P) in *. set (r := n mod P) in *.
  assert (Hq : 2 ^ 52 <= q < 2 ^ 53) by nia.
  destruct (h <? r) eqn:Hgt; cbn [orb andb].
  - apply Z.ltb_lt in Hgt. exists (q + 1).
    split; [reflexivity|]. split; [lia|]. split; [lia|].
    intros Heq. exfalso. lia.
  - apply Z.ltb_ge in Hgt. destruct (r =? h) eqn:Heq; cbn [orb andb].
    + apply Z.eqb_eq in Heq. destruct (Z.odd q) eqn:Hodd.
      * exists (q + 1).
        split; [reflexivity|]. split; [lia|]. split; [lia|].
        intros _. rewrite Z.even_add, <- Z.negb_odd, Hodd. reflexivity.
      * exists q.
        split; [reflexivity|]. split; [lia|]. split; [lia|].
        intros _. rewrite <- Z.negb_odd, Hodd. reflexivity.
    + apply Z.eqb_neq in Heq. exists q.
      split; [reflexivity|]. split; [lia|]. split; [lia|].
      intros Habs. exfalso. lia.
Qed.

Lemma toNumber_negative n b : toNumber b n <> NegInf \/ b = true.
Proof.
  destruct b; [right; reflexivity|left]. unfold toNumber.
  destruct (_ <=? _); discriminate.
Qed.

Lemma parseInt_digits ds :
  ds <> [] -> forallb isDigit ds = true ->
  parseInt ds = Some (toNumber false (decimal ds)).
Proof.
  intros Hne Hds. unfold parseInt.
  destruct ds as [|c ds]; [congruence|].
  pose proof Hds as Hall. simpl in Hds.
  apply andb_true_iff in Hds as [Hc Hds].
  simpl dropWhile. rewrite (digit_not_space _ Hc).
  assert (Hsign : (code c =? 45) = false /\ (code c =? 43) = false).
  { unfold isDigit in Hc. bool_to_prop. split; apply Z.eqb_neq; lia. }
  destruct Hsign as [-> ->].
  rewrite <- (app_nil_r (c :: ds)) at 1.
  rewrite takeWhile_app by (exact Hall || exact I).
  reflexivity.
Qed.

Lemma isLabel_inv lab :
  isLabel lab ->
  exists r e p s, lab = [r; e; p; s]
    /\ eqi r "R" = true /\ eqi e "E" = true
    /\ eqi p "P" = true /\ eqi s "S" = true.
Proof.
  unfold isLabel. simpl. intros H.
  destruct lab as [|r [|e [|p [|s [|x lab]]]]]; simpl in H; try discriminate.
  injection H as Hr He Hp Hs.
  exists r, e, p, s. unfold eqi.
  rewrite Hr, He, Hp, Hs. repeat split; reflexivity.
Qed.

(** The scanner at one position is the declarative pattern. *)
Lemma repsAt_spec s ds : repsAt s = Some ds <-> LabelledAt s ds.
Proof.
  split.
  - unfold repsAt.
    destruct s as [|r [|e [|p [|s' rest]]]]; try discriminate.
    destruct (eqi r "R" && eqi e "E" && eqi p "P" && eqi s' "S") eqn:Hl;
      [|discriminate].
    destruct (takeWhile isDigit (dropWhile isSep rest)) as [|d ds'] eqn:Hd;
      [discriminate|].
    intros H. injection H as <-.
    pose proof (takeWhile_dropWhile isSep rest) as Hsplit.
    pose proof (takeWhile_dropWhile isDigit (dropWhile isSep rest)) as Hsplit2.
    rewrite Hd in Hsplit2.
    replace (r :: e :: p :: s' :: rest) with
      ([r; e; p; s'] ++ takeWhile isSep rest ++ (d :: ds')
         ++ dropWhile isDigit (dropWhile isSep rest)).
    2:{ simpl. do 4 f_equal.
        transitivity (takeWhile isSep rest ++ dropWhile isSep rest);
          [f_equal; exact Hsplit2|exact Hsplit]. }
    constructor.
    + bool_to_prop. unfold isLabel, eqi in *. simpl.
      repeat match goal with H : Ascii.eqb _ _ = true |- _ =>
        apply Ascii.eqb_eq in H; rewrite H end.
      reflexivity.
    + apply takeWhile_all.
    + discriminate.
    + rewrite <- Hd. apply takeWhile_all.
    + apply (dropWhile_stops isDigit).
  - intros H. destruct H as [lab seps ds rest Hlab Hseps Hne Hds Hrest].
    apply isLabel_inv in Hlab as (r & e & p & s' & -> & Hr & He & Hp & Hs).
    simpl. rewrite Hr, He, Hp, Hs. simpl.
    rewrite (dropWhile_app isSep) by
      (exact Hseps || apply digits_stop_seps; assumption).
    rewrite (takeWhile_app isDigit) by (exact Hds || exact Hrest).
    destruct ds; [congruence|reflexivity].
Qed.

Lemma matchReps_cons c t :
  matchReps (c :: t) =
  match repsAt (c :: t) with
  | Some ds => Some ds
  | None => matchReps t
  end.
Proof. reflexivity. Qed.

Lemma matchReps_first k : forall t ds,
  repsAt (drop k t) = Some ds ->
  (forall j, (j < k)%nat -> repsAt (drop j t) = None) ->
  matchReps t = Some ds.
Proof.
  induction k as [|k IH]; intros t ds Hk Hbefore.
  - rewrite drop_0 in Hk. destruct t as [|c t]; [discriminate|].
    rewrite matchReps_cons, Hk. reflexivity.
  - destruct t as [|c t]; [discriminate|].
    pose proof (Hbefore 0%nat ltac:(lia)) as H0. rewrite drop_0 in H0.
    rewrite matchReps_cons, H0. apply IH; [exact Hk|].
    intros j Hj. apply (Hbefore (S j)). lia.
Qed.

Lemma matchReps_none t :
  (forall k, repsAt (drop k t) = None) -> matchReps t = None.
Proof.
  induction t as [|c t IH]; intros H.
  - reflexivity.
  - pose proof (H 0%nat) as H0. rewrite drop_0 in H0.
    rewrite matchReps_cons, H0. apply IH. intros k. apply (H (S k)).
Qed.

Lemma repsAt_digits s ds :
  repsAt s = Some ds -> ds <> [] /\ forallb isDigit ds = true.
Proof.
  intros H. apply repsAt_spec in H. destruct H. auto.
Qed.

Lemma matchReps_digits t ds :
  matchReps t = Some ds -> ds <> [] /\ forallb isDigit ds = true.
Proof.
  induction t as [|c t IH].
  - discriminate.
  - rewrite matchReps_cons. destruct (repsAt (c :: t)) as [ds'|] eqn:H.
    + intros Heq. injection Heq as <-. eapply repsAt_digits, H.
    + exact IH.
Qed.

Lemma matchNumber_digits t ds :
  matchNumber t = Some ds -> ds <> [] /\ forallb isDigit ds = true.
Proof.
  unfold matchNumber.
  destruct (takeWhile isDigit _) as [|d ds'] eqn:H; [discriminate|].
  intros Heq. injection Heq as <-. split; [discriminate|].
  rewrite <- H. apply takeWhile_all.
Qed.

(** A text without digits matches neither pattern. *)
Lemma no_digit_no_label s ds :
  forallb (fun c => negb (isDigit c)) s = true -> ~ LabelledAt s ds.
Proof.
  intros Hno H. destruct H as [lab seps ds rest _ _ Hne Hds _].
  rewrite !forallb_app in Hno. bool_to_prop.
  destruct ds as [|d ds]; [congruence|]. simpl in *. bool_to_prop.
  congruence.
Qed.

Lemma no_digit_drop k : forall s,
  forallb (fun c => negb (isDigit c)) s = true ->
  forallb (fun c => negb (isDigit c)) (drop k s) = true.
Proof.
  induction k as [|k IH]; intros s H; [rewrite drop_0; exact H|].
  destruct s as [|c s]; [reflexivity|]. simpl in *.
  apply andb_true_iff in H as [_ H]. apply IH, H.
Qed.

(** The fallback read parses as the notification does and keeps what
    is finite. *)
Lemma parsePoll_parseNotification text :
  parsePoll text = finite (parseNotification text).
Proof.
  unfold parsePoll, parseNotification.
  destruct (matchReps _) as [m|] eqn:Hm.
  - apply matchReps_digits in Hm as [Hne _].
    destruct m; [congruence|reflexivity].
  - simpl. destruct (matchNumber _) as [m|] eqn:Hn; [|reflexivity].
    apply matchNumber_digits in Hn as [Hne _].
    destruct m; [congruence|reflexivity].
Qed.

Lemma parsePoll_finite text v :
  parseNotification text = Some (Fin v) -> parsePoll text = Some v.
Proof. intros H. rewrite parsePoll_parseNotification, H. reflexivity. Qed.

Lemma parseNotification_no_digit text :
  forallb (fun c => negb (isDigit c)) (list_ascii_of_string text) = true ->
  parseNotification text = None.
Proof.
  intros Hno. unfold parseNotification.
  rewrite matchReps_none.
  - unfold matchNumber. rewrite takeWhile_none by exact Hno. reflexivity.
  - intros k. destruct (repsAt _) as [ds|] eqn:H; [|reflexivity].
    apply repsAt_spec in H. exfalso.
    eapply no_digit_no_label; [|exact H]. apply no_digit_drop, Hno.
Qed.

Lemma parseNotification_not_negative text :
  parseNotification text <> Some NegInf.
Proof.
  unfold parseNotification.
  destruct (matchReps _) as [m|] eqn:Hm.
  - apply matchReps_digits in Hm as [Hne Hds].
    rewrite parseInt_digits by assumption. intros [= H].
    destruct (toNumber_negative (decimal m) false); congruence.
  - destruct (matchNumber _) as [m|] eqn:Hn; [|discriminate].
    apply matchNumber_digits in Hn as [Hne Hds].
    rewrite parseInt_digits by assumption. intros [= H].
    destruct (toNumber_negative (decimal m) false); congruence.
Qed.

(** C5: the parsing rule.  (a) When the labelled pattern occurs, the
    value is the number of its leftmost occurrence; (b) when it occurs
    nowhere, the value is the first run of digits in the text; (c) a text
    without digits has no value.  The number of a run of digits is the
    one [parseInt] gives: the integer written when that is below 2^53,
    else the double nearest to it, which is the positive infinity for a
    run long enough.  The fallback read parses as the notification does
    and drops a value that is not finite, which the notification keeps.
    A payload without digits (such as "xyz") changes no state cell and
    no ref and triggers no save: it is recorded as the last text, and
    the error shown stays what it was. *)
Theorem parse_rule :
  forall text : string,
    let t := list_ascii_of_string text in
    let noDigit := forallb (fun c => negb (isDigit c)) in
    (forall pre s ds,
        t = pre ++ s -> LabelledAt s ds ->
        (forall k ds', (k < length pre)%nat -> ~ LabelledAt (drop k t) ds') ->
        parseNotification text = Some (toNumber false (decimal ds))
        /\ (decimal ds < 2 ^ 53 ->
            parseNotification text = Some (Fin (decimal ds))
            /\ parsePoll text = Some (decimal ds)))
    /\ (forall pre ds rest,
        (forall k ds', ~ LabelledAt (drop k t) ds') ->
        t = pre ++ ds ++ rest -> noDigit pre = true ->
        ds <> [] -> forallb isDigit ds = true -> notDigitNext rest ->
        parseNotification text = Some (toNumber false (decimal ds))
        /\ (decimal ds < 2 ^ 53 ->
            parseNotification text = Some (Fin (decimal ds))
            /\ parsePoll text = Some (decimal ds)))
    /\ (noDigit t = true ->
        parseNotification text = None /\ parsePoll text = None)
    /\ (forall v : Z,
          parsePoll text = Some v <-> parseNotification text = Some (Fin v))
    /\ (parseNotification text = Some PosInf -> parsePoll text = None)
    /\ parseNotification text <> Some NegInf
    /\ (noDigit t = true ->
        forall (p : Params) (r : Render) (now : Z) (s : Session),
          let s1 := onNotification p r now text s in
          let s2 := onPoll p r now text s in
          state s1 = state s /\ refs s1 = refs s
          /\ saveWorkoutCalls s1 = saveWorkoutCalls s
          /\ bleLastError (diag s1) = bleLastError (diag s)
          /\ bleLastText (diag s1) = Some text
          /\ state s2 = state s /\ refs s2 = refs s
          /\ saveWorkoutCalls s2 = saveWorkoutCalls s
          /\ bleLastError (diag s2) = bleLastError (diag s)
          /\ bleLastText (diag s2) = Some text).
Proof.
  intros text t noDigit. subst noDigit.
  assert (Hexact : forall ds,
            parseNotification text = Some (toNumber false (decimal ds)) ->
            parseNotification text = Some (toNumber false (decimal ds))
            /\ (decimal ds < 2 ^ 53 ->
                parseNotification text = Some (Fin (decimal ds))
                /\ parsePoll text = Some (decimal ds))).
  { intros ds H. split; [exact H|]. intros Hsmall.
    rewrite (toNumber_exact _ Hsmall) in H.
    split; [exact H|apply parsePoll_finite, H]. }
  repeat apply conj.
  - intros pre s ds Ht Hlab Hleft. apply Hexact.
    unfold parseNotification. fold t.
    rewrite (matchReps_first (length pre) t ds).
    + destruct Hlab. apply parseInt_digits; assumption.
    + rewrite Ht, drop_app_length. apply repsAt_spec, Hlab.
    + intros j Hj. destruct (repsAt (drop j t)) as [ds'|] eqn:H; [|reflexivity].
      apply repsAt_spec in H. exfalso. exact (Hleft j ds' Hj H).
  - intros pre ds rest Hnone Ht Hpre Hne Hds Hrest. apply Hexact.
    unfold parseNotification. fold t. rewrite matchReps_none.
    + unfold matchNumber. rewrite Ht.
      rewrite (dropWhile_app (fun c => negb (isDigit c))) by
        (exact Hpre || apply digits_stop_nondigits; assumption).
      rewrite (takeWhile_app isDigit) by (exact Hds || exact Hrest).
      destruct ds as [|d ds]; [congruence|].
      apply parseInt_digits; assumption.
    + intros k. destruct (repsAt (drop k t)) as [ds'|] eqn:H; [|reflexivity].
      apply repsAt_spec in H. exfalso. exact (Hnone k ds' H).
  - intros Hno. rewrite parsePoll_parseNotification.
    rewrite (parseNotification_no_digit text Hno). split; reflexivity.
  - intros v. rewrite parsePoll_parseNotification. unfold finite.
    destruct (parseNotification text) as [[w| |]|]; split; intros [=];
      subst; reflexivity.
  - intros H. rewrite parsePoll_parseNotification, H. reflexivity.
  - apply parseNotification_not_negative.
  - intros Hno p r now s. unfold onNotification, onPoll.
    rewrite parsePoll_parseNotification, parseNotification_no_digit by exact Hno.
    repeat split.
Qed.

Lemma parse_rule_witness :
  parseNotification "IMU REPS: 12;7" = Some (Fin 12)
  /\ parsePoll "IMU REPS: 12;7" = Some 12
  /\ parseNotification "set 3 of 4" = Some (Fin 3)
  /\ parseNotification "xyz" = None
  /\ parsePoll tooLong = None.
Proof.
  assert (Hlab : LabelledAt (list_ascii_of_string "REPS: 12;7")
                   (list_ascii_of_string "12"))
    by (apply repsAt_spec; reflexivity).
  assert (Hleft : forall k ds', (k < 4)%nat ->
            ~ LabelledAt (drop k (list_ascii_of_string "IMU REPS: 12;7")) ds').
  { intros k ds' Hk H. apply repsAt_spec in H.
    destruct k as [|[|[|[|k]]]]; try discriminate H. lia. }
  assert (Hnone : forall k ds',
            ~ LabelledAt (drop k (list_ascii_of_string "set 3 of 4")) ds').
  { intros k ds' H. apply repsAt_spec in H.
    do 11 (destruct k as [|k]; [discriminate H|]).
    discriminate H. }
  pose proof (proj2 (proj1 (parse_rule "IMU REPS: 12;7")
                       (list_ascii_of_string "IMU ")
                       (list_ascii_of_string "REPS: 12;7")
                       (list_ascii_of_string "12") eq_refl Hlab Hleft)
                eq_refl) as [H12 H12'].
  pose proof (proj2 (proj1 (proj2 (parse_rule "set 3 of 4"))
                       (list_ascii_of_string "set ")
                       (list_ascii_of_string "3")
                       (list_ascii_of_string " of 4") Hnone eq_refl eq_refl
                       ltac:(discriminate) eq_refl eq_refl)
                eq_refl) as [H3 _].
  pose proof (proj1 (proj1 (proj2 (proj2 (parse_rule "xyz"))) eq_refl))
    as Hxyz.
  pose proof (proj1 (proj2 (proj2 (proj2 (proj2 (parse_rule tooLong)))))
                ltac:(vm_compute; reflexivity)) as Hlong.
  repeat apply conj; assumption.
Defined.

(** Digits past what a double holds: 2^53 + 1 is read as 2^53, and a 1
    with 309 zeros as the positive infinity, which the fallback read
    drops. *)
Lemma parse_long_values :
  parseNotification "REPS:9007199254740993" = Some (Fin 9007199254740992)
  /\ parsePoll "REPS:9007199254740993" = Some 9007199254740992
  /\ parseNotification "REPS:9007199254740995" = Some (Fin 9007199254740996)
  /\ parseNotification tooLong = Some PosInf
  /\ parsePoll tooLong = None.
Proof. vm_compute. repeat split; reflexivity. Qed.

(** ** Sensor samples over time *)

Lemma grows_refl p l : grows p l l.
Proof. split; [reflexivity|]. intros j n H. exists n. split; [exact H|lia]. Qed.

Lemma grows_trans p l1 l2 l3 : grows p l1 l2 -> grows p l2 l3 -> grows p l1 l3.
Proof.
  intros [Hlen1 H1] [Hlen2 H2]. split; [congruence|].
  intros j n Hj. destruct (H1 j n Hj) as (n1 & Hj1 & ? & ?).
  destruct (H2 j n1 Hj1) as (n2 & Hj2 & ? & ?).
  exists n2. split; [exact Hj2|lia].
Qed.

Lemma bumpRep_grows p i l : grows p l (bumpRep p i l).
Proof.
  split; [apply bumpRep_length|]. intros j n Hj.
  destruct (decide (j = i)) as [->|Hne].
  - rewrite (bumpRep_at _ _ _ _ Hj). eexists. split; [reflexivity|].
    destruct (n <? reps p) eqn:Hlt; bool_to_prop; lia.
  - rewrite bumpRep_other by exact Hne. exists n. split; [exact Hj|lia].
Qed.

Lemma iter_bumpRep_grows p i k l : grows p l (Nat.iter k (bumpRep p i) l).
Proof.
  induction k as [|k IH]; simpl; [apply grows_refl|].
  eapply grows_trans; [exact IH|apply bumpRep_grows].
Qed.

Lemma render_state p now s : state (snd (render p now s)) = state s.
Proof.
  unfold render, saveEffect. simpl. destruct (depsChanged _ _); reflexivity.
Qed.

Lemma render_refs p now s :
  refs (snd (render p now s)) =
  {| lastSensorRepRef := lastSensorRepRef (refs s);
     currentRepsRef := r_currentReps (bind p s);
     showRestDrawerRef := showRestDrawer (state s);
     sessionStartTimeRef := sessionStartTimeRef (refs s) |}.
Proof.
  unfold render, saveEffect. simpl. destruct (depsChanged _ _); reflexivity.
Qed.


Lemma onNotification_array p r now text s :
  repsArray (onNotification p r now text s) =
  match parseNotification text with
  | Some v =>
      if deltaGuard p v s && negb (r_isAllSetsComplete r) then
        Nat.iter
          (Z.to_nat (minWith (sub v (lastSensorRepRef (refs s)))
                             (reps p - currentRepsRef (refs s))))
          (bumpRep p (r_currentSetIndex r)) (repsArray s)
      else repsArray s
  | None => repsArray s
  end.
Proof.
  unfold onNotification, repsArray.
  destruct (parseNotification text) as [v|]; [|reflexivity].
  rewrite mergeSample_elems. reflexivity.
Qed.

(** A fallback read merges a finite value as a notification would, and
    nothing else. *)
Lemma onPoll_array p r now text s :
  repsArray (onPoll p r now text s) =
  match parsePoll text with
  | Some v =>
      if deltaGuard p (Fin v) s && negb (r_isAllSetsComplete r) then
        Nat.iter
          (Z.to_nat (minWith (sub (Fin v) (lastSensorRepRef (refs s)))
                             (reps p - currentRepsRef (refs s))))
          (bumpRep p (r_currentSetIndex r)) (repsArray s)
      else repsArray s
  | None => repsArray s
  end.
Proof.
  unfold onPoll, repsArray.
  destruct (parsePoll text) as [v|]; [|reflexivity].
  rewrite mergeSample_elems. reflexivity.
Qed.

Lemma onNotification_grows p r now text s :
  grows p (repsArray s) (repsArray (onNotification p r now text s)).
Proof.
  rewrite onNotification_array.
  destruct (parseNotification text) as [v|]; [|apply grows_refl].
  destruct (_ && _); [apply iter_bumpRep_grows|apply grows_refl].
Qed.

Lemma onPoll_grows p r now text s :
  grows p (repsArray s) (repsArray (onPoll p r now text s)).
Proof.
  rewrite onPoll_array.
  destruct (parsePoll text) as [v|]; [|apply grows_refl].
  destruct (_ && _); [apply iter_bumpRep_grows|apply grows_refl].
Qed.

Lemma incrementRep_grows p r s :
  grows p (repsArray s) (repsArray (incrementRep p r s)).
Proof.
  unfold repsArray. rewrite incrementRep_elems.
  destruct (r_isAllSetsComplete r); [apply grows_refl|apply bumpRep_grows].
Qed.

Lemma step_rendered p now x :
  step p (Rendered now) x =
  {| session := snd (render p now (session x));
     screen := bind p (session x);
     monitor := monitor x |}.
Proof. reflexivity. Qed.

Lemma session_rendered p now x :
  session (step p (Rendered now) x) = snd (render p now (session x)).
Proof. reflexivity. Qed.

Lemma step_grows p e x :
  grows p (repsArray (session x)) (repsArray (session (step p e x))).
Proof.
  destruct e as [now| |now text|now text| | |u];
    [rewrite session_rendered|simpl..].
  - unfold repsArray. rewrite render_state. apply grows_refl.
  - apply grows_refl.
  - apply onNotification_grows.
  - apply onPoll_grows.
  - apply incrementRep_grows.
  - destruct (r_showRestDrawer (screen x)); apply grows_refl.
  - destruct (userId (state (session x))); [apply grows_refl|].
    destruct u; apply grows_refl.
Qed.





Lemma minWith_positive x k :
  positive x = true -> 0 < k -> 0 < minWith x k <= k.
Proof.
  unfold positive, minWith. destruct x as [[d| |]|]; try discriminate.
  - intros Hd Hk. apply Z.ltb_lt in Hd. lia.
  - intros _ Hk. lia.
Qed.





(** ** A counter that climbs by one *)

(** What one call of [incrementRep] does to a session whose first set is
    the one the closure counts. *)
Lemma incrementRep_head p r s e tl :
  r_currentSetIndex r = 0%nat ->
  r_currentReps r <= e -> e <= reps p ->
  repsArray s = e :: tl ->
  (showRestDrawer (state s) = true -> e = reps p) ->
  let s' := incrementRep p r s in
  let e' := if r_isAllSetsComplete r then e else Z.min (e + 1) (reps p) in
  repsArray s' = e' :: tl
  /\ (showRestDrawer (state s') = true -> e' = reps p)
  /\ currentSetIndex (state s') = currentSetIndex (state s)
  /\ currentRepsRef (refs s') = currentRepsRef (refs s)
  /\ showRestDrawerRef (refs s') = showRestDrawerRef (refs s).
Proof.
  intros Hidx Hcur He Harr Hrest. unfold repsArray in *. simpl.
  rewrite incrementRep_elems, incrementRep_index.
  unfold incrementRep. rewrite Hidx, Harr.
  destruct (r_isAllSetsComplete r); [auto|].
  assert (Hb : bumpRep p 0 (e :: tl) = Z.min (e + 1) (reps p) :: tl).
  { unfold bumpRep. simpl. destruct (e <? reps p) eqn:Hlt; bool_to_prop.
    - simpl. f_equal. lia.
    - f_equal. lia. }
  rewrite Hb.
  destruct ((reps p <=? r_currentReps r + 1) && _) eqn:Htrig; simpl.
  - bool_to_prop. repeat split; auto. all: try (intros _; lia).
  - repeat split; auto. intros H. specialize (Hrest H). lia.
Qed.

Lemma incrementRepTimes_head p r s e tl k :
  r_currentSetIndex r = 0%nat ->
  r_currentReps r <= e -> e <= reps p ->
  repsArray s = e :: tl ->
  (showRestDrawer (state s) = true -> e = reps p) ->
  let s' := Nat.iter k (incrementRep p r) s in
  let e' := if r_isAllSetsComplete r then e
            else Z.min (e + Z.of_nat k) (reps p) in
  repsArray s' = e' :: tl
  /\ (showRestDrawer (state s') = true -> e' = reps p)
  /\ currentSetIndex (state s') = currentSetIndex (state s)
  /\ currentRepsRef (refs s') = currentRepsRef (refs s)
  /\ showRestDrawerRef (refs s') = showRestDrawerRef (refs s).
Proof.
  intros Hidx Hcur He Harr Hrest. induction k as [|k IH].
  - simpl. replace (Z.min (e + Z.of_nat 0) (reps p)) with e by lia.
    destruct (r_isAllSetsComplete r); repeat split; auto.
  - destruct IH as (IHarr & IHrest & IHidx & IHcur & IHref).
    change (Nat.iter (S k) (incrementRep p r) s)
      with (incrementRep p r (Nat.iter k (incrementRep p r) s)).
    set (sk := Nat.iter k (incrementRep p r) s) in *.
    set (ek := if r_isAllSetsComplete r then e
               else Z.min (e + Z.of_nat k) (reps p)) in *.
    assert (Hek : r_currentReps r <= ek /\ ek <= reps p).
    { unfold ek. destruct (r_isAllSetsComplete r); lia. }
    destruct (incrementRep_head p r sk ek tl Hidx (proj1 Hek) (proj2 Hek)
                IHarr IHrest) as (Harr' & Hrest' & Hidx' & Hcur' & Href').
    cbv zeta. rewrite Harr', Hidx', Hcur', Href', IHidx, IHcur, IHref.
    assert (Heq : (if r_isAllSetsComplete r then ek
                   else Z.min (ek + 1) (reps p))
                  = (if r_isAllSetsComplete r then e
                     else Z.min (e + Z.of_nat (S k)) (reps p))).
    { unfold ek. destruct (r_isAllSetsComplete r); lia. }
    rewrite <- Heq. repeat split; auto.
Qed.

Ltac settle :=
  try assumption; try lia;
  try (let Hq := fresh "Hq" in
       intros Hq;
       repeat match goal with
       | Hi : ?a = true -> _, Hj : ?a = true |- _ => specialize (Hi Hj)
       end; lia);
  try (left; lia); try (right; lia);
  try (right; split; [lia|reflexivity]).

Lemma mergeSample_tracking p x v w s1 :
  tracking p v x ->
  state s1 = state (session x) -> refs s1 = refs (session x) ->
  w = v \/ w = v + 1 ->
  tracking p w {| session := mergeSample p (monitor x) w s1;
                  screen := screen x; monitor := monitor x |}.
Proof.
  intros (Hidx & Hsidx & Hmidx & e & Harr & He & Hcur & Hscr & Hmon
          & Hrest & Hrestref & Hsall & Hmall & Hlast) Hst Hrf Hw.
  rewrite mergeSample_deltaOnly. unfold mergeSampleDeltaOnly.
  set (s0 := setSensorReps w s1).
  assert (Hrf0 : refs s0 = refs (session x)) by exact Hrf.
  assert (Harr0 : repsArray s0 = e :: replicate (Z.to_nat (sets p) - 1) 0).
  { unfold repsArray, s0. simpl. rewrite Hst. exact Harr. }
  assert (Hrest0 : showRestDrawer (state s0) = true -> e = reps p).
  { unfold s0. simpl. rewrite Hst. exact Hrest. }
  assert (Hidx0 : currentSetIndex (state s0) = 0%nat).
  { unfold s0. simpl. rewrite Hst. exact Hidx. }
  destruct (deltaGuard p w s0) eqn:Hg.
  - unfold deltaGuard in Hg. rewrite Hrf0 in *.
    apply andb_true_iff in Hg as [Hg Hnr].
    apply andb_true_iff in Hg as [Hpos Hclt].
    apply Z.ltb_lt in Hclt. apply negb_true_iff in Hnr.
    pose proof (minWith_positive _
                  (reps p - currentRepsRef (refs (session x))) Hpos
                  ltac:(lia)) as Hmin.
    unfold incrementRepTimes.
    set (k := Z.to_nat _).
    destruct (incrementRepTimes_head p (monitor x) s0 e _ k
                Hmidx Hmon He Harr0 Hrest0)
      as (Harr' & Hrest' & Hidx' & Hcur' & Href').
    unfold tracking. simpl. unfold repsArray in *. simpl.
    rewrite Hidx', Hidx0, Hcur', Href', Hrf0.
    repeat split; try assumption.
    eexists. split; [exact Harr'|].
    assert (Hk : (1 <= k)%nat) by (unfold k; lia).
    destruct (r_isAllSetsComplete (monitor x)) eqn:Hc.
    + specialize (Hmall eq_refl). repeat split; settle.
    + destruct (Z.eq_dec e (reps p)) as [Heq|Hne].
      * repeat split; settle.
      * destruct Hlast as [|[Hev Hlv]]; [contradiction|].
        assert (Hgt : v < w).
        { rewrite Hlv in Hpos. unfold positive, sub in Hpos.
          apply Z.ltb_lt in Hpos. lia. }
        assert (k = 1%nat).
        { unfold k. rewrite Hlv. unfold minWith, sub. lia. }
        repeat split; settle.
  - unfold tracking. cbn [session screen monitor].
    rewrite Hidx0, Hrf0, Harr0.
    repeat split; try assumption.
    exists e. repeat split; try assumption.
    destruct Hlast as [|[Hev Hlv]]; [left; assumption|].
    destruct (Z.eq_dec e (reps p)) as [Heq|Hne]; [left; assumption|].
    right. destruct Hw as [->| ->]; [auto|].
    exfalso. unfold deltaGuard in Hg. rewrite Hrf0, Hlv in Hg.
    destruct (showRestDrawerRef (refs (session x))) eqn:Hr;
      [specialize (Hrestref eq_refl); contradiction|].
    rewrite andb_true_r in Hg. unfold positive, sub in Hg.
    apply andb_false_iff in Hg as [Hg|Hg];
      [apply Z.ltb_ge in Hg|apply Z.ltb_ge in Hg]; lia.
Qed.

Lemma render_tracking p v now x :
  tracking p v x -> tracking p v (step p (Rendered now) x).
Proof.
  intros (Hidx & Hsidx & Hmidx & e & Harr & He & Hcur & Hscr & Hmon
          & Hrest & Hrestref & Hsall & Hmall & Hlast).
  rewrite step_rendered. unfold tracking, repsArray in *.
  cbn [session screen monitor].
  rewrite render_state, render_refs. simpl.
  rewrite Hidx, Harr. unfold currentRepsOf. simpl.
  repeat split; try assumption.
  exists e. repeat split; try assumption; lia.
Qed.

Lemma run_tracking p evs : forall x v v',
  tracking p v x ->
  forallb isSensorEvent evs = true ->
  climb v (sampleTexts evs) = Some v' ->
  tracking p v' (run p evs x).
Proof.
  induction evs as [|ev evs IH]; intros x v v' Hx Hevs Hclimb.
  - simpl in Hclimb. injection Hclimb as <-. exact Hx.
  - simpl in Hevs. apply andb_true_iff in Hevs as [Hev Hevs].
    change (run p (ev :: evs) x) with (run p evs (step p ev x)).
    destruct ev as [now| |now text|now text| | |u]; try discriminate.
    + apply (IH _ v); [apply render_tracking, Hx|exact Hevs|exact Hclimb].
    + apply (IH _ v); [|exact Hevs|exact Hclimb].
      destruct Hx as (Hidx & Hsidx & Hmidx & e & Harr & He & Hcur & Hscr
                      & Hmon & Hrest & Hrestref & Hsall & Hmall & Hlast).
      unfold tracking. simpl. repeat split; try assumption.
      exists e. repeat split; assumption.
    + unfold sampleTexts in Hclimb. simpl in Hclimb.
      destruct (parseNotification text) as [[w| |]|] eqn:Hp;
        try discriminate.
      destruct ((w =? v) || (w =? v + 1)) eqn:Hw; [|discriminate].
      apply (IH _ w); [|exact Hevs|exact Hclimb].
      simpl. unfold onNotification. rewrite Hp.
      apply (mergeSample_tracking p x v); auto.
      bool_to_prop. destruct Hw; bool_to_prop; auto.
    + unfold sampleTexts in Hclimb. simpl in Hclimb.
      destruct (parseNotification text) as [[w| |]|] eqn:Hp;
        try discriminate.
      destruct ((w =? v) || (w =? v + 1)) eqn:Hw; [|discriminate].
      apply (IH _ w); [|exact Hevs|exact Hclimb].
      simpl. unfold onPoll. rewrite (parsePoll_finite _ _ Hp).
      apply (mergeSample_tracking p x v); auto.
      bool_to_prop. destruct Hw; bool_to_prop; auto.
Qed.

Lemma start_tracking p now : 1 <= sets p -> 0 <= reps p -> tracking p 0 (start p now).
Proof.
  intros Hsets Hreps. unfold start.
  change (render p now (mount p now))
    with (bind p (mount p now), snd (render p now (mount p now))).
  unfold tracking, repsArray. cbn [session screen monitor].
  rewrite render_state, render_refs. simpl.
  destruct (Z.to_nat (sets p)) as [|n] eqn:Hn; [lia|].
  simpl. rewrite Nat.sub_0_r. unfold currentRepsOf. simpl.
  repeat split.
  exists 0. repeat split; try lia; try discriminate.
  right. split; reflexivity.
Qed.

(** C4: with a target of 10 reps, a session just started, and the
    payloads 0, 1, ..., 10 delivered one by one (by notification or by
    fallback read, with renders and re-subscriptions falling anywhere in
    between), the first set ends with 10 completed reps; the payloads 11
    and 12 delivered after them change no entry of the array. *)
Theorem counter_to_ten :
  forall (p : Params) (now : Z) (evs evs' : list Event),
    reps p = 10 -> 1 <= sets p ->
    forallb isSensorEvent evs = true -> sampleTexts evs = zeroToTen ->
    forallb isSensorEvent evs' = true -> sampleTexts evs' = elevenTwelve ->
    repsOfSet (session (run p evs (start p now))) 0 = Some 10
    /\ repsArray (session (run p (evs ++ evs') (start p now)))
       = repsArray (session (run p evs (start p now))).
Proof.
  intros p now evs evs' Hreps Hsets Hevs Htexts Hevs' Htexts'.
  assert (H10 : tracking p 10 (run p evs (start p now))).
  { apply (run_tracking p evs _ 0); [|exact Hevs|rewrite Htexts; reflexivity].
    apply start_tracking; lia. }
  assert (H12 : tracking p 12 (run p (evs ++ evs') (start p now))).
  { unfold run. rewrite fold_left_app.
    apply (run_tracking p evs' _ 10);
      [exact H10|exact Hevs'|rewrite Htexts'; reflexivity]. }
  destruct H10 as (_ & _ & _ & e & Harr & He & _ & _ & _ & _ & _ & _ & _ & Hlast).
  destruct H12 as (_ & _ & _ & e' & Harr' & He' & _ & _ & _ & _ & _ & _ & _ & Hlast').
  assert (e = 10) by lia. assert (e' = 10) by lia. subst e e'.
  split.
  - unfold repsOfSet. fold (repsArray (session (run p evs (start p now)))).
    rewrite Harr. reflexivity.
  - rewrite Harr, Harr'. reflexivity.
Qed.

(** ** Saving the workout *)

Lemma everyComplete_lookup p l i n :
  everyComplete p l = true -> l !! i = Some n -> reps p <= n.
Proof.
  unfold everyComplete. revert i.
  induction l as [|a l IH]; intros i Hall Hi; [discriminate|].
  simpl in Hall. apply andb_true_iff in Hall as [Ha Hall].
  destruct i as [|i]; simpl in Hi.
  - injection Hi as <-. bool_to_prop. exact Ha.
  - eapply IH; eauto.
Qed.

Lemma bind_congr p s s0 :
  currentSetIndex (state s) = currentSetIndex (state s0) ->
  setRepsCompleted (state s) = setRepsCompleted (state s0) ->
  setRestTimes (state s) = setRestTimes (state s0) ->
  showRestDrawer (state s) = showRestDrawer (state s0) ->
  restTimer (state s) = restTimer (state s0) ->
  userId (state s) = userId (state s0) ->
  bind p s = bind p s0.
Proof.
  intros H1 H2 H3 H4 H5 H6. unfold bind.
  rewrite H1, H2, H3, H4, H5, H6. reflexivity.
Qed.

Lemma depsChanged_same d : depsChanged (Some d) d = false.
Proof. unfold depsChanged. rewrite bool_decide_eq_true_2; reflexivity. Qed.

Lemma mergeSample_full p r v s :
  reps p <= currentRepsRef (refs s) -> mergeSample p r v s = setSensorReps v s.
Proof.
  intros Hfull. rewrite mergeSample_deltaOnly. unfold mergeSampleDeltaOnly.
  unfold deltaGuard. simpl.
  replace (currentRepsRef (refs s) <? reps p) with false
    by (symmetry; apply Z.ltb_ge; exact Hfull).
  rewrite andb_false_r. reflexivity.
Qed.

Lemma step_settled p s0 calls e x :
  showRestDrawer (state s0) = false ->
  everyComplete p (repsArray s0) = true ->
  (currentSetIndex (state s0) < length (repsArray s0))%nat ->
  is_Some (userId (state s0)) ->
  settled p s0 calls x -> settled p s0 calls (step p e x).
Proof.
  intros Hrest0 Hall Hidx Huser
    (H1 & H2 & H3 & H4 & H5 & H6 & H7 & H8 & H9 & H10 & H11).
  destruct e as [now| |now text|now text| | |u].
  - rewrite step_rendered.
    assert (Hb : bind p (session x) = bind p s0)
      by (apply bind_congr; congruence).
    unfold settled. cbn [session screen monitor].
    rewrite render_state, render_refs, Hb.
    apply lookup_lt_is_Some_2 in Hidx as [n Hn].
    pose proof (everyComplete_lookup _ _ _ _ Hall Hn) as Hge.
    assert (Hcur : r_currentReps (bind p s0) = n).
    { unfold bind, currentRepsOf. simpl. unfold repsArray in Hn.
      rewrite Hn. reflexivity. }
    assert (Hsave : saveEffect p now (bind p s0)
                      (syncRefs (bind p s0) (session x))
                    = syncRefs (bind p s0) (session x)).
    { unfold saveEffect. simpl. rewrite H10, depsChanged_same. reflexivity. }
    unfold render. rewrite Hb. cbn [snd]. rewrite Hsave. simpl.
    repeat split; try assumption.
    change (reps p <= r_currentReps (bind p s0)). lia.
  - unfold settled in *. simpl. repeat split; assumption.
  - unfold settled. cbn [step session screen monitor]. unfold onNotification.
    destruct (parseNotification text) as [v|].
    + rewrite mergeSample_full by exact H7. simpl. repeat split; assumption.
    + simpl. repeat split; assumption.
  - unfold settled. cbn [step session screen monitor]. unfold onPoll.
    destruct (parsePoll text) as [v|].
    + rewrite mergeSample_full by exact H7. simpl. repeat split; assumption.
    + simpl. repeat split; assumption.
  - unfold settled. cbn [step session screen monitor].
    unfold incrementRep. rewrite H8. repeat split; auto.
  - unfold settled. cbn [step]. rewrite H9. repeat split; auto.
  - unfold settled. cbn [step]. destruct Huser as [u0 Hu0].
    rewrite H6, Hu0. repeat split; congruence.
Qed.

Lemma run_settled p s0 calls evs : forall x,
  showRestDrawer (state s0) = false ->
  everyComplete p (repsArray s0) = true ->
  (currentSetIndex (state s0) < length (repsArray s0))%nat ->
  is_Some (userId (state s0)) ->
  settled p s0 calls x -> settled p s0 calls (run p evs x).
Proof.
  induction evs as [|e evs IH]; intros x Hrest Hall Hidx Huser Hx;
    [exact Hx|].
  change (run p (e :: evs) x) with (run p evs (step p e x)).
  apply IH; try assumption. apply step_settled; assumption.
Qed.

(** What [incrementRep] leaves alone. *)
Lemma incrementRep_others p r s :
  let s' := incrementRep p r s in
  restTimer (state s') = restTimer (state s)
  /\ userId (state s') = userId (state s)
  /\ saveWorkoutCalls s' = saveWorkoutCalls s
  /\ saveEffectDeps s' = saveEffectDeps s.
Proof.
  unfold incrementRep. destruct (r_isAllSetsComplete r); [tauto|].
  destruct (_ && _); simpl; tauto.
Qed.

Lemma incrementRepTimes_others p r n s :
  userId (state (incrementRepTimes p r n s)) = userId (state s)
  /\ saveWorkoutCalls (incrementRepTimes p r n s) = saveWorkoutCalls s
  /\ saveEffectDeps (incrementRepTimes p r n s) = saveEffectDeps s.
Proof.
  unfold incrementRepTimes.
  induction (Z.to_nat n) as [|k IH]; [repeat split; reflexivity|].
  change (Nat.iter (S k) (incrementRep p r) s)
    with (incrementRep p r (Nat.iter k (incrementRep p r) s)).
  destruct (incrementRep_others p r (Nat.iter k (incrementRep p r) s))
    as (_ & Hu & Hc & Hd).
  rewrite Hu, Hc, Hd. exact IH.
Qed.

(** A sample touches neither the user id nor the log of saves nor what
    the save effect has seen. *)
Lemma mergeSample_others p r v s :
  userId (state (mergeSample p r v s)) = userId (state s)
  /\ saveWorkoutCalls (mergeSample p r v s) = saveWorkoutCalls s
  /\ saveEffectDeps (mergeSample p r v s) = saveEffectDeps s.
Proof.
  rewrite mergeSample_deltaOnly. unfold mergeSampleDeltaOnly.
  destruct (deltaGuard _ _ _); [|repeat split; reflexivity].
  exact (incrementRepTimes_others p r
           (minWith (sub v (lastSensorRepRef (refs (setSensorReps v s))))
              (reps p - currentRepsRef (refs (setSensorReps v s))))
           (setSensorReps v s)).
Qed.

(** Between commits the save effect is at rest: an event other than a
    render leaves what it has seen and the log as they are, and a user
    id that is known stays known. *)
Lemma step_between_commits p e x :
  (forall now, e <> Rendered now) ->
  saveEffectDeps (session (step p e x)) = saveEffectDeps (session x)
  /\ saveWorkoutCalls (session (step p e x)) = saveWorkoutCalls (session x)
  /\ (knownUser (userId (state (session x))) = true ->
      knownUser (userId (state (session (step p e x)))) = true).
Proof.
  intros He.
  destruct e as [now| |now text|now text| | |u].
  - destruct (He now eq_refl).
  - repeat split. auto.
  - cbn [step session]. unfold onNotification.
    destruct (parseNotification text) as [v|]; [|repeat split; auto].
    destruct (mergeSample_others p (monitor x) v
                (withDiag (fun d =>
                   {| bleLastText := Some text;
                      bleNotifyCount := bleNotifyCount d + 1;
                      bleLastAtMs := Some now;
                      bleLastError := bleLastError d |}) (session x)))
      as (H1 & H2 & H3).
    rewrite H1, H2, H3. repeat split. auto.
  - cbn [step session]. unfold onPoll.
    destruct (parsePoll text) as [v|]; [|repeat split; auto].
    destruct (mergeSample_others p (monitor x) (Fin v)
                (withDiag (fun d =>
                   {| bleLastText := Some text;
                      bleNotifyCount := bleNotifyCount d;
                      bleLastAtMs := Some now;
                      bleLastError := bleLastError d |}) (session x)))
      as (H1 & H2 & H3).
    rewrite H1, H2, H3. repeat split. auto.
  - cbn [step session].
    destruct (incrementRep_others p (screen x) (session x))
      as (_ & H1 & H2 & H3).
    rewrite H1, H2, H3. repeat split. auto.
  - unfold step. destruct (r_showRestDrawer (screen x)); repeat split; auto.
  - unfold step. destruct (userId (state (session x))) as [u0|] eqn:Hu.
    + rewrite Hu. repeat split. auto.
    + destruct u as [|c u]; [rewrite Hu; repeat split; auto|].
      repeat split.
Qed.

Lemma everyComplete_grows p l l' :
  grows p l l' -> everyComplete p l = true -> everyComplete p l' = true.
Proof.
  intros [Hlen Hg] Hall. unfold everyComplete.
  apply forallb_forall. intros n' Hin.
  apply list_elem_of_In, list_elem_of_lookup in Hin as [j Hj].
  assert (Hlt : (j < length l)%nat)
    by (rewrite <- Hlen; eapply lookup_lt_Some; exact Hj).
  apply lookup_lt_is_Some_2 in Hlt as [n Hn].
  destruct (Hg j n Hn) as (n'' & Hj' & Hle & _).
  rewrite Hj in Hj'. injection Hj' as <-.
  pose proof (everyComplete_lookup p l j n Hall Hn).
  apply Z.leb_le. lia.
Qed.

(** A commit that sees a set short of its target, or no user id, calls
    nothing. *)
Lemma render_without_both p now s :
  everyComplete p (repsArray s) = false \/ knownUser (userId (state s)) = false ->
  saveWorkoutCalls (snd (render p now s)) = saveWorkoutCalls s.
Proof.
  intros H. unfold render, saveEffect. cbn [snd].
  destruct (depsChanged _ _); [|reflexivity].
  simpl. fold (repsArray s).
  destruct (userId (state s)) as [[|c t]|]; try reflexivity.
  destruct H as [->|H]; [reflexivity|discriminate H].
Qed.

(** Until the user is known no event saves. *)
Lemma step_without_user p e x :
  userId (state (session x)) = None -> resolvesUser e = false ->
  userId (state (session (step p e x))) = None
  /\ saveWorkoutCalls (session (step p e x)) = saveWorkoutCalls (session x).
Proof.
  intros Hu He.
  destruct e as [now| |now text|now text| | |[|c u]]; try discriminate He.
  - rewrite session_rendered, render_state. split; [exact Hu|].
    apply render_without_both. right. rewrite Hu. reflexivity.
  - split; [exact Hu|reflexivity].
  - cbn [step session]. unfold onNotification.
    destruct (parseNotification text) as [v|].
    + destruct (mergeSample_others p (monitor x) v
                  (withDiag (fun d =>
                     {| bleLastText := Some text;
                        bleNotifyCount := bleNotifyCount d + 1;
                        bleLastAtMs := Some now;
                        bleLastError := bleLastError d |}) (session x)))
        as (H1 & H2 & _).
      rewrite H1, H2. split; [exact Hu|reflexivity].
    + split; [exact Hu|reflexivity].
  - cbn [step session]. unfold onPoll.
    destruct (parsePoll text) as [v|].
    + destruct (mergeSample_others p (monitor x) (Fin v)
                  (withDiag (fun d =>
                     {| bleLastText := Some text;
                        bleNotifyCount := bleNotifyCount d;
                        bleLastAtMs := Some now;
                        bleLastError := bleLastError d |}) (session x)))
        as (H1 & H2 & _).
      rewrite H1, H2. split; [exact Hu|reflexivity].
    + split; [exact Hu|reflexivity].
  - cbn [step session].
    destruct (incrementRep_others p (screen x) (session x))
      as (_ & H1 & H2 & _).
    rewrite H1, H2. split; [exact Hu|reflexivity].
  - unfold step. destruct (r_showRestDrawer (screen x));
      split; try exact Hu; reflexivity.
  - unfold step. rewrite Hu. split; [exact Hu|reflexivity].
Qed.

Lemma run_without_user p evs : forall x,
  userId (state (session x)) = None ->
  forallb (fun e => negb (resolvesUser e)) evs = true ->
  userId (state (session (run p evs x))) = None
  /\ saveWorkoutCalls (session (run p evs x)) = saveWorkoutCalls (session x).
Proof.
  induction evs as [|e evs IH]; intros x Hu Hevs; [split; [exact Hu|reflexivity]|].
  simpl in Hevs. apply andb_true_iff in Hevs as [He Hevs].
  apply negb_true_iff in He.
  destruct (step_without_user p e x Hu He) as [Hu1 Hc1].
  change (run p (e :: evs) x) with (run p evs (step p e x)).
  destruct (IH _ Hu1 Hevs) as [Hu2 Hc2].
  split; [exact Hu2|]. rewrite Hc2. exact Hc1.
Qed.

(** The dependencies a commit leaves recorded are those of its render. *)
Lemma render_deps p now s :
  saveEffectDeps (snd (render p now s)) = Some (saveDepsOf p (bind p s)).
Proof.
  unfold render, saveEffect. cbn [snd].
  destruct (depsChanged _ _) eqn:Hch; [reflexivity|].
  unfold depsChanged in Hch.
  destruct (saveEffectDeps (syncRefs (bind p s) s)) as [d|]; [|discriminate].
  apply negb_false_iff, bool_decide_eq_true_1 in Hch. subst d.
  reflexivity.
Qed.

Lemma pending_not_both s :
  completionCommitted s = false -> committedBoth s = false.
Proof.
  unfold completionCommitted, committedBoth.
  destruct (saveEffectDeps s) as [d|]; [|reflexivity].
  intros ->. reflexivity.
Qed.

(** The first commit that sees every set complete and the user id runs
    the effect: its dependencies are not those of the commit before. *)
Lemma first_commit_runs p s0 c t :
  everyComplete p (repsArray s0) = true ->
  userId (state s0) = Some (String c t) ->
  committedBoth s0 = false ->
  depsChanged (saveEffectDeps s0) (saveDepsOf p (bind p s0)) = true.
Proof.
  intros Hall Huser Hfirst.
  unfold depsChanged, committedBoth in *.
  destruct (saveEffectDeps s0) as [d|]; [|reflexivity].
  apply negb_true_iff, bool_decide_eq_false_2. intros ->.
  simpl in Hfirst. fold (repsArray s0) in Hfirst.
  rewrite Hall, Huser in Hfirst. discriminate Hfirst.
Qed.

Lemma first_render_saves p now s0 c t :
  everyComplete p (repsArray s0) = true ->
  userId (state s0) = Some (String c t) ->
  committedBoth s0 = false ->
  saveWorkoutCalls (snd (render p now s0))
  = saveWorkoutCalls s0 ++ [saveCallOf p now (String c t) s0]
  /\ saveEffectDeps (snd (render p now s0)) = Some (saveDepsOf p (bind p s0)).
Proof.
  intros Hall Huser Hfirst.
  pose proof (first_commit_runs p s0 c t Hall Huser Hfirst) as Hchanged.
  unfold render, saveEffect. cbn [snd].
  change (saveEffectDeps (syncRefs (bind p s0) s0)) with (saveEffectDeps s0).
  rewrite Hchanged. simpl. fold (repsArray s0). rewrite Huser, Hall.
  split; reflexivity.
Qed.

(** The commit that first sees the session complete and the user. *)
Lemma first_commit_settles p now x c t :
  let s0 := session x in
  everyComplete p (repsArray s0) = true ->
  userId (state s0) = Some (String c t) ->
  showRestDrawer (state s0) = false ->
  (currentSetIndex (state s0) < length (repsArray s0))%nat ->
  committedBoth s0 = false ->
  settled p s0 (saveWorkoutCalls s0 ++ [saveCallOf p now (String c t) s0])
    (step p (Rendered now) x).
Proof.
  intros s0 Hall Huser Hrest Hidx Hfirst. rewrite step_rendered.
  unfold settled. cbn [session screen monitor].
  rewrite render_state, render_refs.
  apply lookup_lt_is_Some_2 in Hidx as [n Hn].
  pose proof (everyComplete_lookup _ _ _ _ Hall Hn) as Hge.
  assert (Hcur : r_currentReps (bind p s0) = n).
  { unfold bind, currentRepsOf. simpl. unfold repsArray in Hn.
    fold s0. rewrite Hn. reflexivity. }
  pose proof (first_commit_runs p s0 c t Hall Huser Hfirst) as Hchanged.
  unfold render, saveEffect. cbn [snd].
  change (saveEffectDeps (syncRefs (bind p (session x)) (session x)))
    with (saveEffectDeps s0).
  fold s0. rewrite Hchanged. simpl.
  fold s0. fold (repsArray s0). rewrite Huser, Hall, Hrest.
  repeat split; try reflexivity.
  change (reps p <= r_currentReps (bind p s0)). lia.
Qed.

Lemma bind_state p s s0 : state s = state s0 -> bind p s = bind p s0.
Proof. intros H. unfold bind. rewrite H. reflexivity. Qed.

(** A commit whose dependencies are those of the previous commit does
    not run the effect. *)
Lemma render_committed p now s :
  saveEffectDeps s = Some (saveDepsOf p (bind p s)) ->
  saveWorkoutCalls (snd (render p now s)) = saveWorkoutCalls s
  /\ saveEffectDeps (snd (render p now s)) = saveEffectDeps s.
Proof.
  intros H. unfold render, saveEffect. cbn [snd].
  change (saveEffectDeps (syncRefs (bind p s) s)) with (saveEffectDeps s).
  rewrite H, depsChanged_same. split; [reflexivity|exact H].
Qed.

Lemma renders_committed p nows : forall x s0 calls,
  state (session x) = state s0 ->
  saveEffectDeps (session x) = Some (saveDepsOf p (bind p s0)) ->
  saveWorkoutCalls (session x) = calls ->
  saveWorkoutCalls (session (run p (map Rendered nows) x)) = calls.
Proof.
  induction nows as [|now nows IH]; intros x s0 calls Hst Hdeps Hcalls;
    [exact Hcalls|].
  change (run p (map Rendered (now :: nows)) x)
    with (run p (map Rendered nows) (step p (Rendered now) x)).
  rewrite <- (bind_state p _ _ Hst) in Hdeps.
  destruct (render_committed p now (session x) Hdeps) as [Hc Hd].
  apply (IH _ s0).
  - rewrite session_rendered, render_state. exact Hst.
  - rewrite session_rendered, Hd, Hdeps, (bind_state p _ _ Hst). reflexivity.
  - rewrite session_rendered, Hc. exact Hcalls.
Qed.

(** What a commit leaves the effect with. *)
Lemma render_committedBoth p now s :
  committedBoth (snd (render p now s))
  = everyComplete p (repsArray s) && knownUser (userId (state s)).
Proof. unfold committedBoth. rewrite render_deps. reflexivity. Qed.

Lemma step_unsaved p e x : unsaved p x -> unsaved p (step p e x).
Proof.
  intros [Hseen Hnone].
  assert (Hother : (forall now, e <> Rendered now) -> unsaved p (step p e x)).
  { intros He. destruct (step_between_commits p e x He) as (Hd & Hc & Hu).
    unfold unsaved, committedBoth. rewrite Hd, Hc.
    fold (committedBoth (session x)). split; [|exact Hnone].
    intros Hb. destruct (Hseen Hb) as [Hall Huser].
    split; [|exact (Hu Huser)].
    exact (everyComplete_grows p _ _ (step_grows p e x) Hall). }
  destruct e as [now| | | | | |]; try (apply Hother; discriminate).
  unfold unsaved. rewrite session_rendered, render_committedBoth.
  unfold repsArray. rewrite render_state. fold (repsArray (session x)).
  split.
  - intros H. apply andb_true_iff in H. exact H.
  - intros H.
    rewrite render_without_both by (apply andb_false_iff in H; exact H).
    destruct (committedBoth (session x)) eqn:Hb; [|apply Hnone; reflexivity].
    destruct (Hseen eq_refl) as [Hall Huser].
    rewrite Hall, Huser in H. discriminate H.
Qed.

Lemma run_unsaved p evs : forall x, unsaved p x -> unsaved p (run p evs x).
Proof.
  induction evs as [|e evs IH]; intros x Hx; [exact Hx|].
  change (run p (e :: evs) x) with (run p evs (step p e x)).
  apply IH, step_unsaved, Hx.
Qed.

(** A session starts with nothing saved and no user. *)
Lemma start_unsaved p now : unsaved p (start p now).
Proof.
  unfold start.
  change (render p now (mount p now))
    with (bind p (mount p now), snd (render p now (mount p now))).
  unfold unsaved. cbn [session].
  rewrite render_committedBoth.
  change (userId (state (mount p now))) with (@None string).
  rewrite andb_false_r. split; [discriminate|intros _].
  rewrite render_without_both; [reflexivity|right; reflexivity].
Qed.

(** A session whose sets are complete before the user is known: the
    commit that sees it complete leaves the effect without both. *)
Lemma completion_before_user p t u x :
  everyComplete p (repsArray (session x)) = true ->
  userId (state (session x)) = None -> nonEmpty u = true ->
  let x' := run p [Rendered t; UserResolved u] x in
  state (session x') = state (setUserId u (session x))
  /\ sessionStartTimeRef (refs (session x'))
     = sessionStartTimeRef (refs (session x))
  /\ saveWorkoutCalls (session x') = saveWorkoutCalls (session x)
  /\ committedBoth (session x') = false.
Proof.
  intros Hall Hnone Hu x'. subst x'.
  change (run p [Rendered t; UserResolved u] x)
    with (step p (UserResolved u) (step p (Rendered t) x)).
  destruct u as [|c u]; [discriminate|].
  assert (Hstep : step p (UserResolved (String c u)) (step p (Rendered t) x)
                  = {| session := setUserId (String c u)
                                    (snd (render p t (session x)));
                       screen := bind p (session x); monitor := monitor x |}).
  { rewrite step_rendered. unfold step at 1. cbn [session screen monitor].
    rewrite render_state, Hnone. reflexivity. }
  rewrite Hstep. cbn [session].
  repeat split.
  - unfold setUserId, withState. cbn [state]. rewrite render_state.
    reflexivity.
  - unfold setUserId, withState. cbn [refs]. rewrite render_refs.
    reflexivity.
  - unfold setUserId, withState. cbn [saveWorkoutCalls].
    apply render_without_both. right. rewrite Hnone. reflexivity.
  - unfold committedBoth, setUserId, withState. cbn [saveEffectDeps].
    rewrite render_deps. simpl. rewrite Hnone. apply andb_false_r.
Qed.

(** C2, as the code has it: the commit that is the first to see every
    set complete together with a user id calls [saveWorkout] once, with
    the session's data, and however many renders follow and re-evaluate
    the completion predicate, no call is added; with the last set
    current and no rest drawer open, samples, taps and answers that
    follow add none either.  This covers both orders: the user id known
    before the last rep, and the sets complete, and committed, before
    the user id arrives.  In a session followed from its mount, whatever
    the events, nothing has been saved before that commit, so that the
    call is the only one.  A commit that sees a set short of its target,
    or no user id, calls nothing, and as long as no user id has been
    stored no sequence of events calls [saveWorkout]. *)
Theorem save_once_when_user_known :
  forall p : Params,
    (forall (x : Screen) (now : Z) (u : string),
        let s0 := session x in
        everyComplete p (repsArray s0) = true ->
        userId (state s0) = Some u -> nonEmpty u = true ->
        committedBoth s0 = false ->
        (forall nows : list Z,
            saveWorkoutCalls (session (run p (map Rendered (now :: nows)) x))
            = saveWorkoutCalls s0 ++ [saveCallOf p now u s0])
        /\ (showRestDrawer (state s0) = false ->
            (currentSetIndex (state s0) < length (repsArray s0))%nat ->
            forall evs : list Event,
              saveWorkoutCalls (session (run p (Rendered now :: evs) x))
              = saveWorkoutCalls s0 ++ [saveCallOf p now u s0]))
    /\ (forall (x : Screen) (t now : Z) (u : string) (nows : list Z),
        let s0 := session x in
        everyComplete p (repsArray s0) = true ->
        userId (state s0) = None -> nonEmpty u = true ->
        saveWorkoutCalls
          (session (run p (Rendered t :: UserResolved u
                           :: map Rendered (now :: nows)) x))
        = saveWorkoutCalls s0 ++ [saveCallOf p now u s0])
    /\ (forall (evs : list Event) (t0 : Z),
        let s0 := session (run p evs (start p t0)) in
        committedBoth s0 = false -> saveWorkoutCalls s0 = [])
    /\ (forall (evs : list Event) (t0 now : Z) (u : string) (nows : list Z),
        let x := run p evs (start p t0) in
        let s0 := session x in
        everyComplete p (repsArray s0) = true ->
        userId (state s0) = Some u -> nonEmpty u = true ->
        committedBoth s0 = false ->
        saveWorkoutCalls (session (run p (map Rendered (now :: nows)) x))
        = [saveCallOf p now u s0])
    /\ (forall (s : Session) (now : Z),
        everyComplete p (repsArray s) = false
        \/ knownUser (userId (state s)) = false ->
        saveWorkoutCalls (snd (render p now s)) = saveWorkoutCalls s)
    /\ (forall (evs : list Event) (x : Screen),
        userId (state (session x)) = None ->
        forallb (fun e => negb (resolvesUser e)) evs = true ->
        saveWorkoutCalls (session (run p evs x))
        = saveWorkoutCalls (session x)).
Proof.
  intros p.
  assert (Hrenders : forall x now c t nows,
            everyComplete p (repsArray (session x)) = true ->
            userId (state (session x)) = Some (String c t) ->
            committedBoth (session x) = false ->
            saveWorkoutCalls (session (run p (map Rendered (now :: nows)) x))
            = saveWorkoutCalls (session x)
              ++ [saveCallOf p now (String c t) (session x)]).
  { intros x now c t nows Hall Huser Hfirst.
    change (run p (map Rendered (now :: nows)) x)
      with (run p (map Rendered nows) (step p (Rendered now) x)).
    destruct (first_render_saves p now (session x) c t Hall Huser Hfirst)
      as [Hcalls Hdeps].
    apply (renders_committed p nows _ (session x)).
    - rewrite session_rendered. apply render_state.
    - rewrite session_rendered. exact Hdeps.
    - rewrite session_rendered. exact Hcalls. }
  repeat apply conj.
  - intros x now u s0 Hall Huser Hu Hfirst.
    destruct u as [|c t]; [discriminate|]. split.
    + intros nows. apply Hrenders; assumption.
    + intros Hrest Hidx evs.
      change (run p (Rendered now :: evs) x)
        with (run p evs (step p (Rendered now) x)).
      pose proof (first_commit_settles p now x c t Hall Huser Hrest Hidx Hfirst)
        as Hsettled.
      apply (run_settled p s0 _ evs) in Hsettled; try assumption.
      * destruct Hsettled as (_ & _ & _ & _ & _ & _ & _ & _ & _ & _ & Hcalls).
        exact Hcalls.
      * fold s0 in Huser. rewrite Huser. eexists. reflexivity.
  - intros x t now u nows s0 Hall Hnone Hu.
    destruct (completion_before_user p t u x Hall Hnone Hu)
      as (Hst & Hstart & Hcalls & Hfirst).
    destruct u as [|c u]; [discriminate|].
    change (run p (Rendered t :: UserResolved (String c u)
                   :: map Rendered (now :: nows)) x)
      with (run p (map Rendered (now :: nows))
              (run p [Rendered t; UserResolved (String c u)] x)).
    rewrite (Hrenders _ now c u nows);
      [|unfold repsArray; rewrite Hst; exact Hall
       |rewrite Hst; reflexivity|exact Hfirst].
    rewrite Hcalls. unfold saveCallOf, repsArray.
    rewrite Hst, Hstart. reflexivity.
  - intros evs t0 s0 Hfirst.
    exact (proj2 (run_unsaved p evs _ (start_unsaved p t0)) Hfirst).
  - intros evs t0 now u nows x s0 Hall Huser Hu Hfirst.
    destruct u as [|c u]; [discriminate|].
    rewrite (Hrenders x now c u nows Hall Huser Hfirst).
    pose proof (proj2 (run_unsaved p evs _ (start_unsaved p t0)) Hfirst)
      as Hempty.
    fold x in Hempty. rewrite Hempty. reflexivity.
  - intros s now. apply render_without_both.
  - intros evs x Hnone Hevs.
    apply (run_without_user p evs x Hnone Hevs).
Qed.

Lemma save_once_when_user_known_witness :
  saveWorkoutCalls
    (session
       (run oneByThree
          (Rendered 3001 :: [Rendered 3002; Notified 3500 "REPS:4"; Tapped;
                             Rendered 3501; Continued; Rendered 3502])
          (run oneByThree (UserResolved "user-1" :: threeReps)
             (start oneByThree 0))))
  = [ {| w_machineName := "Leg Press"; w_sets := 1; w_reps := 3;
         w_setRepsCompleted := [3]; w_setRestTimes := [0];
         w_duration := 3; w_userId := "user-1" |} ]
  /\ saveWorkoutCalls
       (session
          (run oneByThree
             (Rendered 4001 :: [Rendered 4002; Polled 4500 "REPS:4"; Tapped;
                                Rendered 4501])
             (run oneByThree
                (threeReps ++ [Rendered 3001; UserResolved "user-1"])
                (start oneByThree 0))))
     = [ {| w_machineName := "Leg Press"; w_sets := 1; w_reps := 3;
            w_setRepsCompleted := [3]; w_setRestTimes := [0];
            w_duration := 4; w_userId := "user-1" |} ].
Proof.
  pose proof (proj1 (save_once_when_user_known oneByThree)) as H.
  split.
  - exact (proj2 (H (run oneByThree (UserResolved "user-1" :: threeReps)
                       (start oneByThree 0))
                    3001 "user-1"%string eq_refl eq_refl eq_refl eq_refl)
             eq_refl ltac:(vm_compute; lia)
             [Rendered 3002; Notified 3500 "REPS:4"; Tapped;
              Rendered 3501; Continued; Rendered 3502]).
  - exact (proj2 (H (run oneByThree
                       (threeReps ++ [Rendered 3001; UserResolved "user-1"])
                       (start oneByThree 0))
                    4001 "user-1"%string eq_refl eq_refl eq_refl eq_refl)
             eq_refl ltac:(vm_compute; lia)
             [Rendered 4002; Polled 4500 "REPS:4"; Tapped; Rendered 4501]).
Defined.

(** C2 as stated fails: the same session with no user id resolved
    completes every set, renders, and never calls [saveWorkout]. *)
Lemma save_needs_user :
  let x := run oneByThree (threeReps ++ [Rendered 3001; Rendered 3002])
             (start oneByThree 0) in
  repsArray (session x) = [3]
  /\ r_isAllSetsComplete (screen x) = true
  /\ saveWorkoutCalls (session x) = []
  /\ ~ savedExactlyOnce x.
Proof.
  cbv zeta. repeat split; try reflexivity.
  unfold savedExactlyOnce. intros H. specialize (H eq_refl).
  vm_compute in H. discriminate H.
Qed.

(** ** Completing a set *)

(** A tap that completes a set which is not the last opens the rest
    drawer and resets the sensor baseline. *)
Lemma tap_completes_set p s n :
  let r := bind p s in
  repsOfSet s (currentSetIndex (state s)) = Some n ->
  n + 1 = reps p ->
  Z.of_nat (currentSetIndex (state s)) < sets p - 1 ->
  let s' := incrementRep p r s in
  repsOfSet s' (currentSetIndex (state s)) = Some (reps p)
  /\ showRestDrawer (state s') = true
  /\ lastSensorRepRef (refs s') = 0.
Proof.
  intros r Hn Hfull Hlast s'. unfold repsOfSet in *.
  assert (Hr : r_isAllSetsComplete r = false).
  { unfold r, bind. simpl.
    destruct (everyComplete p _) eqn:Hall; [|reflexivity].
    pose proof (everyComplete_lookup _ _ _ _ Hall Hn). lia. }
  subst s'. rewrite incrementRep_elems, Hr.
  change (r_currentSetIndex r) with (currentSetIndex (state s)).
  rewrite (bumpRep_at _ _ _ _ Hn).
  replace (n <? reps p) with true by (symmetry; apply Z.ltb_lt; lia).
  split; [f_equal; lia|].
  unfold incrementRep. rewrite Hr.
  assert (Hcur : r_currentReps r = n).
  { unfold r, bind, currentRepsOf. simpl. rewrite Hn. reflexivity. }
  rewrite Hcur.
  change (r_currentSetIndex r) with (currentSetIndex (state s)).
  replace (reps p <=? n + 1) with true by (symmetry; apply Z.leb_le; lia).
  replace (Z.of_nat (currentSetIndex (state s)) <? sets p - 1) with true
    by (symmetry; apply Z.ltb_lt; lia).
  simpl. auto.
Qed.

(** On the last set [incrementRep] never opens the rest drawer. *)
Lemma last_set_no_rest p r s :
  sets p - 1 <= Z.of_nat (r_currentSetIndex r) ->
  showRestDrawer (state (incrementRep p r s)) = showRestDrawer (state s).
Proof.
  intros Hlast. unfold incrementRep.
  destruct (r_isAllSetsComplete r); [reflexivity|].
  replace (Z.of_nat (r_currentSetIndex r) <? sets p - 1) with false
    by (symmetry; apply Z.ltb_ge; lia).
  rewrite andb_false_r. reflexivity.
Qed.

(** While the render a closure comes from saw the set more than one rep
    short of the target, no number of calls of its [incrementRep] opens
    the rest drawer, however many reps they add. *)
Lemma stale_closure_keeps_drawer_closed p r k s :
  r_currentReps r + 1 < reps p ->
  showRestDrawer (state (Nat.iter k (incrementRep p r) s))
  = showRestDrawer (state s).
Proof.
  intros Hshort. induction k as [|k IH]; [reflexivity|].
  change (Nat.iter (S k) (incrementRep p r) s)
    with (incrementRep p r (Nat.iter k (incrementRep p r) s)).
  unfold incrementRep at 1.
  destruct (r_isAllSetsComplete r); [exact IH|].
  replace (reps p <=? r_currentReps r + 1) with false
    by (symmetry; apply Z.leb_gt; lia).
  simpl. exact IH.
Qed.

(** A first sample that carries the whole set at once fills it and leaves
    the drawer as it was, whatever the targets (of two reps or more) and
    whichever set is the current one. *)
Lemma bulk_sample_fills_without_rest p r v s :
  2 <= reps p -> reps p <= v ->
  lastSensorRepRef (refs s) = 0 ->
  currentRepsRef (refs s) = 0 ->
  showRestDrawerRef (refs s) = false ->
  r_isAllSetsComplete r = false ->
  r_currentReps r = 0 ->
  repsOfSet s (r_currentSetIndex r) = Some 0 ->
  repsOfSet (mergeSample p r v s) (r_currentSetIndex r) = Some (reps p)
  /\ showRestDrawer (state (mergeSample p r v s)) = showRestDrawer (state s).
Proof.
  intros Hreps Hv Hlast Hcur Hrest Hall Hr0 Hentry.
  assert (Hg : deltaGuard p v s = true).
  { unfold deltaGuard. rewrite Hlast, Hcur, Hrest. unfold positive, sub.
    replace (0 <? v - 0) with true by (symmetry; apply Z.ltb_lt; lia).
    replace (0 <? reps p) with true by (symmetry; apply Z.ltb_lt; lia).
    reflexivity. }
  split.
  - unfold repsOfSet in *. rewrite mergeSample_elems, Hg, Hall. simpl.
    rewrite (iter_bumpRep_at _ _ _ _ _ Hentry) by lia.
    rewrite Hlast, Hcur. unfold minWith, sub. f_equal. lia.
  - rewrite mergeSample_deltaOnly. unfold mergeSampleDeltaOnly.
    change (deltaGuard p v (setSensorReps v s)) with (deltaGuard p v s).
    rewrite Hg. unfold incrementRepTimes.
    change (showRestDrawer (state (setLastSensorRepRef v ?s0)))
      with (showRestDrawer (state s0)).
    rewrite stale_closure_keeps_drawer_closed by lia. reflexivity.
Qed.

(** C3 on the code: with two sets of ten reps, a single sample "REPS:10"
    on a fresh session fills the first set, and the session is neither
    resting nor complete: the rest drawer stays closed.  The same holds
    when the ten reps arrive one by one through the callback subscribed
    at the start.  When the callback is the one of the latest render the
    drawer does open, but the sensor baseline is left at the sample's
    value instead of 0. *)
Theorem bulk_delta_skips_rest :
  let bulk := run twoByTen [Notified 1000 "REPS:10"; Rendered 1001]
                (start twoByTen 0) in
  let oneByOne :=
    run twoByTen
      (flat_map (fun t => [Notified 1000 t; Rendered 1001]) zeroToTen)
      (start twoByTen 0) in
  let resubscribed :=
    run twoByTen
      (flat_map (fun t => [Notified 1000 t; Rendered 1001; Subscribed])
         zeroToTen)
      (start twoByTen 0) in
  (repsArray (session bulk) = [10; 0]
   /\ currentSetIndex (state (session bulk)) = 0%nat
   /\ r_isSetComplete (screen bulk) = true
   /\ r_isLastSet (screen bulk) = false
   /\ showRestDrawer (state (session bulk)) = false
   /\ r_isAllSetsComplete (screen bulk) = false)
  /\ (repsArray (session oneByOne) = [10; 0]
      /\ showRestDrawer (state (session oneByOne)) = false)
  /\ (repsArray (session resubscribed) = [10; 0]
      /\ showRestDrawer (state (session resubscribed)) = true
      /\ lastSensorRepRef (refs (session resubscribed)) = 10).
Proof. vm_compute. repeat split; reflexivity. Qed.

(** ** Instances on concrete sessions *)


(** The two paths on a value too long for a double: on a fresh session
    of two sets of ten reps, a payload of a 1 and 309 zeros parses to
    the positive infinity; the notification adds the ten reps there is
    room for, the fallback read adds none. *)
Lemma infinite_sample_by_path :
  let s := session (start twoByTen 0) in
  let r := screen (start twoByTen 0) in
  parseNotification tooLong = Some PosInf
  /\ lastSensorRepRef (refs s) = 0
  /\ currentRepsRef (refs s) = 0
  /\ showRestDrawerRef (refs s) = false
  /\ repsArray s = [0; 0]
  /\ repsArray (onNotification twoByTen r 1000 tooLong s) = [10; 0]
  /\ repsArray (onPoll twoByTen r 1000 tooLong s) = [0; 0]
  /\ repsArray
       (session (run twoByTen [Polled 1000 tooLong; Rendered 1001]
                   (start twoByTen 0))) = [0; 0].
Proof. vm_compute. repeat split; reflexivity. Qed.

Lemma counter_to_ten_witness :
  repsOfSet
    (session
       (run twoByTen
          (flat_map (fun t => [Notified 1000 t; Rendered 1001]) zeroToTen)
          (start twoByTen 0))) 0 = Some 10.
Proof.
  exact (proj1 (counter_to_ten twoByTen 0
                  (flat_map (fun t => [Notified 1000 t; Rendered 1001])
                     zeroToTen)
                  (flat_map (fun t => [Polled 2000 t]) elevenTwelve)
                  eq_refl ltac:(vm_compute; discriminate)
                  eq_refl eq_refl eq_refl eq_refl)).
Defined.

Lemma merge_is_delta_rule_witness :
  repsOfSet
    (mergeSample twoByTen (screen (start twoByTen 0)) 4
       (session (start twoByTen 0))) 0 = Some 4.
Proof.
  exact (proj2 (proj2 (proj2 (merge_is_delta_rule twoByTen
                                (screen (start twoByTen 0)) 4
                                (session (start twoByTen 0)))))
           4 0 eq_refl eq_refl ltac:(lia) eq_refl eq_refl
           ltac:(vm_compute; reflexivity) eq_refl eq_refl).
Defined.

Lemma incrementRep_frame_witness :
  repsOfSet
    (incrementRep twoByTen (screen (start twoByTen 0))
       (session (start twoByTen 0))) 0 = Some 1
  /\ repsOfSet
       (incrementRep twoByTen (screen (start twoByTen 0))
          (session (start twoByTen 0))) 1 = Some 0.
Proof.
  pose proof (incrementRep_frame twoByTen (screen (start twoByTen 0))
                (session (start twoByTen 0)))
    as (_ & _ & _ & Hother & _ & Hat & _).
  split.
  - exact (Hat 0 eq_refl eq_refl).
  - exact (Hother 1%nat ltac:(discriminate)).
Defined.

(** * Further properties *)

(** ** Numbers as text *)

Lemma decimal_snoc ds d :
  decimal (ds ++ [d]) = 10 * decimal ds + digitVal d.
Proof. unfold decimal. rewrite fold_left_app. reflexivity. Qed.

Lemma digitChar_code d : 0 <= d <= 9 -> code (Display.digitChar d) = 48 + d.
Proof.
  intros Hd. unfold code, Display.digitChar.
  rewrite nat_ascii_embedding by lia. lia.
Qed.

Lemma digitChar_isDigit d : 0 <= d <= 9 -> isDigit (Display.digitChar d) = true.
Proof.
  intros Hd. unfold isDigit. rewrite digitChar_code by exact Hd.
  apply andb_true_iff. split; apply Z.leb_le; lia.
Qed.

Lemma digitChar_val d : 0 <= d <= 9 -> digitVal (Display.digitChar d) = d.
Proof. intros Hd. unfold digitVal. rewrite digitChar_code by exact Hd. lia. Qed.

Lemma digitsFuel_S f n acc :
  Display.digitsFuel (S f) n acc =
  if n <? 10 then Display.digitChar n :: acc
  else Display.digitsFuel f (n / 10) (Display.digitChar (n mod 10) :: acc).
Proof. reflexivity. Qed.

Lemma digitsFuel_acc fuel : forall n acc,
  Display.digitsFuel fuel n acc = Display.digitsFuel fuel n [] ++ acc.
Proof.
  induction fuel as [|f IH]; intros n acc; simpl; [reflexivity|].
  destruct (n <? 10); [reflexivity|].
  rewrite IH, (IH _ [_]), <- app_assoc. reflexivity.
Qed.

(** With fuel for every digit, the digits are digits, there is at least
    one, and their value is the number. *)
Lemma digitsFuel_spec fuel : forall n,
  0 <= n < 10 ^ Z.of_nat (S fuel) ->
  let ds := Display.digitsFuel (S fuel) n [] in
  ds <> [] /\ forallb isDigit ds = true /\ decimal ds = n.
Proof.
  induction fuel as [|f IH]; intros n Hn; cbv zeta;
    rewrite digitsFuel_S; destruct (n <? 10) eqn:Hlt; bool_to_prop.
  - repeat split; [discriminate| |].
    + simpl. rewrite digitChar_isDigit by lia. reflexivity.
    + unfold decimal. simpl. rewrite digitChar_val by lia. lia.
  - simpl in Hn. lia.
  - repeat split; [discriminate| |].
    + simpl. rewrite digitChar_isDigit by lia. reflexivity.
    + unfold decimal. simpl. rewrite digitChar_val by lia. lia.
  - rewrite digitsFuel_acc.
    set (ds := Display.digitsFuel (S f) (n / 10) []) in *.
    assert (Hq : 0 <= n / 10 < 10 ^ Z.of_nat (S f)).
    { rewrite (Nat2Z.inj_succ (S f)), Z.pow_succ_r in Hn by lia.
      split; [apply Z.div_pos; lia|].
      apply Z.div_lt_upper_bound; lia. }
    destruct (IH _ Hq) as (Hne & Hds & Hval). fold ds in Hne, Hds, Hval.
    pose proof (Z.mod_pos_bound n 10 ltac:(lia)) as Hm.
    repeat split.
    + intros Heq. apply app_eq_nil in Heq as [_ Heq]. discriminate.
    + rewrite forallb_app, Hds. simpl.
      rewrite digitChar_isDigit by lia. reflexivity.
    + rewrite decimal_snoc, Hval, digitChar_val by lia.
      rewrite (Z.div_mod n 10) at 3 by lia. reflexivity.
Qed.

Lemma digits_spec n :
  0 <= n ->
  Display.digits n <> [] /\ forallb isDigit (Display.digits n) = true
  /\ decimal (Display.digits n) = n.
Proof.
  intros Hn. unfold Display.digits. apply digitsFuel_spec.
  split; [exact Hn|].
  rewrite Nat2Z.inj_succ, Z2Nat.id by apply Z.log2_nonneg.
  destruct (Z.eq_dec n 0) as [->|Hne]; [reflexivity|].
  pose proof (Z.log2_spec n ltac:(lia)) as [_ Hup].
  eapply Z.lt_le_trans; [exact Hup|].
  apply Z.pow_le_mono_l. pose proof (Z.log2_nonneg n). lia.
Qed.

Lemma toNumber_exact_signed b n :
  n < 2 ^ 53 -> toNumber b n = Fin (if b then - n else n).
Proof.
  intros Hn. unfold toNumber, nearestDouble.
  replace (n <? 2 ^ 53) with true by (symmetry; apply Z.ltb_lt; exact Hn).
  replace (2 ^ 1024 <=? n) with false; [reflexivity|].
  symmetry. apply Z.leb_gt. eapply Z.lt_trans; [exact Hn|].
  apply Z.pow_lt_mono_r; lia.
Qed.

(** [parseInt] reads back what [toString] wrote, for the integers that a
    double holds exactly. *)
Lemma parseInt_toString n :
  - 2 ^ 53 < n < 2 ^ 53 -> parseInt (Display.toString n) = Some (Fin n).
Proof.
  intros Hn.
  unfold Display.toString. destruct (n <? 0) eqn:Hneg; bool_to_prop.
  - destruct (digits_spec (- n) ltac:(lia)) as (Hne & Hds & Hval).
    unfold parseInt. simpl.
    rewrite <- (app_nil_r (Display.digits (- n))).
    rewrite (takeWhile_app isDigit) by (exact Hds || exact I).
    destruct (Display.digits (- n)) as [|c ds] eqn:Hd; [congruence|].
    rewrite Hval, toNumber_exact_signed by lia. do 2 f_equal. lia.
  - destruct (digits_spec n ltac:(lia)) as (Hne & Hds & Hval).
    rewrite parseInt_digits by assumption.
    rewrite Hval, toNumber_exact by lia. reflexivity.
Qed.

Lemma digitsFuel_length fuel : forall n k,
  (1 <= k)%nat -> 0 <= n < 10 ^ Z.of_nat k ->
  (length (Display.digitsFuel fuel n []) <= k)%nat.
Proof.
  induction fuel as [|f IH]; intros n k Hk Hn; [simpl; lia|].
  rewrite digitsFuel_S. destruct (n <? 10) eqn:Hlt; bool_to_prop.
  - simpl. lia.
  - destruct k as [|[|k]]; [lia|simpl in Hn; lia|].
    rewrite digitsFuel_acc, length_app. simpl.
    assert (Hq : 0 <= n / 10 < 10 ^ Z.of_nat (S k)).
    { rewrite (Nat2Z.inj_succ (S k)), Z.pow_succ_r in Hn by lia.
      split; [apply Z.div_pos; lia|].
      apply Z.div_lt_upper_bound; lia. }
    specialize (IH (n / 10) (S k) ltac:(lia) Hq). lia.
Qed.

Lemma decimal_zero_cons ds :
  decimal ("0"%char :: ds) = decimal ds.
Proof. reflexivity. Qed.

(** Padding keeps the value, and gives two characters to a number below
    100. *)
Lemma padStart2_digits n :
  0 <= n ->
  let s := Display.padStart2 (Display.toString n) in
  forallb isDigit s = true /\ decimal s = n /\ (2 <= length s)%nat
  /\ (n < 100 -> length s = 2%nat).
Proof.
  intros Hn s. subst s. unfold Display.toString.
  replace (n <? 0) with false by (symmetry; apply Z.ltb_ge; lia).
  destruct (digits_spec n Hn) as (Hne & Hds & Hval).
  pose proof (digitsFuel_length (S (Z.to_nat (Z.log2 n))) n 2 ltac:(lia)) as Hlen.
  fold (Display.digits n) in Hlen.
  unfold Display.padStart2.
  destruct (Display.digits n) as [|a [|b ds]] eqn:Hd; [congruence| |].
  - simpl. simpl in Hds. rewrite Hds. repeat split; try lia.
    rewrite decimal_zero_cons. exact Hval.
  - simpl length. replace (2 - S (S (length ds)))%nat with 0%nat by lia.
    simpl. simpl in Hds. rewrite Hds. repeat split; try lia; try exact Hval.
    intros H100. specialize (Hlen ltac:(lia)). simpl in Hlen. lia.
Qed.

(** X1: The rest clock reads back: for a whole number of seconds that is
    not negative, [formatTime] is the minutes, a colon and two digits of
    seconds below 60, which together give the seconds again; below 100
    minutes the text has exactly the five characters of MM:SS. *)
Theorem formatTime_reads_back :
  forall seconds : Z,
    0 <= seconds ->
    exists mm ss,
      Display.formatTime seconds = mm ++ ":"%char :: ss
      /\ forallb isDigit mm = true /\ forallb isDigit ss = true
      /\ (2 <= length mm)%nat /\ length ss = 2%nat
      /\ decimal ss < 60
      /\ decimal mm * 60 + decimal ss = seconds
      /\ (seconds < 6000 -> length (Display.formatTime seconds) = 5%nat).
Proof.
  intros seconds Hs.
  assert (Hrem : Z.rem seconds 60 = seconds mod 60)
    by (apply Z.rem_mod_nonneg; lia).
  pose proof (Z.mod_pos_bound seconds 60 ltac:(lia)) as Hmod.
  assert (Hdiv : 0 <= seconds / 60) by (apply Z.div_pos; lia).
  destruct (padStart2_digits (seconds / 60) Hdiv) as (Hm1 & Hm2 & Hm3 & Hm4).
  destruct (padStart2_digits (seconds mod 60) ltac:(lia))
    as (Hs1 & Hs2 & Hs3 & Hs4).
  exists (Display.padStart2 (Display.toString (seconds / 60))),
         (Display.padStart2 (Display.toString (seconds mod 60))).
  unfold Display.formatTime. rewrite Hrem.
  repeat split; try assumption.
  - apply Hs4. lia.
  - lia.
  - rewrite Hm2, Hs2. pose proof (Z.div_mod seconds 60 ltac:(lia)). lia.
  - intros Hlt. rewrite length_app. simpl.
    rewrite Hm4, Hs4; [reflexivity|lia|].
    apply Z.div_lt_upper_bound; lia.
Qed.

Lemma formatTime_reads_back_witness :
  exists mm ss,
    Display.formatTime 754 = mm ++ ":"%char :: ss
    /\ decimal mm * 60 + decimal ss = 754.
Proof.
  destruct (formatTime_reads_back 754 ltac:(lia))
    as (mm & ss & Heq & _ & _ & _ & _ & _ & Hval & _).
  exists mm, ss. split; assumption.
Defined.

Lemma toString_digits n :
  0 <= n ->
  forallb isDigit (Display.toString n) = true
  /\ decimal (Display.toString n) = n.
Proof.
  intros Hn. unfold Display.toString.
  replace (n <? 0) with false by (symmetry; apply Z.ltb_ge; lia).
  destruct (digits_spec n Hn) as (_ & Hds & Hval). auto.
Qed.

(** The first digit written for a number above 0 is not a zero. *)
Lemma digitsFuel_head fuel : forall n acc,
  0 < n < 10 ^ Z.of_nat (S fuel) ->
  exists c rest,
    Display.digitsFuel (S fuel) n acc = c :: rest /\ code c <> 48.
Proof.
  induction fuel as [|f IH]; intros n acc Hn;
    rewrite digitsFuel_S; destruct (n <? 10) eqn:Hlt; bool_to_prop.
  - exists (Display.digitChar n), acc. split; [reflexivity|].
    rewrite digitChar_code by lia. lia.
  - simpl in Hn. lia.
  - exists (Display.digitChar n), acc. split; [reflexivity|].
    rewrite digitChar_code by lia. lia.
  - apply IH.
    rewrite (Nat2Z.inj_succ (S f)), Z.pow_succ_r in Hn by lia.
    split; [apply Z.div_str_pos; lia|].
    apply Z.div_lt_upper_bound; lia.
Qed.

(** [toString] writes a numeral. *)
Lemma toString_numeral n :
  0 <= n -> Display.numeral (Display.toString n) = true.
Proof.
  intros Hn. unfold Display.toString.
  replace (n <? 0) with false by (symmetry; apply Z.ltb_ge; lia).
  destruct (digits_spec n Hn) as (_ & Hds & _).
  destruct (Z.eq_dec n 0) as [->|Hne]; [reflexivity|].
  assert (Hup : n < 10 ^ Z.of_nat (S (Z.to_nat (Z.log2 n)))).
  { rewrite Nat2Z.inj_succ, Z2Nat.id by apply Z.log2_nonneg.
    pose proof (Z.log2_spec n ltac:(lia)) as [_ Hup].
    eapply Z.lt_le_trans; [exact Hup|].
    apply Z.pow_le_mono_l. pose proof (Z.log2_nonneg n). lia. }
  destruct (digitsFuel_head (Z.to_nat (Z.log2 n)) n [] ltac:(lia))
    as (c & rest & Heq & Hc).
  unfold Display.digits in *. rewrite Heq in *.
  unfold Display.numeral. rewrite Hds.
  replace (code c =? 48) with false by (symmetry; apply Z.eqb_neq; exact Hc).
  reflexivity.
Qed.

(** X2: The duration on a history card reads back as the duration that was
    saved: nothing is shown for a missing or zero duration; below a
    minute the card shows the seconds, from a minute on the minutes and
    the seconds below 60, each as a numeral (digits, at least one, no
    zero in front of another digit), and together they are the saved
    number. *)
Theorem formatDuration_reads_back :
  forall seconds : Z,
    0 < seconds ->
    Display.formatDuration None = []
    /\ Display.formatDuration (Some 0) = []
    /\ exists mm ss,
         Display.numeral mm = true /\ Display.numeral ss = true
         /\ forallb isDigit mm = true /\ forallb isDigit ss = true
         /\ decimal ss < 60
         /\ decimal mm * 60 + decimal ss = seconds
         /\ Display.formatDuration (Some seconds)
            = if seconds <? 60 then ss ++ list_ascii_of_string "s"
              else mm ++ list_ascii_of_string "m " ++ ss
                   ++ list_ascii_of_string "s".
Proof.
  intros seconds Hs. split; [reflexivity|]. split; [reflexivity|].
  assert (Hrem : Z.rem seconds 60 = seconds mod 60)
    by (apply Z.rem_mod_nonneg; lia).
  pose proof (Z.mod_pos_bound seconds 60 ltac:(lia)) as Hmod.
  assert (Hdiv : 0 <= seconds / 60) by (apply Z.div_pos; lia).
  destruct (toString_digits (seconds / 60) Hdiv) as [Hm1 Hm2].
  destruct (toString_digits (seconds mod 60) ltac:(lia)) as [Hs1 Hs2].
  pose proof (toString_numeral (seconds / 60) Hdiv) as Hm3.
  pose proof (toString_numeral (seconds mod 60) ltac:(lia)) as Hs3.
  pose proof (Z.div_mod seconds 60 ltac:(lia)) as Hdm.
  exists (Display.toString (seconds / 60)), (Display.toString (seconds mod 60)).
  rewrite Hm2, Hs2.
  repeat split; try assumption; try lia.
  unfold Display.formatDuration. rewrite Hrem.
  replace (seconds =? 0) with false by (symmetry; apply Z.eqb_neq; lia).
  destruct (seconds <? 60) eqn:Hlt.
  - apply Z.ltb_lt in Hlt.
    replace (seconds / 60) with 0 by (symmetry; apply Z.div_small; lia).
    reflexivity.
  - apply Z.ltb_ge in Hlt.
    replace (0 <? seconds / 60) with true; [reflexivity|].
    symmetry. apply Z.ltb_lt. apply Z.div_str_pos. lia.
Qed.

Lemma formatDuration_reads_back_witness :
  exists mm ss,
    Display.numeral mm = true /\ Display.numeral ss = true
    /\ decimal mm * 60 + decimal ss = 125
    /\ Display.formatDuration (Some 125)
       = mm ++ list_ascii_of_string "m " ++ ss ++ list_ascii_of_string "s".
Proof.
  destruct (formatDuration_reads_back 125 ltac:(lia))
    as (_ & _ & mm & ss & Hmm & Hss & _ & _ & _ & Hval & Heq).
  exists mm, ss. repeat split; assumption.
Defined.

(** ** The confirm screen *)

Lemma bumpSets_range d v : 1 <= Confirm.bumpSets d v <= 20.
Proof. unfold Confirm.bumpSets. lia. Qed.

Lemma bumpReps_range d v : 1 <= Confirm.bumpReps d v <= 50.
Proof. unfold Confirm.bumpReps. lia. Qed.

Lemma setsAfter_range deltas : 1 <= Confirm.setsAfter deltas <= 20.
Proof.
  unfold Confirm.setsAfter.
  induction deltas as [|d deltas IH] using rev_ind.
  - simpl. unfold Confirm.initialSets. lia.
  - rewrite fold_left_app. simpl. apply bumpSets_range.
Qed.

Lemma repsAfter_range deltas : 1 <= Confirm.repsAfter deltas <= 50.
Proof.
  unfold Confirm.repsAfter.
  induction deltas as [|d deltas IH] using rev_ind.
  - simpl. unfold Confirm.initialReps. lia.
  - rewrite fold_left_app. simpl. apply bumpReps_range.
Qed.

Lemma paramValue_paramOf n :
  - 2 ^ 53 < n < 2 ^ 53 -> paramValue (Confirm.paramOf n) = Some (Fin n).
Proof.
  intros Hn. unfold paramValue, Confirm.paramOf.
  rewrite list_ascii_of_string_of_list_ascii. apply parseInt_toString.
  exact Hn.
Qed.

(** X3: Whatever the user presses on the steppers of the confirm screen, the
    targets stay within 1..20 sets and 1..50 reps, and the session
    screen, which receives them as text, works with the same numbers. *)
Theorem targets_survive_navigation :
  forall setPresses repPresses : list Z,
    let sets := Confirm.setsAfter setPresses in
    let reps := Confirm.repsAfter repPresses in
    1 <= sets <= 20 /\ 1 <= reps <= 50
    /\ setsOfParam (Confirm.paramOf sets) = sets
    /\ repsOfParam (Confirm.paramOf reps) = reps.
Proof.
  intros setPresses repPresses sets reps.
  pose proof (setsAfter_range setPresses) as Hs.
  pose proof (repsAfter_range repPresses) as Hr.
  fold sets in Hs. fold reps in Hr.
  repeat split; try lia.
  - rewrite setsOfParam_eq, paramValue_paramOf by lia.
    replace (sets <? 1) with false by (symmetry; apply Z.ltb_ge; lia). lia.
  - rewrite repsOfParam_eq, paramValue_paramOf by lia.
    replace (reps <? 1) with false by (symmetry; apply Z.ltb_ge; lia). lia.
Qed.

(** ** The plan screen *)

Lemma change_withinBounds c prev :
  Plan.savedWithinBounds c ->
  Forall Plan.withinBounds prev -> Forall Plan.withinBounds (Plan.change c prev).
Proof.
  intros Hsaved Hprev.
  destruct c as [i d|i d|t n|t saved|t|i]; simpl.
  - unfold Plan.bumpSets. rewrite Forall_map.
    eapply Forall_impl; [exact Hprev|]. intros e [Hs Hr].
    destruct (negb _); [split; assumption|].
    unfold Plan.withinBounds. simpl. lia.
  - unfold Plan.bumpReps. rewrite Forall_map.
    eapply Forall_impl; [exact Hprev|]. intros e [Hs Hr].
    destruct (negb _); [split; assumption|].
    unfold Plan.withinBounds. simpl. lia.
  - unfold Plan.addOptimistic. apply Forall_app. split; [exact Hprev|].
    constructor; [|constructor]. unfold Plan.withinBounds. simpl. lia.
  - unfold Plan.addSaved. rewrite Forall_map.
    eapply Forall_impl; [exact Hprev|]. intros e He.
    destruct (String.eqb _ _); assumption.
  - unfold Plan.addFailed. rewrite List.Forall_forall in *.
    intros e He. apply List.filter_In in He as [He _]. auto.
  - unfold Plan.removeExercise. rewrite List.Forall_forall in *.
    intros e He. apply List.filter_In in He as [He _]. auto.
Qed.

(** X4: Every exercise of the plan stays within the bounds the database
    checks (1..20 sets, 1..50 reps) through any series of stepper
    presses, additions, confirmations, failures and removals, as long as
    the rows the database returns are within them. *)
Theorem plan_stays_within_bounds :
  forall (changes : list Plan.Change) (plan : list Plan.PlannedExercise),
    Forall Plan.savedWithinBounds changes ->
    Forall Plan.withinBounds plan ->
    Forall Plan.withinBounds
      (fold_left (fun l c => Plan.change c l) changes plan).
Proof.
  induction changes as [|c changes IH]; intros plan Hsaved Hplan; simpl.
  - exact Hplan.
  - apply Forall_cons in Hsaved as [Hc Hrest].
    apply IH; [exact Hrest|]. apply change_withinBounds; assumption.
Qed.

Lemma plan_stays_within_bounds_witness :
  Forall Plan.withinBounds
    (fold_left (fun l c => Plan.change c l)
       [Plan.AddOptimistic "temp-1" "Bench Press"; Plan.BumpSets "temp-1" 40;
        Plan.BumpReps "temp-1" (-40)]
       []).
Proof.
  apply plan_stays_within_bounds.
  - repeat constructor.
  - constructor.
Defined.

Lemma addFailed_absent t prev :
  Forall (fun e => Plan.id e <> t) prev -> Plan.addFailed t prev = prev.
Proof.
  intros H. unfold Plan.addFailed.
  induction prev as [|e prev IH]; simpl; [reflexivity|].
  apply Forall_cons in H as [He H].
  apply String.eqb_neq in He. rewrite He. simpl. rewrite IH by exact H.
  reflexivity.
Qed.

Lemma addSaved_absent t saved prev :
  Forall (fun e => Plan.id e <> t) prev -> Plan.addSaved t saved prev = prev.
Proof.
  intros H. unfold Plan.addSaved.
  induction prev as [|e prev IH]; simpl; [reflexivity|].
  apply Forall_cons in H as [He H].
  apply String.eqb_neq in He. rewrite He. rewrite IH by exact H.
  reflexivity.
Qed.

(** X5: Adding an exercise is optimistic and undone cleanly: when no
    exercise of the plan carries the temporary id, a failed save leaves
    the plan as it was, and a successful one leaves the plan followed by
    the saved row. *)
Theorem addExercise_settles :
  forall (tempId name : string) (saved : Plan.PlannedExercise)
         (plan : list Plan.PlannedExercise),
    Forall (fun e => Plan.id e <> tempId) plan ->
    let shown := Plan.addOptimistic (Plan.newExercise tempId name) plan in
    Plan.addFailed tempId shown = plan
    /\ Plan.addSaved tempId saved shown = plan ++ [saved].
Proof.
  intros tempId name saved plan Hfresh shown. subst shown.
  unfold Plan.addOptimistic. split.
  - unfold Plan.addFailed. rewrite List.filter_app.
    fold (Plan.addFailed tempId plan). rewrite addFailed_absent by exact Hfresh.
    simpl. rewrite String.eqb_refl. simpl. apply app_nil_r.
  - unfold Plan.addSaved. rewrite map_app.
    fold (Plan.addSaved tempId saved plan).
    rewrite addSaved_absent by exact Hfresh.
    simpl. rewrite String.eqb_refl. reflexivity.
Qed.

Lemma addExercise_settles_witness :
  Plan.addFailed "temp-7"
    (Plan.addOptimistic (Plan.newExercise "temp-7" "Leg Press")
       [Plan.newExercise "a1" "Bench Press"])
  = [Plan.newExercise "a1" "Bench Press"].
Proof.
  apply (proj1 (addExercise_settles "temp-7" "Leg Press"
                  (Plan.newExercise "b2" "Leg Press")
                  [Plan.newExercise "a1" "Bench Press"]
                  ltac:(repeat constructor; discriminate))).
Defined.

(** ** A session done by hand *)

Lemma everyComplete_short p l i n :
  l !! i = Some n -> n < reps p -> everyComplete p l = false.
Proof.
  intros Hl Hn. destruct (everyComplete p l) eqn:Hall; [|reflexivity].
  pose proof (everyComplete_lookup _ _ _ _ Hall Hl). lia.
Qed.

Lemma everyComplete_replicate p n :
  everyComplete p (replicate n (reps p)) = true.
Proof.
  unfold everyComplete. induction n as [|n IH]; [reflexivity|].
  simpl. rewrite IH, Z.leb_refl. reflexivity.
Qed.

(** A commit that sees the session incomplete saves nothing. *)
Lemma render_pending p now s :
  everyComplete p (repsArray s) = false ->
  completionCommitted s = false ->
  saveWorkoutCalls (snd (render p now s)) = saveWorkoutCalls s
  /\ completionCommitted (snd (render p now s)) = false.
Proof.
  intros Hall Hpending. unfold render, saveEffect. cbn [snd].
  change (saveEffectDeps (syncRefs (bind p s) s)) with (saveEffectDeps s).
  destruct (depsChanged _ _); [|split; [reflexivity|exact Hpending]].
  unfold completionCommitted. simpl. fold (repsArray s). rewrite Hall.
  split; [|reflexivity]. destruct (userId (state s)) as [[|c t]|]; reflexivity.
Qed.

Lemma incrementRep_drawer p r s :
  r_isAllSetsComplete r = false ->
  showRestDrawer (state (incrementRep p r s))
  = if (reps p <=? r_currentReps r + 1)
       && (Z.of_nat (r_currentSetIndex r) <? sets p - 1)
    then true else showRestDrawer (state s).
Proof.
  intros Hr. unfold incrementRep. rewrite Hr.
  destruct (_ && _); reflexivity.
Qed.

Lemma lookup_block i (R v : Z) b : (replicate i R ++ v :: b) !! i = Some v.
Proof. apply list_lookup_middle. rewrite length_replicate. reflexivity. Qed.

Lemma insert_block i (R v w : Z) b :
  <[i := w]> (replicate i R ++ v :: b) = replicate i R ++ w :: b.
Proof.
  rewrite insert_app_r_alt by (rewrite length_replicate; lia).
  rewrite length_replicate, Nat.sub_diag. reflexivity.
Qed.

(** One press while the set is short of its target, seen from the array:
    the screen the user looks at after the press and its render. *)
Lemma tap_advances p u t i j x :
  1 <= reps p ->
  (i < Z.to_nat (sets p))%nat ->
  Z.of_nat j < reps p ->
  Manual.atRep p u i j x ->
  let x' := run p (Manual.tap t) x in
  let s' := session x' in
  currentSetIndex (state s') = i
  /\ repsArray s'
     = replicate i (reps p) ++ Z.of_nat (S j)
         :: replicate (Z.to_nat (sets p) - 1 - i) 0
  /\ elems (setRestTimes (state s')) = replicate (Z.to_nat (sets p)) 0
  /\ restTimer (state s') = 0
  /\ showRestDrawer (state s')
     = (reps p <=? Z.of_nat (S j)) && (Z.of_nat i <? sets p - 1)
  /\ userId (state s') = Some u
  /\ screen x' = bind p (incrementRep p (screen x) (session x))
  /\ s' = snd (render p t (incrementRep p (screen x) (session x))).
Proof.
  intros Hreps Hi Hj (Hidx & Harr & Hrest & Htimer & Hdrawer & Huser & Hscr
                      & Hcalls & Hpend).
  set (s := session x) in *.
  assert (Hat : repsArray s !! i = Some (Z.of_nat j)).
  { rewrite Harr. apply lookup_block. }
  assert (Hall : r_isAllSetsComplete (screen x) = false).
  { rewrite Hscr. unfold bind. simpl. fold (repsArray s).
    eapply everyComplete_short; eauto. }
  assert (Hcur : r_currentReps (screen x) = Z.of_nat j).
  { rewrite Hscr. unfold bind, currentRepsOf. simpl. fold (repsArray s).
    rewrite Hidx, Hat. reflexivity. }
  assert (Hri : r_currentSetIndex (screen x) = i).
  { rewrite Hscr. exact Hidx. }
  assert (Hclosed : showRestDrawer (state s) = false).
  { rewrite Hdrawer. replace (reps p <=? Z.of_nat j) with false
      by (symmetry; apply Z.leb_gt; lia). reflexivity. }
  intros x' s'.
  assert (Hs' : s' = snd (render p t (incrementRep p (screen x) s))).
  { reflexivity. }
  assert (Hx' : screen x' = bind p (incrementRep p (screen x) s)).
  { reflexivity. }
  destruct (incrementRep_others p (screen x) s) as (Ht & Hu & _ & _).
  rewrite Hs', render_state.
  repeat split.
  - rewrite incrementRep_index. exact Hidx.
  - unfold repsArray. rewrite render_state, incrementRep_elems, Hall, Hri.
    fold (repsArray s). unfold bumpRep. rewrite Hat.
    replace (Z.of_nat j <? reps p) with true by (symmetry; apply Z.ltb_lt; lia).
    rewrite Harr, insert_block. do 2 f_equal. lia.
  - rewrite incrementRep_restTimes. exact Hrest.
  - rewrite Ht. exact Htimer.
  - rewrite incrementRep_drawer by exact Hall. rewrite Hcur, Hri, Hclosed.
    replace (Z.of_nat (S j)) with (Z.of_nat j + 1) by lia.
    clear. destruct (reps p <=? _), (_ <? _); reflexivity.
  - rewrite Hu. exact Huser.
Qed.

Lemma tap_keeps_going p u t i j x :
  1 <= reps p ->
  (i < Z.to_nat (sets p))%nat ->
  Z.of_nat j < reps p ->
  (Z.of_nat (S j) < reps p \/ (S i < Z.to_nat (sets p))%nat) ->
  Manual.atRep p u i j x ->
  Manual.atRep p u i (S j) (run p (Manual.tap t) x).
Proof.
  intros Hreps Hi Hj Hmore Hx.
  pose proof (tap_advances p u t i j x Hreps Hi Hj Hx) as H.
  cbn zeta in H.
  destruct H as (Hidx & Harr & Hrest & Htimer & Hdrawer & Huser & Hscr & Hs').
  destruct Hx as (_ & _ & _ & _ & _ & _ & _ & Hcalls & Hpend).
  destruct (incrementRep_others p (screen x) (session x))
    as (_ & _ & Hc & Hd).
  assert (Hshort : everyComplete p
            (repsArray (incrementRep p (screen x) (session x))) = false).
  { assert (Heq : repsArray (incrementRep p (screen x) (session x))
                  = repsArray (session (run p (Manual.tap t) x))).
    { rewrite Hs'. unfold repsArray. rewrite render_state. reflexivity. }
    rewrite Heq, Harr.
    destruct Hmore as [Hmore|Hmore].
    - eapply (everyComplete_short p _ i).
      + apply lookup_block.
      + exact Hmore.
    - eapply (everyComplete_short p _ (S i) 0); [|lia].
      rewrite lookup_app_r by (rewrite length_replicate; lia).
      rewrite length_replicate.
      replace (S i - i)%nat with 1%nat by lia. simpl.
      apply lookup_replicate_2. lia. }
  assert (Hpend' : completionCommitted
            (incrementRep p (screen x) (session x)) = false).
  { unfold completionCommitted in *. rewrite Hd. exact Hpend. }
  destruct (render_pending p t _ Hshort Hpend') as [Hsaved Hstill].
  unfold Manual.atRep. cbn zeta.
  repeat split; try assumption.
  - rewrite Hscr, Hs'. symmetry. apply bind_state. apply render_state.
  - rewrite Hs', Hsaved, Hc. exact Hcalls.
Qed.

Lemma taps_snoc t n : Manual.taps t (S n) = Manual.taps t n ++ Manual.tap t.
Proof.
  unfold Manual.taps. rewrite replicate_S_end, concat_app. reflexivity.
Qed.

Lemma run_app p evs evs' x : run p (evs ++ evs') x = run p evs' (run p evs x).
Proof. unfold run. apply fold_left_app. Qed.

Lemma taps_keep_going p u t i k : forall j x,
  1 <= reps p ->
  (i < Z.to_nat (sets p))%nat ->
  (Z.of_nat (j + k) < reps p
   \/ (Z.of_nat (j + k) <= reps p /\ (S i < Z.to_nat (sets p))%nat)) ->
  Manual.atRep p u i j x ->
  Manual.atRep p u i (j + k) (run p (Manual.taps t k) x).
Proof.
  induction k as [|k IH]; intros j x Hreps Hi Hroom Hx.
  - rewrite Nat.add_0_r. exact Hx.
  - change (Manual.taps t (S k)) with (Manual.tap t ++ Manual.taps t k).
    rewrite run_app. replace (j + S k)%nat with (S j + k)%nat by lia.
    apply IH; [exact Hreps|exact Hi|
               replace (S j + k)%nat with (j + S k)%nat by lia; exact Hroom|].
    apply tap_keeps_going; try assumption; lia.
Qed.

(** "Continue" after a full set that is not the last one. *)
Lemma next_starts_set p u t i x :
  1 <= reps p ->
  (S i < Z.to_nat (sets p))%nat ->
  Manual.atRep p u i (Z.to_nat (reps p)) x ->
  Manual.atRep p u (S i) 0 (run p (Manual.next t) x).
Proof.
  intros Hreps Hi (Hidx & Harr & Hrest & Htimer & Hdrawer & Huser & Hscr
                   & Hcalls & Hpend).
  set (s := session x) in *.
  assert (Hopen : r_showRestDrawer (screen x) = true).
  { rewrite Hscr. unfold bind. simpl. rewrite Hdrawer.
    apply andb_true_iff. split; [apply Z.leb_le|apply Z.ltb_lt]; lia. }
  assert (Hstep : step p Continued x =
            {| session := continueToNextSet p (screen x) s;
               screen := screen x; monitor := monitor x |}).
  { simpl. rewrite Hopen. reflexivity. }
  unfold Manual.next.
  change (run p [Continued; Rendered t] x)
    with (step p (Rendered t) (step p Continued x)).
  rewrite Hstep, step_rendered. cbn [session screen monitor].
  set (s1 := continueToNextSet p (screen x) s).
  assert (Hri : r_currentSetIndex (screen x) = i) by (rewrite Hscr; exact Hidx).
  assert (Hrt : r_restTimer (screen x) = 0) by (rewrite Hscr; exact Htimer).
  assert (Harr1 : repsArray s1 = repsArray s) by reflexivity.
  assert (Hshort : everyComplete p (repsArray s1) = false).
  { rewrite Harr1, Harr. eapply (everyComplete_short p _ (S i) 0); [|lia].
    rewrite lookup_app_r by (rewrite length_replicate; lia).
    rewrite length_replicate.
    replace (S i - i)%nat with 1%nat by lia. simpl.
    apply lookup_replicate_2. lia. }
  assert (Hpend1 : completionCommitted s1 = false) by exact Hpend.
  destruct (render_pending p t _ Hshort Hpend1) as [Hsaved Hstill].
  unfold Manual.atRep. cbn [session screen monitor]. cbn zeta.
  rewrite render_state.
  repeat split.
  - change (currentSetIndex (state s1)) with (S (currentSetIndex (state s))).
    rewrite Hidx. reflexivity.
  - unfold repsArray. rewrite render_state.
    change (elems (setRepsCompleted (state s1))) with (repsArray s).
    rewrite Harr.
    replace (Z.to_nat (sets p) - 1 - i)%nat
      with (S (Z.to_nat (sets p) - 1 - S i))%nat by lia.
    rewrite Z2Nat.id by lia.
    rewrite (replicate_S_end i (reps p)), <- app_assoc.
    reflexivity.
  - change (elems (setRestTimes (state s1)))
      with (assign (r_currentSetIndex (screen x)) (r_restTimer (screen x))
              (elems (setRestTimes (state s)))).
    rewrite Hri, Hrt, Hrest. unfold assign.
    rewrite bool_decide_eq_true_2 by (rewrite length_replicate; lia).
    apply list_insert_id. apply lookup_replicate_2. lia.
  - exact Htimer.
  - change (showRestDrawer (state s1)) with false.
    replace (reps p <=? Z.of_nat 0) with false
      by (symmetry; apply Z.leb_gt; lia). reflexivity.
  - exact Huser.
  - symmetry. apply bind_state. apply render_state.
  - rewrite Hsaved. exact Hcalls.
  - exact Hstill.
Qed.

Lemma sets_keep_going p u t m : forall x,
  1 <= reps p ->
  (m < Z.to_nat (sets p))%nat ->
  Manual.atRep p u 0 0 x ->
  Manual.atRep p u m 0
    (run p (concat (replicate m
                      (Manual.taps t (Z.to_nat (reps p)) ++ Manual.next t))) x).
Proof.
  induction m as [|m IH]; intros x Hreps Hm Hx; [exact Hx|].
  rewrite replicate_S_end, concat_app, run_app. simpl concat.
  rewrite app_nil_r, run_app.
  apply next_starts_set; [exact Hreps|exact Hm|].
  apply (taps_keep_going p u t m (Z.to_nat (reps p)) 0%nat);
    [exact Hreps|lia|right; lia|].
  apply IH; [exact Hreps|lia|exact Hx].
Qed.

(** The session just started, once the user is known. *)
Lemma start_atRep p now t c u :
  1 <= sets p -> 1 <= reps p ->
  Manual.atRep p (String c u) 0 0
    (run p [UserResolved (String c u); Rendered t] (start p now)).
Proof.
  intros Hsets Hreps.
  set (s0 := mount p now).
  assert (Hzero : everyComplete p (repsArray s0) = false).
  { apply (everyComplete_short p _ 0%nat 0); [|lia].
    apply lookup_replicate_2. lia. }
  destruct (render_pending p now s0 Hzero eq_refl) as [Hc1 Hp1].
  pose proof (render_state p now s0) as Hst1.
  assert (Hstart : start p now =
            {| session := snd (render p now s0);
               screen := bind p s0; monitor := bind p s0 |}) by reflexivity.
  set (s1 := snd (render p now s0)) in *.
  assert (Hstep : step p (UserResolved (String c u)) (start p now) =
            {| session := setUserId (String c u) s1;
               screen := bind p s0; monitor := bind p s0 |}).
  { rewrite Hstart. unfold step. cbn [session screen monitor].
    rewrite Hst1. reflexivity. }
  change (run p [UserResolved (String c u); Rendered t] (start p now))
    with (step p (Rendered t) (step p (UserResolved (String c u))
                                 (start p now))).
  rewrite Hstep, step_rendered. cbn [session screen monitor].
  set (s2 := setUserId (String c u) s1).
  assert (Harr2 : repsArray s2 = repsArray s0).
  { unfold repsArray. change (setRepsCompleted (state s2))
      with (setRepsCompleted (state s1)). rewrite Hst1. reflexivity. }
  assert (Hzero2 : everyComplete p (repsArray s2) = false)
    by (rewrite Harr2; exact Hzero).
  assert (Hp2 : completionCommitted s2 = false) by exact Hp1.
  destruct (render_pending p t s2 Hzero2 Hp2) as [Hc3 Hp3].
  unfold Manual.atRep. cbn [session screen monitor]. cbn zeta.
  unfold repsArray. rewrite render_state.
  change (state s2) with
    {| currentSetIndex := currentSetIndex (state s1);
       setRepsCompleted := setRepsCompleted (state s1);
       setRestTimes := setRestTimes (state s1);
       showRestDrawer := showRestDrawer (state s1);
       restTimer := restTimer (state s1);
       userId := Some (String c u);
       sensorReps := sensorReps (state s1) |}.
  rewrite Hst1. cbn [currentSetIndex setRepsCompleted setRestTimes
                     showRestDrawer restTimer userId elems].
  split; [reflexivity|]. split.
  { simpl. replace (Z.to_nat (sets p)) with (S (Z.to_nat (sets p) - 1 - 0))
      at 1 by lia. reflexivity. }
  split; [reflexivity|]. split; [reflexivity|]. split.
  { symmetry. apply andb_false_iff. left. apply Z.leb_gt. simpl. lia. }
  split; [reflexivity|]. split.
  { symmetry. apply bind_state. apply render_state. }
  split; [|exact Hp3].
  rewrite Hc3. exact Hc1.
Qed.

(** The start time of the session is written once, at the mount. *)
Lemma incrementRep_startTime p r s :
  sessionStartTimeRef (refs (incrementRep p r s)) = sessionStartTimeRef (refs s).
Proof.
  unfold incrementRep. destruct (r_isAllSetsComplete r); [reflexivity|].
  destruct (_ && _); reflexivity.
Qed.

Lemma mergeSample_startTime p r v s :
  sessionStartTimeRef (refs (mergeSample p r v s)) = sessionStartTimeRef (refs s).
Proof.
  unfold mergeSample.
  destruct (_ && _ && _).
  - cbn [setLastSensorRepRef withRefs refs sessionStartTimeRef].
    destruct (incrementRepTimes_refs_other p r
                (minWith (sub v (lastSensorRepRef (refs (setSensorReps v s))))
                   (reps p - currentRepsRef (refs (setSensorReps v s))))
                (setSensorReps v s)) as (_ & _ & H).
    rewrite H. reflexivity.
  - destruct (_ && _ && _ && _); [|reflexivity].
    cbn [setLastSensorRepRef withRefs refs sessionStartTimeRef].
    rewrite incrementRep_startTime. reflexivity.
Qed.

Lemma step_startTime p e x :
  sessionStartTimeRef (refs (session (step p e x)))
  = sessionStartTimeRef (refs (session x)).
Proof.
  destruct e as [now| |now text|now text| | |id].
  - rewrite session_rendered, render_refs. reflexivity.
  - reflexivity.
  - unfold step. cbn [session]. unfold onNotification.
    destruct (parseNotification text);
      [rewrite mergeSample_startTime|]; reflexivity.
  - unfold step. cbn [session]. unfold onPoll.
    destruct (parsePoll text); [rewrite mergeSample_startTime|]; reflexivity.
  - unfold step. cbn [session]. apply incrementRep_startTime.
  - unfold step. destruct (r_showRestDrawer (screen x)); reflexivity.
  - unfold step. destruct (userId (state (session x))); [reflexivity|].
    destruct id; reflexivity.
Qed.

Lemma run_startTime p evs : forall x,
  sessionStartTimeRef (refs (session (run p evs x)))
  = sessionStartTimeRef (refs (session x)).
Proof.
  induction evs as [|e evs IH]; intros x; [reflexivity|].
  change (run p (e :: evs) x) with (run p evs (step p e x)).
  rewrite IH. apply step_startTime.
Qed.

Lemma start_startTime p now :
  sessionStartTimeRef (refs (session (start p now))) = now.
Proof.
  change (session (start p now)) with (snd (render p now (mount p now))).
  rewrite render_refs. reflexivity.
Qed.

(** A workout done by hand, up to its last press. *)
Lemma manual_reaches_last_tap p now t c u :
  1 <= sets p -> 1 <= reps p ->
  let user := String c u in
  exists x2,
    run p (UserResolved user :: Rendered t :: Manual.workout t p) (start p now)
    = run p (Manual.tap t) x2
    /\ Manual.atRep p user (Z.to_nat (sets p) - 1) (Z.to_nat (reps p) - 1) x2
    /\ sessionStartTimeRef (refs (session x2)) = now.
Proof.
  intros Hsets Hreps user.
  set (N := Z.to_nat (sets p)) in *. set (R := Z.to_nat (reps p)).
  set (x0 := run p [UserResolved user; Rendered t] (start p now)).
  set (x1 := run p (concat (replicate (N - 1)
                              (Manual.taps t R ++ Manual.next t))) x0).
  set (x2 := run p (Manual.taps t (R - 1)) x1).
  exists x2. split; [|split].
  - subst x2 x1 x0. unfold Manual.workout. fold N R.
    change (UserResolved user :: Rendered t :: ?l)
      with ([UserResolved user; Rendered t] ++ l).
    replace R with (S (R - 1)) at 2 by (subst R; lia).
    rewrite taps_snoc, !run_app. reflexivity.
  - assert (H0 : Manual.atRep p user 0 0 x0)
      by (apply start_atRep; assumption).
    assert (H1 : Manual.atRep p user (N - 1) 0 x1)
      by (apply sets_keep_going; [exact Hreps|subst N; lia|exact H0]).
    apply (taps_keep_going p user t (N - 1) (R - 1) 0%nat);
      [exact Hreps|subst N; lia|left; subst R; simpl; lia|exact H1].
  - subst x2 x1 x0. rewrite !run_startTime. apply start_startTime.
Qed.

(** The last press of a workout: the commit that follows it saves. *)
Lemma last_tap_saves p now t c u x2 :
  1 <= sets p -> 1 <= reps p ->
  let user := String c u in
  Manual.atRep p user (Z.to_nat (sets p) - 1) (Z.to_nat (reps p) - 1) x2 ->
  sessionStartTimeRef (refs (session x2)) = now ->
  let x := run p (Manual.tap t) x2 in
  repsArray (session x) = replicate (Z.to_nat (sets p)) (reps p)
  /\ currentSetIndex (state (session x)) = (Z.to_nat (sets p) - 1)%nat
  /\ showRestDrawer (state (session x)) = false
  /\ saveWorkoutCalls (session x) =
     [{| w_machineName := machineName p;
         w_sets := sets p;
         w_reps := reps p;
         w_setRepsCompleted := replicate (Z.to_nat (sets p)) (reps p);
         w_setRestTimes := replicate (Z.to_nat (sets p)) 0;
         w_duration := (t - now) / 1000;
         w_userId := user |}].
Proof.
  intros Hsets Hreps user H2 Htime x.
  set (N := Z.to_nat (sets p)) in *. set (R := Z.to_nat (reps p)) in *.
  pose proof (tap_advances p user t (N - 1) (R - 1) x2 Hreps
                ltac:(subst N; lia) ltac:(subst R; lia) H2) as H3.
  cbn zeta in H3. fold x in H3.
  destruct H3 as (Hidx & Harr & Hrest & _ & Hdrawer & Huser & _ & Hs).
  destruct H2 as (_ & _ & _ & _ & _ & _ & _ & Hcalls & Hpend).
  set (s2 := incrementRep p (screen x2) (session x2)) in *.
  assert (Hfull : repsArray (session x)
                  = replicate (Z.to_nat (sets p)) (reps p)).
  { rewrite Harr. fold N.
    replace (N - 1 - (N - 1))%nat with 0%nat by lia.
    replace (Z.of_nat (S (R - 1))) with (reps p) by (subst R; lia).
    replace N with (S (N - 1)) at 2 by (subst N; lia).
    rewrite replicate_S_end. reflexivity. }
  assert (Harr2 : repsArray s2 = repsArray (session x)).
  { rewrite Hs. unfold repsArray. rewrite render_state. reflexivity. }
  assert (Hst2 : state (session x) = state s2).
  { rewrite Hs. apply render_state. }
  destruct (incrementRep_others p (screen x2) (session x2))
    as (_ & _ & Hc2 & Hd2).
  fold s2 in Hc2, Hd2.
  assert (Hsave : saveWorkoutCalls (session x)
                  = saveWorkoutCalls s2 ++ [saveCallOf p t user s2]).
  { rewrite Hs. apply (first_render_saves p t s2 c u).
    - rewrite Harr2, Hfull. apply everyComplete_replicate.
    - rewrite <- Hst2. exact Huser.
    - apply pending_not_both.
      unfold completionCommitted in *. rewrite Hd2. exact Hpend. }
  split; [exact Hfull|]. split; [exact Hidx|]. split.
  { rewrite Hdrawer. apply andb_false_iff. right. apply Z.ltb_ge.
    subst N. lia. }
  rewrite Hsave, Hc2, Hcalls. unfold saveCallOf.
  rewrite Harr2, Hfull, <- Hst2, Hrest.
  unfold s2. rewrite incrementRep_startTime, Htime. reflexivity.
Qed.

(** X6: A workout done by hand goes through: with the user known, pressing
    "+1 Rep" for every rep of every set and "Continue" after every set
    but the last fills every set to its target, ends on the last set
    with no rest drawer, and saves the workout exactly once, with the
    targets, the full sets and the time since the screen was mounted. *)
Theorem manual_workout_is_saved :
  forall (p : Params) (now t : Z) (c : ascii) (u : string),
    1 <= sets p -> 1 <= reps p ->
    let user := String c u in
    let x := run p (UserResolved user :: Rendered t :: Manual.workout t p)
               (start p now) in
    repsArray (session x) = replicate (Z.to_nat (sets p)) (reps p)
    /\ currentSetIndex (state (session x)) = (Z.to_nat (sets p) - 1)%nat
    /\ showRestDrawer (state (session x)) = false
    /\ saveWorkoutCalls (session x) =
       [{| w_machineName := machineName p;
           w_sets := sets p;
           w_reps := reps p;
           w_setRepsCompleted := replicate (Z.to_nat (sets p)) (reps p);
           w_setRestTimes := replicate (Z.to_nat (sets p)) 0;
           w_duration := (t - now) / 1000;
           w_userId := user |}].
Proof.
  intros p now t c u Hsets Hreps user x.
  destruct (manual_reaches_last_tap p now t c u Hsets Hreps)
    as (x2 & Hx & Hlast & Htime).
  fold user in Hx, Hlast.
  assert (Hrun : x = run p (Manual.tap t) x2) by exact Hx.
  rewrite Hrun.
  apply (last_tap_saves p now t c u x2 Hsets Hreps Hlast Htime).
Qed.

Lemma manual_workout_is_saved_witness :
  saveWorkoutCalls
    (session (run twoByTen
                (UserResolved "u1" :: Rendered 90000
                   :: Manual.workout 90000 twoByTen)
                (start twoByTen 0)))
  = [{| w_machineName := machineName twoByTen;
        w_sets := 2; w_reps := 10;
        w_setRepsCompleted := [10; 10];
        w_setRestTimes := [0; 0];
        w_duration := 90;
        w_userId := "u1" |}].
Proof.
  apply (manual_workout_is_saved twoByTen 0 90000 "u"%char "1"%string);
    vm_compute; discriminate.
Defined.

(** ** The rest clock *)

Lemma ticks_running c nows : forall s,
  RestClock.running c = true ->
  restTimer (state (RestClock.ticks c nows s))
  = match last nows with
    | Some now => (now - RestClock.restStartTimeRef c) / 1000
    | None => restTimer (state s)
    end
  /\ currentSetIndex (state (RestClock.ticks c nows s))
     = currentSetIndex (state s)
  /\ setRestTimes (state (RestClock.ticks c nows s)) = setRestTimes (state s)
  /\ setRepsCompleted (state (RestClock.ticks c nows s))
     = setRepsCompleted (state s).
Proof.
  induction nows as [|now nows IH] using rev_ind; intros s Hrun.
  - simpl. auto.
  - unfold RestClock.ticks in *. rewrite fold_left_app. simpl.
    rewrite last_snoc. unfold RestClock.tick at 1 3 5 7. rewrite Hrun.
    simpl. destruct (IH s Hrun) as (_ & H2 & H3 & H4). auto.
Qed.

(** X7: The rest time recorded for a set is what the rest clock last showed:
    the whole seconds between the commit that opened the rest drawer and
    the last tick before "Continue" (0 when none came); the reps and
    the rest times of the other sets are kept. *)
Theorem rest_time_is_recorded :
  forall (p : Params) (c0 : RestClock.Clock) (s : Session)
         (opened : Z) (nows : list Z),
    showRestDrawer (state s) = true ->
    (currentSetIndex (state s) < length (elems (setRestTimes (state s))))%nat ->
    let '(c, s1) := RestClock.restEffect (bind p s) opened c0 s in
    let s2 := RestClock.ticks c nows s1 in
    let s3 := continueToNextSet p (bind p s2) s2 in
    let rested := (default opened (last nows) - opened) / 1000 in
    elems (setRestTimes (state s3))
    = <[currentSetIndex (state s) := rested]> (elems (setRestTimes (state s)))
    /\ repsArray s3 = repsArray s
    /\ currentSetIndex (state s3) = S (currentSetIndex (state s))
    /\ showRestDrawer (state s3) = false.
Proof.
  intros p c0 s opened nows Hopen Hidx.
  unfold RestClock.restEffect.
  change (r_showRestDrawer (bind p s)) with (showRestDrawer (state s)).
  rewrite Hopen.
  set (c := {| RestClock.restStartTimeRef := opened;
               RestClock.running := true |}).
  set (s1 := RestClock.setRestTimer 0 s).
  destruct (ticks_running c nows s1 eq_refl) as (Ht & Hi & Hr & Ha).
  set (s2 := RestClock.ticks c nows s1) in *.
  cbn zeta.
  change (elems (setRestTimes (state (continueToNextSet p (bind p s2) s2))))
    with (assign (currentSetIndex (state s2)) (restTimer (state s2))
            (elems (setRestTimes (state s2)))).
  change (repsArray (continueToNextSet p (bind p s2) s2))
    with (elems (setRepsCompleted (state s2))).
  change (currentSetIndex (state (continueToNextSet p (bind p s2) s2)))
    with (S (currentSetIndex (state s2))).
  rewrite Ht, Hi, Hr, Ha.
  change (currentSetIndex (state s1)) with (currentSetIndex (state s)).
  change (setRestTimes (state s1)) with (setRestTimes (state s)).
  repeat split.
  unfold assign. rewrite bool_decide_eq_true_2 by exact Hidx.
  f_equal. destruct (last nows) as [now|]; simpl; [reflexivity|].
  rewrite Z.sub_diag. reflexivity.
Qed.

Lemma rest_time_is_recorded_witness :
  let s := setShowRestDrawer true (mount twoByTen 0) in
  let '(c, s1) := RestClock.restEffect (bind twoByTen s) 5000
                    {| RestClock.restStartTimeRef := 0;
                       RestClock.running := false |} s in
  let s2 := RestClock.ticks c [6000; 7000; 17500] s1 in
  elems (setRestTimes (state (continueToNextSet twoByTen (bind twoByTen s2) s2)))
  = [12; 0].
Proof.
  apply (rest_time_is_recorded twoByTen
           {| RestClock.restStartTimeRef := 0; RestClock.running := false |}
           (setShowRestDrawer true (mount twoByTen 0)) 5000
           [6000; 7000; 17500]);
    [reflexivity|vm_compute; lia].
Defined.

(** Once the rest drawer has closed the clock is stopped: a tick that
    still arrives changes nothing. *)
Lemma closed_drawer_stops_clock p c s now later :
  showRestDrawer (state s) = false ->
  let '(c', s') := RestClock.restEffect (bind p s) now c s in
  s' = s /\ RestClock.tick c' later s' = s.
Proof.
  intros Hclosed. unfold RestClock.restEffect.
  change (r_showRestDrawer (bind p s)) with (showRestDrawer (state s)).
  rewrite Hclosed. split; reflexivity.
Qed.

(** ** The workout history *)

Lemma insertNewest_perm w l : Permutation (Storage.insertNewest w l) (w :: l).
Proof.
  induction l as [|x l IH]; simpl; [reflexivity|].
  destruct (_ <=? _); [reflexivity|].
  rewrite IH. apply perm_swap.
Qed.

Lemma sortNewestFirst_perm l : Permutation (Storage.sortNewestFirst l) l.
Proof.
  unfold Storage.sortNewestFirst.
  induction l as [|w l IH]; simpl; [reflexivity|].
  rewrite insertNewest_perm, IH. reflexivity.
Qed.

Lemma insertNewest_sorted w l :
  Sorted Storage.newerFirst l -> Sorted Storage.newerFirst (Storage.insertNewest w l).
Proof.
  induction l as [|x l IH]; intros Hs; simpl.
  - constructor; constructor.
  - destruct (Storage.completedAt x <=? Storage.completedAt w) eqn:Hc.
    + constructor; [exact Hs|]. constructor.
      unfold Storage.newerFirst. lia.
    + apply Sorted_inv in Hs as [Hs Hhd].
      constructor; [apply IH; exact Hs|].
      destruct l as [|y l]; simpl.
      * constructor. unfold Storage.newerFirst. lia.
      * destruct (Storage.completedAt y <=? Storage.completedAt w).
        -- constructor. unfold Storage.newerFirst. lia.
        -- constructor. apply HdRel_inv in Hhd. exact Hhd.
Qed.

Lemma sortNewestFirst_sorted l :
  Sorted Storage.newerFirst (Storage.sortNewestFirst l).
Proof.
  unfold Storage.sortNewestFirst.
  induction l as [|w l IH]; simpl; [constructor|].
  apply insertNewest_sorted. exact IH.
Qed.

(** A record more recent than all the others comes out first. *)
Lemma sortNewestFirst_latest w l :
  Forall (fun x => Storage.completedAt x < Storage.completedAt w) l ->
  Storage.sortNewestFirst (l ++ [w]) = w :: Storage.sortNewestFirst l.
Proof.
  unfold Storage.sortNewestFirst.
  induction l as [|x l IH]; intros Hall; [reflexivity|].
  apply Forall_cons in Hall as [Hx Hall]. simpl.
  rewrite (IH Hall). simpl.
  replace (Storage.completedAt w <=? Storage.completedAt x) with false
    by (symmetry; apply Z.leb_gt; lia).
  reflexivity.
Qed.

Lemma read_after_write ws d :
  Storage.writable d = true ->
  Storage.readWorkouts (Storage.writeWorkouts ws d) = ws.
Proof.
  unfold Storage.writable, Storage.readWorkouts, Storage.writeWorkouts.
  destruct (Storage.os d) eqn:Hos.
  - intros _. reflexivity.
  - intros Hbase. rewrite Hbase. simpl. reflexivity.
Qed.

Lemma read_after_save c newId now d :
  Storage.writable d = true ->
  Storage.readWorkouts (Storage.saveWorkout c newId now d)
  = Storage.readWorkouts d ++ [Storage.newWorkout c newId now].
Proof. intros Hw. unfold Storage.saveWorkout. apply read_after_write, Hw. Qed.

(** X8: The history a user sees: their own workouts and no others, each as
    often as it is stored, the most recent first. *)
Theorem history_is_own_and_sorted :
  forall (user : string) (d : Storage.Disk),
    let shown := Storage.getWorkouts user d in
    Sorted Storage.newerFirst shown
    /\ Permutation shown
         (List.filter (fun w => String.eqb (Storage.userId w) user)
            (Storage.readWorkouts d))
    /\ forall w, In w shown
                 <-> In w (Storage.readWorkouts d) /\ Storage.userId w = user.
Proof.
  intros user d shown. subst shown. unfold Storage.getWorkouts.
  split; [apply sortNewestFirst_sorted|].
  split; [apply sortNewestFirst_perm|].
  intros w. split.
  - intros Hin. apply (Permutation_in _ (sortNewestFirst_perm _)) in Hin.
    apply List.filter_In in Hin as [Hin Hu]. apply String.eqb_eq in Hu. auto.
  - intros [Hin Hu].
    apply (Permutation_in _ (Permutation_sym (sortNewestFirst_perm _))).
    apply List.filter_In. split; [exact Hin|apply String.eqb_eq; exact Hu].
Qed.

(** The records the history of [user] is read from, after a save. *)
Lemma own_records_after_save c newId now d user :
  Storage.writable d = true ->
  List.filter (fun w => String.eqb (Storage.userId w) user)
    (Storage.readWorkouts (Storage.saveWorkout c newId now d))
  = List.filter (fun w => String.eqb (Storage.userId w) user)
      (Storage.readWorkouts d)
    ++ (if String.eqb (w_userId c) user
        then [Storage.newWorkout c newId now] else []).
Proof.
  intros Hw. rewrite read_after_save by exact Hw.
  rewrite List.filter_app. reflexivity.
Qed.

(** X9: Saving a workout on a device that keeps what is written adds it to
    the history of its user and to no other: the histories of the other
    users are as before, the user's own history gains exactly the new
    record, and shows it first when it is more recent than everything
    stored. *)
Theorem save_extends_own_history :
  forall (c : SaveCall) (newId : string) (now : Z) (d : Storage.Disk)
         (other : string),
    Storage.writable d = true ->
    let new := Storage.newWorkout c newId now in
    let d' := Storage.saveWorkout c newId now d in
    (other <> w_userId c ->
     Storage.getWorkouts other d' = Storage.getWorkouts other d)
    /\ Permutation (Storage.getWorkouts (w_userId c) d')
         (new :: Storage.getWorkouts (w_userId c) d)
    /\ (Forall (fun w => Storage.completedAt w < now) (Storage.readWorkouts d) ->
        Storage.getWorkouts (w_userId c) d'
        = new :: Storage.getWorkouts (w_userId c) d).
Proof.
  intros c newId now d other Hw new d'. subst d'.
  unfold Storage.getWorkouts.
  rewrite !own_records_after_save by exact Hw. fold new.
  rewrite String.eqb_refl.
  split; [|split].
  - intros Hne. apply not_eq_sym, String.eqb_neq in Hne. rewrite Hne.
    rewrite app_nil_r. reflexivity.
  - rewrite !sortNewestFirst_perm.
    rewrite Permutation_app_comm. reflexivity.
  - intros Hold. apply sortNewestFirst_latest.
    rewrite List.Forall_forall in *. intros w Hin.
    apply List.filter_In in Hin as [Hin _]. apply (Hold w Hin).
Qed.

Lemma save_extends_own_history_witness :
  let c := {| w_machineName := "Leg Press"; w_sets := 2; w_reps := 10;
              w_setRepsCompleted := [10; 10]; w_setRestTimes := [30; 0];
              w_duration := 95; w_userId := "u1" |} in
  let old := Storage.newWorkout c "w0" 1000 in
  let d := {| Storage.os := Storage.native; Storage.base := true;
              Storage.content := Storage.Stored [old] |} in
  Storage.getWorkouts "u1" (Storage.saveWorkout c "w1" 2000 d)
  = [Storage.newWorkout c "w1" 2000; old].
Proof.
  apply (save_extends_own_history
           {| w_machineName := "Leg Press"; w_sets := 2; w_reps := 10;
              w_setRepsCompleted := [10; 10]; w_setRestTimes := [30; 0];
              w_duration := 95; w_userId := "u1" |} "w1" 2000
           {| Storage.os := Storage.native; Storage.base := true;
              Storage.content :=
                Storage.Stored
                  [Storage.newWorkout
                     {| w_machineName := "Leg Press"; w_sets := 2;
                        w_reps := 10; w_setRepsCompleted := [10; 10];
                        w_setRestTimes := [30; 0]; w_duration := 95;
                        w_userId := "u1" |} "w0" 1000] |} "u2").
  - reflexivity.
  - repeat constructor.
Defined.

Lemma history_is_own_and_sorted_witness :
  let c := {| w_machineName := "Leg Press"; w_sets := 2; w_reps := 10;
              w_setRepsCompleted := [10; 10]; w_setRestTimes := [30; 0];
              w_duration := 95; w_userId := "u1" |} in
  let d := {| Storage.os := Storage.web; Storage.base := false;
              Storage.content :=
                Storage.Stored [Storage.newWorkout c "w0" 1000;
                                Storage.newWorkout c "w1" 3000] |} in
  Sorted Storage.newerFirst (Storage.getWorkouts "u1" d).
Proof.
  apply (history_is_own_and_sorted "u1"
           {| Storage.os := Storage.web; Storage.base := false;
              Storage.content :=
                Storage.Stored
                  [Storage.newWorkout
                     {| w_machineName := "Leg Press"; w_sets := 2;
                        w_reps := 10; w_setRepsCompleted := [10; 10];
                        w_setRestTimes := [30; 0]; w_duration := 95;
                        w_userId := "u1" |} "w0" 1000;
                   Storage.newWorkout
                     {| w_machineName := "Leg Press"; w_sets := 2;
                        w_reps := 10; w_setRepsCompleted := [10; 10];
                        w_setRestTimes := [30; 0]; w_duration := 95;
                        w_userId := "u1" |} "w1" 3000] |}).
Defined.

(** X10: Where a save is lost or loses data: on a device without a document
    or cache directory [saveWorkout] returns normally and stores
    nothing, so the history stays empty; and on a device whose stored
    text does not parse, the save replaces it by the new workout
    alone. *)
Theorem save_on_odd_storage :
  forall (c : SaveCall) (newId user : string) (now : Z) (d : Storage.Disk),
    let d' := Storage.saveWorkout c newId now d in
    (Storage.writable d = false ->
     d' = d /\ Storage.getWorkouts user d' = [])
    /\ (Storage.writable d = true ->
        Storage.content d = Storage.Unreadable ->
        Storage.content d' = Storage.Stored [Storage.newWorkout c newId now]).
Proof.
  intros c newId user now d d'. subst d'.
  unfold Storage.saveWorkout, Storage.getWorkouts, Storage.writeWorkouts,
    Storage.readWorkouts, Storage.writable.
  destruct (Storage.os d) eqn:Hos; split; try discriminate.
  - intros _ Hc. rewrite Hc. reflexivity.
  - intros Hb. rewrite Hb, Hos, Hb. split; reflexivity.
  - intros Hb Hc. rewrite Hb, Hc. reflexivity.
Qed.

Lemma save_on_odd_storage_witness :
  let c := {| w_machineName := "Leg Press"; w_sets := 2; w_reps := 10;
              w_setRepsCompleted := [10; 10]; w_setRestTimes := [30; 0];
              w_duration := 95; w_userId := "u1" |} in
  let d := {| Storage.os := Storage.native; Storage.base := false;
              Storage.content := Storage.Missing |} in
  Storage.saveWorkout c "w1" 2000 d = d
  /\ Storage.getWorkouts "u1" (Storage.saveWorkout c "w1" 2000 d) = [].
Proof.
  apply (save_on_odd_storage
           {| w_machineName := "Leg Press"; w_sets := 2; w_reps := 10;
              w_setRepsCompleted := [10; 10]; w_setRestTimes := [30; 0];
              w_duration := 95; w_userId := "u1" |} "w1" "u1" 2000
           {| Storage.os := Storage.native; Storage.base := false;
              Storage.content := Storage.Missing |}).
  reflexivity.
Defined.

Lemma total_replicate n r : Display.total (replicate n r) = Z.of_nat n * r.
Proof.
  unfold Display.total.
  enough (forall acc, fold_left Z.add (replicate n r) acc
                      = acc + Z.of_nat n * r) as Hgen
    by (rewrite Hgen; lia).
  induction n as [|n IH]; intros acc; [simpl; lia|].
  change (replicate (S n) r) with (r :: replicate n r).
  simpl fold_left. rewrite IH. lia.
Qed.

(** X11: From the last press to the history screen: the workout a session
    done by hand saves is, once stored on a device that keeps what is
    written and whose records are all older, the first line of the
    user's history, with the targets of the session, [sets * reps]
    total reps and the duration of the session. *)
Theorem manual_workout_reaches_history :
  forall (p : Params) (now t saved : Z) (c : ascii) (u newId : string)
         (d : Storage.Disk),
    1 <= sets p -> 1 <= reps p ->
    Storage.writable d = true ->
    Forall (fun w => Storage.completedAt w < saved) (Storage.readWorkouts d) ->
    let user := String c u in
    let x := run p (UserResolved user :: Rendered t :: Manual.workout t p)
               (start p now) in
    exists call w,
      saveWorkoutCalls (session x) = [call]
      /\ Storage.getWorkouts user (Storage.saveWorkout call newId saved d)
         = w :: Storage.getWorkouts user d
      /\ Storage.machineName w = machineName p
      /\ Storage.sets w = sets p
      /\ Storage.reps w = reps p
      /\ Storage.totalReps w = sets p * reps p
      /\ Storage.duration w = Some ((t - now) / 1000)
      /\ Storage.completedAt w = saved.
Proof.
  intros p now t saved c u newId d Hsets Hreps Hw Hold user x.
  destruct (manual_reaches_last_tap p now t c u Hsets Hreps)
    as (x2 & Hx & Hlast & Htime).
  fold user in Hx, Hlast.
  assert (Hrun : x = run p (Manual.tap t) x2) by exact Hx.
  destruct (last_tap_saves p now t c u x2 Hsets Hreps Hlast Htime)
    as (_ & _ & _ & Hcalls).
  fold user in Hcalls. rewrite <- Hrun in Hcalls.
  set (call := {| w_machineName := machineName p; w_sets := sets p;
                  w_reps := reps p;
                  w_setRepsCompleted := replicate (Z.to_nat (sets p)) (reps p);
                  w_setRestTimes := replicate (Z.to_nat (sets p)) 0;
                  w_duration := (t - now) / 1000;
                  w_userId := user |}) in *.
  exists call, (Storage.newWorkout call newId saved).
  split; [exact Hcalls|]. split.
  - unfold Storage.getWorkouts.
    rewrite own_records_after_save by exact Hw.
    change (w_userId call) with user. rewrite String.eqb_refl.
    apply sortNewestFirst_latest.
    rewrite List.Forall_forall in *. intros w Hin.
    apply List.filter_In in Hin as [Hin _]. apply (Hold w Hin).
  - repeat split; try reflexivity.
    unfold Storage.totalReps.
    change (Storage.setRepsCompleted (Storage.newWorkout call newId saved))
      with (replicate (Z.to_nat (sets p)) (reps p)).
    rewrite total_replicate, Z2Nat.id by lia. reflexivity.
Qed.

Lemma manual_workout_reaches_history_witness :
  exists call w,
    saveWorkoutCalls
      (session (run twoByTen
                  (UserResolved "u1" :: Rendered 90000
                     :: Manual.workout 90000 twoByTen)
                  (start twoByTen 0))) = [call]
    /\ Storage.getWorkouts "u1"
         (Storage.saveWorkout call "w1" 5000
            {| Storage.os := Storage.web; Storage.base := false;
               Storage.content := Storage.Missing |})
       = w :: Storage.getWorkouts "u1"
                {| Storage.os := Storage.web; Storage.base := false;
                   Storage.content := Storage.Missing |}
    /\ Storage.totalReps w = 20.
Proof.
  destruct (manual_workout_reaches_history twoByTen 0 90000 5000
              "u"%char "1"%string "w1"%string
              {| Storage.os := Storage.web; Storage.base := false;
                 Storage.content := Storage.Missing |}
              ltac:(vm_compute; discriminate) ltac:(vm_compute; discriminate)
              eq_refl ltac:(constructor))
    as (call & w & H1 & H2 & _ & _ & _ & H3 & _).
  exists call, w. repeat split; assumption.
Defined.

(** ** The connection hook *)

Section HookFacts.

Context {Manager : Type}.
Variable sensorName : string.
Variable sensorMac : option string.

Implicit Types (h : Hook.Hook Manager) (evs : list (Hook.Event Manager)).

Lemma hook_run_snoc evs e h :
  Hook.run sensorName sensorMac (evs ++ [e]) h
  = Hook.step sensorName sensorMac e (Hook.run sensorName sensorMac evs h).
Proof. unfold Hook.run. rewrite fold_left_app. reflexivity. Qed.

Lemma sound_weaken evs e h :
  Hook.sound sensorName sensorMac evs h ->
  Hook.sound sensorName sensorMac (evs ++ [e]) h.
Proof.
  intros (Ha & Hd & Hc & Hw & Hp & Hf).
  repeat split; try assumption; try (apply Hc; assumption).
  - apply (Hd d H).
  - destruct (Hd d H) as [_ (uuids & Hin & Hs)].
    exists uuids. split; [apply in_or_app; left; exact Hin|exact Hs].
Qed.

Lemma step_sound evs e h :
  Hook.sound sensorName sensorMac evs h ->
  Hook.sound sensorName sensorMac (evs ++ [e])
    (Hook.step sensorName sensorMac e h).
Proof.
  intros Hsound. pose proof (sound_weaken evs e h Hsound) as Hweak.
  destruct Hsound as (Ha & Hd & Hc & Hw & Hp & Hf).
  pose proof Hweak as (_ & Hd' & _).
  destruct e as [made|state|message|err d| |outcome]; simpl.
  - (* connect *)
    unfold Hook.connect.
    destruct (Hook.connectInFlightRef h) eqn:Hfl; [exact Hweak|].
    destruct (Hook.manager h) as [m|] eqn:Hm; [|destruct made as [m|message]];
      unfold Hook.sound; simpl; repeat split; try discriminate; eauto.
  - (* the adapter phase ends *)
    unfold Hook.adapterSettled.
    destruct (Hook.awaitingAdapter h) eqn:Haw; [|exact Hweak].
    destruct state; unfold Hook.sound, Hook.fail; simpl;
      repeat split; try discriminate; try assumption;
      try (eapply proj1, Hd'; eassumption);
      try (eapply proj2, Hd'; eassumption); eauto.
  - (* the adapter phase throws *)
    unfold Hook.adapterThrew.
    destruct (Hook.awaitingAdapter h) eqn:Haw; [|exact Hweak].
    unfold Hook.sound, Hook.fail; simpl;
      repeat split; try discriminate; try assumption;
      try (eapply proj1, Hd'; eassumption);
      try (eapply proj2, Hd'; eassumption); eauto.
  - (* the scan callback *)
    unfold Hook.scanned.
    destruct (Hook.listening h); [|exact Hweak]. simpl.
    destruct (Hook.connectInFlightRef h) eqn:Hfl; [|exact Hweak]. simpl.
    destruct err as [message|].
    + unfold Hook.sound, Hook.fail; simpl;
        repeat split; try discriminate; try assumption;
        try (eapply proj1, Hd'; eassumption);
      try (eapply proj2, Hd'; eassumption); eauto.
    + destruct d as [p|]; [|exact Hweak].
      destruct (matches _ _ (Some p)) eqn:Hmatch; [|exact Hweak].
      unfold Hook.sound; simpl.
      repeat split; try discriminate; try assumption;
        try (eapply proj1, Hd'; eassumption);
      try (eapply proj2, Hd'; eassumption); eauto.
      apply Forall_app. split; [exact Ha|].
      constructor; [exact Hmatch|constructor].
  - (* the timer *)
    unfold Hook.timedOut.
    destruct (Hook.scanTimeoutRef h); [|exact Hweak].
    destruct (Hook.connectInFlightRef h) eqn:Hfl;
      unfold Hook.sound, Hook.fail; simpl;
      repeat split; try discriminate; try assumption;
      try (eapply proj1, Hd'; eassumption);
      try (eapply proj2, Hd'; eassumption); try (apply Hc; assumption); eauto.
  - (* a connection attempt ends *)
    unfold Hook.attempted.
    destruct (Hook.attempting h) as [|p rest] eqn:Hatt; [exact Hweak|].
    assert (Hmgr : is_Some (Hook.manager h)) by (apply Hp; discriminate).
    apply Forall_cons in Ha as [Hpm Hrest].
    destruct outcome as [message|uuids];
      [|destruct (Hook.hasService uuids) eqn:Hsvc];
      unfold Hook.sound; simpl;
      repeat split; try discriminate; try assumption;
      try (eapply proj1, Hd'; eassumption);
      try (eapply proj2, Hd'; eassumption); eauto.
    + match goal with Hdev : Some _ = Some _ |- _ => injection Hdev as <- end.
      exact Hpm.
    + exists uuids. split; [|exact Hsvc].
      apply in_or_app. right. left. reflexivity.
Qed.

Lemma run_sound evs :
  Hook.sound sensorName sensorMac evs
    (Hook.run sensorName sensorMac evs (@Hook.initial Manager)).
Proof.
  induction evs as [|e evs IH] using rev_ind.
  - unfold Hook.sound. simpl.
    repeat split; try discriminate; try constructor; try congruence.
  - rewrite hook_run_snoc. apply step_sound. exact IH.
Qed.

(** X12: Whenever the hook reports a connection, it holds a device and a
    manager, the device is a peripheral that matched the target, and a
    connection attempt found the expected service; this holds whatever
    the order of calls, adapter answers, advertisements, timeouts and
    attempt outcomes. *)
Theorem connected_sensor_is_the_target :
  forall evs,
    let h := Hook.run sensorName sensorMac evs (@Hook.initial Manager) in
    Hook.status h = Hook.Connected ->
    exists d m uuids,
      Hook.device h = Some d /\ Hook.manager h = Some m
      /\ matches (Hook.targetName sensorName) (Hook.targetMac sensorMac)
           (Some d) = true
      /\ In (Hook.Attempted (Hook.Discovered uuids)) evs
      /\ Hook.hasService uuids = true.
Proof.
  intros evs h Hconn.
  destruct (run_sound evs) as (_ & Hd & Hc & _). fold h in Hd, Hc.
  destruct (Hc Hconn) as [[d Hdev] [m Hm]].
  destruct (Hd d Hdev) as [Hmatch (uuids & Hin & Hsvc)].
  exists d, m, uuids. auto.
Qed.

Lemma step_attempts evs e h :
  (length (Hook.connectCalls h)
   + (if Hook.connectInFlightRef h then 1 else 0) <= Hook.connects evs)%nat ->
  (length (Hook.connectCalls (Hook.step sensorName sensorMac e h))
   + (if Hook.connectInFlightRef (Hook.step sensorName sensorMac e h)
      then 1 else 0)
   <= Hook.connects (evs ++ [e]))%nat.
Proof.
  intros Hle.
  assert (Hmono : (Hook.connects evs <= Hook.connects (evs ++ [e]))%nat).
  { unfold Hook.connects. rewrite List.filter_app, length_app. lia. }
  destruct e as [made|state|message|err d| |outcome]; simpl.
  - unfold Hook.connects in *. rewrite List.filter_app, length_app. simpl.
    unfold Hook.connect.
    destruct (Hook.connectInFlightRef h) eqn:Hfl; [rewrite Hfl; lia|].
    destruct (Hook.manager h); [|destruct made]; simpl; lia.
  - unfold Hook.adapterSettled.
    destruct (Hook.awaitingAdapter h); [|lia].
    destruct state, (Hook.connectInFlightRef h); simpl in *; lia.
  - unfold Hook.adapterThrew.
    destruct (Hook.awaitingAdapter h); [|lia].
    destruct (Hook.connectInFlightRef h); simpl in *; lia.
  - unfold Hook.scanned.
    destruct (Hook.listening h); simpl; [|lia].
    destruct (Hook.connectInFlightRef h) eqn:Hfl; simpl; [|rewrite Hfl; lia].
    destruct err; simpl; [lia|].
    destruct d; [|rewrite Hfl; lia].
    destruct (matches _ _ _); simpl; [|rewrite Hfl; lia].
    rewrite length_app. simpl. lia.
  - unfold Hook.timedOut.
    destruct (Hook.scanTimeoutRef h); [|lia].
    destruct (Hook.connectInFlightRef h); simpl in *; lia.
  - unfold Hook.attempted.
    destruct (Hook.attempting h); [lia|].
    destruct outcome as [?|uuids]; [|destruct (Hook.hasService uuids)];
      destruct (Hook.connectInFlightRef h); simpl in *; lia.
Qed.

(** X13: A call of [connect()] leads to one connection attempt at most:
    however many advertisements of the sensor arrive, the calls of
    [d.connect()] never outnumber the calls of [connect()]. *)
Theorem one_attempt_per_connect :
  forall evs,
    (length (Hook.connectCalls
               (Hook.run sensorName sensorMac evs (@Hook.initial Manager)))
     <= Hook.connects evs)%nat.
Proof.
  intros evs.
  enough (length (Hook.connectCalls
                    (Hook.run sensorName sensorMac evs (@Hook.initial Manager)))
          + (if Hook.connectInFlightRef
                  (Hook.run sensorName sensorMac evs (@Hook.initial Manager))
             then 1 else 0) <= Hook.connects evs)%nat by lia.
  induction evs as [|e evs IH] using rev_ind; [simpl; lia|].
  rewrite hook_run_snoc. apply step_attempts. exact IH.
Qed.

(** While a scan is on, the peripherals that are not the sensor are
    ignored. *)
Lemma strangers_ignored evs : forall h,
  Hook.listening h = true -> Hook.connectInFlightRef h = true ->
  Forall (Hook.stranger sensorName sensorMac) evs ->
  Hook.run sensorName sensorMac evs h = h.
Proof.
  induction evs as [|e evs IH]; intros h Hl Hf Hall; [reflexivity|].
  apply Forall_cons in Hall as [He Hall].
  change (Hook.run sensorName sensorMac (e :: evs) h)
    with (Hook.run sensorName sensorMac evs (Hook.step sensorName sensorMac e h)).
  assert (Hstep : Hook.step sensorName sensorMac e h = h).
  { destruct e as [| | |[|] d| |]; simpl in He; try contradiction.
    simpl. unfold Hook.scanned. rewrite Hl, Hf. simpl.
    destruct d; [|reflexivity]. rewrite He. reflexivity. }
  rewrite Hstep. apply IH; assumption.
Qed.

(** X14: A scan that the sensor does not answer ends when the timer fires:
    the peripherals seen meanwhile change nothing, the hook reports that
    the sensor was not found, no connection is attempted, and whatever
    the scan still delivers afterwards is ignored. *)
Theorem unanswered_scan_times_out :
  forall h evs err d,
    Hook.listening h = true -> Hook.connectInFlightRef h = true ->
    Hook.scanTimeoutRef h = true ->
    Forall (Hook.stranger sensorName sensorMac) evs ->
    let h' := Hook.run sensorName sensorMac (evs ++ [Hook.TimedOut]) h in
    Hook.status h' = Hook.Error
    /\ Hook.error h' = Some "Sensor not found. Make sure it's on and nearby."%string
    /\ Hook.device h' = Hook.device h
    /\ Hook.connectCalls h' = Hook.connectCalls h
    /\ Hook.step sensorName sensorMac (Hook.Scanned err d) h' = h'
    /\ Hook.step sensorName sensorMac Hook.TimedOut h' = h'.
Proof.
  intros h evs err d Hl Hf Ht Hall h'. subst h'.
  rewrite hook_run_snoc, (strangers_ignored evs h Hl Hf Hall).
  simpl. unfold Hook.timedOut. rewrite Ht, Hf.
  repeat split. simpl. unfold Hook.scanned. simpl.
  destruct (negb (Hook.listening h)); reflexivity.
Qed.

(** X15: The way to a connection: with the adapter powered on, the first
    advertisement of the sensor, whatever other peripherals were seen
    before it, starts the one connection attempt, and when that finds
    the expected service the hook reports the sensor as connected. *)
Theorem sensor_found_connects :
  forall h made evs d uuids,
    Hook.connectInFlightRef h = false ->
    Hook.attempting h = [] ->
    (is_Some (Hook.manager h) \/ exists m, made = inl m) ->
    Forall (Hook.stranger sensorName sensorMac) evs ->
    matches (Hook.targetName sensorName) (Hook.targetMac sensorMac) (Some d)
    = true ->
    Hook.hasService uuids = true ->
    let h' :=
      Hook.run sensorName sensorMac
        ([Hook.Connect made; Hook.AdapterSettled Hook.PoweredOn] ++ evs
         ++ [Hook.Scanned None (Some d);
             Hook.Attempted (Hook.Discovered uuids)]) h in
    Hook.status h' = Hook.Connected
    /\ Hook.device h' = Some d
    /\ is_Some (Hook.manager h')
    /\ Hook.error h' = None
    /\ Hook.connectCalls h' = Hook.connectCalls h ++ [d]
    /\ Hook.connectInFlightRef h' = false.
Proof.
  intros h made evs d uuids Hfl Hatt Hmgr Hall Hmatch Hsvc h'. subst h'.
  set (h1 := Hook.adapterSettled Hook.PoweredOn (Hook.connect made h)).
  assert (H1 : Hook.listening h1 = true /\ Hook.connectInFlightRef h1 = true
               /\ Hook.attempting h1 = [] /\ Hook.error h1 = None
               /\ is_Some (Hook.manager h1)
               /\ Hook.connectCalls h1 = Hook.connectCalls h).
  { subst h1. unfold Hook.connect. rewrite Hfl.
    destruct (Hook.manager h) as [m|] eqn:Hm.
    - simpl. repeat split; eauto.
    - destruct Hmgr as [[m Hmgr]|[m ->]]; [discriminate|].
      simpl. repeat split; eauto. }
  destruct H1 as (Hl1 & Hf1 & Ha1 & He1 & Hm1 & Hc1).
  change (Hook.run sensorName sensorMac
            ([Hook.Connect made; Hook.AdapterSettled Hook.PoweredOn] ++ evs
             ++ [Hook.Scanned None (Some d);
                 Hook.Attempted (Hook.Discovered uuids)]) h)
    with (Hook.run sensorName sensorMac
            (evs ++ [Hook.Scanned None (Some d);
                     Hook.Attempted (Hook.Discovered uuids)]) h1).
  unfold Hook.run. rewrite fold_left_app.
  fold (Hook.run sensorName sensorMac evs h1).
  rewrite (strangers_ignored evs h1 Hl1 Hf1 Hall).
  change (fold_left _ [Hook.Scanned None (Some d);
                       Hook.Attempted (Hook.Discovered uuids)] h1)
    with (Hook.attempted (Hook.Discovered uuids)
            (Hook.scanned sensorName sensorMac None (Some d) h1)).
  unfold Hook.scanned. rewrite Hl1, Hf1. cbn [negb]. rewrite Hmatch.
  unfold Hook.attempted. cbn [Hook.attempting]. rewrite Ha1. cbn [app].
  rewrite Hsvc. cbn [Hook.status Hook.device Hook.manager Hook.error
                     Hook.connectCalls Hook.connectInFlightRef].
  rewrite Hc1. repeat split; assumption.
Qed.

(** X16: What the session screen takes over from the connecting screen is
    the sensor: a handoff is published only for a hook that reports a
    connection and a route that names a machine, and the device it
    carries matched the target and offered the expected service. *)
Theorem handoff_carries_the_target :
  forall evs machine d m,
    let h := Hook.run sensorName sensorMac evs (@Hook.initial Manager) in
    let store := Hook.publish sensorName sensorMac machine h initialState in
    pending store = Some (d, m) ->
    Hook.status h = Hook.Connected
    /\ Hook.device h = Some d /\ Hook.manager h = Some m
    /\ matches (Hook.targetName sensorName) (Hook.targetMac sensorMac)
         (Some d) = true
    /\ (exists uuids, In (Hook.Attempted (Hook.Discovered uuids)) evs
                      /\ Hook.hasService uuids = true)
    /\ (exists label, machine = Some label /\ nonEmpty (trim label) = true)
    /\ consume store = (Some (d, m), initialState).
Proof.
  intros evs machine d m h store Hpending.
  destruct (run_sound evs) as (_ & Hd & _). fold h in Hd.
  subst store. unfold Hook.publish in *.
  destruct (Hook.status h) eqn:Hst; try discriminate.
  destruct (Hook.device h) as [d'|] eqn:Hdev; try discriminate.
  destruct (Hook.manager h) as [m'|] eqn:Hm; try discriminate.
  destruct machine as [label|]; try discriminate.
  destruct (nonEmpty label && nonEmpty (trim label)) eqn:Hlabel;
    try discriminate.
  apply andb_true_iff in Hlabel as [_ Hlabel].
  unfold pending in Hpending. simpl in Hpending.
  injection Hpending as -> ->.
  destruct (Hd d eq_refl) as [Hmatch Hsvc].
  repeat split; try assumption; try reflexivity.
  exists label. auto.
Qed.

End HookFacts.

(** ** The session's connection effects *)

Section WiringFacts.

Context {Device Manager : Type}.
Context `{EqDecision Device, EqDecision Manager}.
Implicit Types (l : Wiring.Link Device Manager)
  (store : BleConnectionState Device Manager).

(** A commit whose dependencies are those of the previous one runs no
    effect. *)
Lemma commit_settled (v : Wiring.View Device Manager) store l :
  Wiring.mainDeps l = Some (Wiring.mainDepsOf v) ->
  Wiring.retryDeps l = Some (Wiring.retryDepsOf v) ->
  Wiring.commit v (store, l) = (store, l).
Proof.
  intros Hm Hr. unfold Wiring.commit.
  rewrite !bool_decide_eq_true_2 by assumption. reflexivity.
Qed.

(** X17: The handoff is taken and lost at once.  The first commit of a
    session that is neither resting nor complete takes the published
    connection, clears the store and starts a subscription; clearing
    the store changes a dependency of the same effect, so the next
    commit runs its cleanup: the subscription is cancelled, the
    connection is closed, and the screen reports the connection as
    lost; further renders change nothing. *)
Theorem handoff_connection_is_dropped :
  forall (reps : Z) (r : Render) (d : Device) (m : Manager)
         (machine sensorName sensorMac : string)
         (retryManager : option Manager),
    r_showRestDrawer r = false ->
    r_isAllSetsComplete r = false ->
    let store := setPreConnected d m machine sensorName sensorMac initialState in
    let x1 := Wiring.rendered reps r None retryManager (store, Wiring.mounted) in
    let x2 := Wiring.rendered reps r None retryManager x1 in
    let x3 := Wiring.rendered reps r None retryManager x2 in
    (Wiring.sensorStatus (snd x1) = Wiring.Connected
     /\ Wiring.deviceRef (snd x1) = Some d
     /\ Wiring.mainSetup (snd x1) = Some d
     /\ Wiring.cancelled (snd x1) = []
     /\ fst x1 = initialState)
    /\ (Wiring.sensorStatus (snd x2) = Wiring.Error
        /\ Wiring.deviceRef (snd x2) = None
        /\ Wiring.delivering (snd x2) = false
        /\ Wiring.cancelled (snd x2) = [d]
        /\ fst x2 = initialState)
    /\ (Wiring.sensorStatus (snd x3) = Wiring.Error
        /\ Wiring.deviceRef (snd x3) = None
        /\ Wiring.delivering (snd x3) = false
        /\ Wiring.cancelled (snd x3) = [d]
        /\ Wiring.rendered reps r None retryManager x3 = x3).
Proof.
  intros reps r d m machine sensorName sensorMac retryManager Hrest Hall
         store x1 x2 x3.
  assert (H1 : x1 =
    (initialState,
     {| Wiring.sensorStatus := Wiring.Connected; Wiring.hadDeviceRef := true;
        Wiring.deviceRef := Some d; Wiring.bleManagerRef := Some m;
        Wiring.mainSetup := Some d; Wiring.retrySetup := None;
        Wiring.cancelled := [];
        Wiring.mainDeps :=
          Some {| Wiring.m_showRestDrawer := false;
                  Wiring.m_isAllSetsComplete := false;
                  Wiring.m_preConnectedDevice := Some d;
                  Wiring.m_preConnectedManager := Some m;
                  Wiring.m_reps := reps |};
        Wiring.mainCleanup := true;
        Wiring.retryDeps :=
          Some {| Wiring.t_sensorStatus := Wiring.Idle;
                  Wiring.t_retryDevice := None;
                  Wiring.t_retryManager := retryManager;
                  Wiring.t_reps := reps |};
        Wiring.retryCleanup := false |})).
  { subst x1 store. unfold Wiring.rendered, Wiring.commit, Wiring.view.
    cbn [fst snd Wiring.mainDeps Wiring.retryDeps Wiring.mounted].
    rewrite !bool_decide_eq_false_2 by discriminate.
    cbn [negb andb Wiring.mainCleanup Wiring.retryCleanup].
    unfold Wiring.mainBody, Wiring.retryBody, Wiring.mainDepsOf,
      Wiring.retryDepsOf, Wiring.ranMain, Wiring.ranRetry.
    cbn. rewrite Hrest, Hall. reflexivity. }
  assert (H2 : x2 =
    (initialState,
     {| Wiring.sensorStatus := Wiring.Error; Wiring.hadDeviceRef := true;
        Wiring.deviceRef := None; Wiring.bleManagerRef := Some m;
        Wiring.mainSetup := None; Wiring.retrySetup := None;
        Wiring.cancelled := [d];
        Wiring.mainDeps :=
          Some {| Wiring.m_showRestDrawer := false;
                  Wiring.m_isAllSetsComplete := false;
                  Wiring.m_preConnectedDevice := None;
                  Wiring.m_preConnectedManager := None;
                  Wiring.m_reps := reps |};
        Wiring.mainCleanup := false;
        Wiring.retryDeps :=
          Some {| Wiring.t_sensorStatus := Wiring.Connected;
                  Wiring.t_retryDevice := None;
                  Wiring.t_retryManager := retryManager;
                  Wiring.t_reps := reps |};
        Wiring.retryCleanup := false |})).
  { subst x2. rewrite H1. unfold Wiring.rendered, Wiring.commit, Wiring.view.
    cbn [fst snd Wiring.mainDeps Wiring.retryDeps Wiring.sensorStatus
         Wiring.mainDepsOf Wiring.retryDepsOf Wiring.v_showRestDrawer
         Wiring.v_isAllSetsComplete Wiring.v_preConnectedDevice
         Wiring.v_preConnectedManager Wiring.v_sensorStatus
         Wiring.v_retryDevice Wiring.v_retryManager Wiring.v_reps
         Handoff.device Handoff.manager initialState].
    rewrite !bool_decide_eq_false_2 by (intros [=]; congruence).
    cbn [negb andb Wiring.mainCleanup Wiring.retryCleanup].
    unfold Wiring.mainBody, Wiring.retryBody, Wiring.mainDepsOf,
      Wiring.retryDepsOf, Wiring.ranMain, Wiring.ranRetry.
    cbn. rewrite Hrest, Hall. reflexivity. }
  assert (H3 : x3 =
    (initialState,
     {| Wiring.sensorStatus := Wiring.Error; Wiring.hadDeviceRef := true;
        Wiring.deviceRef := None; Wiring.bleManagerRef := Some m;
        Wiring.mainSetup := None; Wiring.retrySetup := None;
        Wiring.cancelled := [d];
        Wiring.mainDeps :=
          Some {| Wiring.m_showRestDrawer := false;
                  Wiring.m_isAllSetsComplete := false;
                  Wiring.m_preConnectedDevice := None;
                  Wiring.m_preConnectedManager := None;
                  Wiring.m_reps := reps |};
        Wiring.mainCleanup := false;
        Wiring.retryDeps :=
          Some {| Wiring.t_sensorStatus := Wiring.Error;
                  Wiring.t_retryDevice := None;
                  Wiring.t_retryManager := retryManager;
                  Wiring.t_reps := reps |};
        Wiring.retryCleanup := false |})).
  { subst x3. rewrite H2. unfold Wiring.rendered, Wiring.commit, Wiring.view.
    cbn [fst snd Wiring.mainDeps Wiring.retryDeps Wiring.sensorStatus
         Wiring.mainDepsOf Wiring.retryDepsOf Wiring.v_showRestDrawer
         Wiring.v_isAllSetsComplete Wiring.v_preConnectedDevice
         Wiring.v_preConnectedManager Wiring.v_sensorStatus
         Wiring.v_retryDevice Wiring.v_retryManager Wiring.v_reps
         Handoff.device Handoff.manager initialState].
    rewrite Hrest, Hall.
    rewrite bool_decide_eq_true_2 by reflexivity.
    rewrite bool_decide_eq_false_2 by (intros [=]).
    cbn [negb andb Wiring.mainCleanup Wiring.retryCleanup].
    unfold Wiring.retryBody. cbn. reflexivity. }
  rewrite H1, H2, H3. cbn [fst snd].
  repeat split; try reflexivity.
  unfold Wiring.rendered. apply commit_settled;
    unfold Wiring.view, Wiring.mainDepsOf, Wiring.retryDepsOf;
    cbn; rewrite ?Hrest, ?Hall; reflexivity.
Qed.

Ltac wiring_unfold :=
  unfold Wiring.rendered, Wiring.commit, Wiring.view, Wiring.mainDepsOf,
    Wiring.retryDepsOf;
  cbn [fst snd Wiring.mainDeps Wiring.retryDeps Wiring.sensorStatus
       Wiring.v_showRestDrawer Wiring.v_isAllSetsComplete
       Wiring.v_preConnectedDevice Wiring.v_preConnectedManager
       Wiring.v_sensorStatus Wiring.v_retryDevice Wiring.v_retryManager
       Wiring.v_reps Wiring.mainCleanup Wiring.retryCleanup].

(** X18: A retried connection is shown and not listened to.  With the
    connection reported lost and the retry hook holding a device, the
    commit adopts the device, shows it as connected and starts a
    subscription; showing it changes a dependency of the same effect,
    so the next commit cancels the subscription: the screen goes on
    showing the sensor as connected while no setup is left to deliver
    its samples. *)
Theorem retry_subscription_is_dropped :
  forall (reps : Z) (r : Render) (d : Device) (m : Manager) store l,
    r_showRestDrawer r = false ->
    r_isAllSetsComplete r = false ->
    Wiring.sensorStatus l = Wiring.Error ->
    Wiring.mainDeps l
    = Some {| Wiring.m_showRestDrawer := false;
              Wiring.m_isAllSetsComplete := false;
              Wiring.m_preConnectedDevice := Handoff.device store;
              Wiring.m_preConnectedManager := Handoff.manager store;
              Wiring.m_reps := reps |} ->
    Wiring.retryCleanup l = false ->
    (forall deps, Wiring.retryDeps l = Some deps ->
                  Wiring.t_retryDevice deps = None) ->
    Wiring.mainSetup l = None ->
    let x1 := Wiring.rendered reps r (Some d) (Some m) (store, l) in
    let x2 := Wiring.rendered reps r (Some d) (Some m) x1 in
    (Wiring.sensorStatus (snd x1) = Wiring.Connected
     /\ Wiring.deviceRef (snd x1) = Some d
     /\ Wiring.retrySetup (snd x1) = Some d
     /\ Wiring.delivering (snd x1) = true)
    /\ (Wiring.sensorStatus (snd x2) = Wiring.Connected
        /\ Wiring.deviceRef (snd x2) = Some d
        /\ Wiring.delivering (snd x2) = false
        /\ Wiring.cancelled (snd x2) = Wiring.cancelled l
        /\ Wiring.rendered reps r (Some d) (Some m) x2 = x2).
Proof.
  intros reps r d m store l Hrest Hall Hst Hmain Hclean Hretry Hsetup x1 x2.
  destruct l as [st had dev mgr ms rs log md mc rd rc].
  cbn in Hst, Hmain, Hclean, Hretry, Hsetup. subst st md rc ms.
  assert (Hchanged : forall mgr',
            rd <> Some {| Wiring.t_sensorStatus := Wiring.Error;
                          Wiring.t_retryDevice := Some d;
                          Wiring.t_retryManager := mgr';
                          Wiring.t_reps := reps |}).
  { intros mgr' ->. specialize (Hretry _ eq_refl). discriminate. }
  assert (H1 : x1 =
    (store,
     {| Wiring.sensorStatus := Wiring.Connected; Wiring.hadDeviceRef := true;
        Wiring.deviceRef := Some d; Wiring.bleManagerRef := Some m;
        Wiring.mainSetup := None; Wiring.retrySetup := Some d;
        Wiring.cancelled := log;
        Wiring.mainDeps :=
          Some {| Wiring.m_showRestDrawer := false;
                  Wiring.m_isAllSetsComplete := false;
                  Wiring.m_preConnectedDevice := Handoff.device store;
                  Wiring.m_preConnectedManager := Handoff.manager store;
                  Wiring.m_reps := reps |};
        Wiring.mainCleanup := mc;
        Wiring.retryDeps :=
          Some {| Wiring.t_sensorStatus := Wiring.Error;
                  Wiring.t_retryDevice := Some d;
                  Wiring.t_retryManager := Some m;
                  Wiring.t_reps := reps |};
        Wiring.retryCleanup := true |})).
  { subst x1. wiring_unfold. rewrite Hrest, Hall.
    rewrite bool_decide_eq_true_2 by reflexivity.
    rewrite bool_decide_eq_false_2 by apply Hchanged.
    cbn [negb andb]. unfold Wiring.retryBody. cbn. reflexivity. }
  assert (H2 : x2 =
    (store,
     {| Wiring.sensorStatus := Wiring.Connected; Wiring.hadDeviceRef := true;
        Wiring.deviceRef := Some d; Wiring.bleManagerRef := Some m;
        Wiring.mainSetup := None; Wiring.retrySetup := None;
        Wiring.cancelled := log;
        Wiring.mainDeps :=
          Some {| Wiring.m_showRestDrawer := false;
                  Wiring.m_isAllSetsComplete := false;
                  Wiring.m_preConnectedDevice := Handoff.device store;
                  Wiring.m_preConnectedManager := Handoff.manager store;
                  Wiring.m_reps := reps |};
        Wiring.mainCleanup := mc;
        Wiring.retryDeps :=
          Some {| Wiring.t_sensorStatus := Wiring.Connected;
                  Wiring.t_retryDevice := Some d;
                  Wiring.t_retryManager := Some m;
                  Wiring.t_reps := reps |};
        Wiring.retryCleanup := false |})).
  { subst x2. rewrite H1. wiring_unfold. rewrite Hrest, Hall.
    rewrite bool_decide_eq_true_2 by reflexivity.
    rewrite bool_decide_eq_false_2 by (intros [=]).
    cbn [negb andb]. unfold Wiring.retryBody. cbn. reflexivity. }
  rewrite H1, H2. cbn [fst snd]. repeat split; try reflexivity.
  unfold Wiring.rendered. apply commit_settled;
    unfold Wiring.view, Wiring.mainDepsOf, Wiring.retryDepsOf;
    cbn; rewrite ?Hrest, ?Hall; reflexivity.
Qed.

(** X19: A rest costs the connection.  When the rest drawer opens (or the
    last set completes) the commit closes the connection the screen
    holds and shows the sensor as idle; when the session goes on, no
    handoff is pending, so the screen reports the connection as lost. *)
Theorem rest_drops_connection :
  forall (reps : Z) (rest go : Render) (d : Device)
         (retryDevice : option Device) (retryManager : option Manager)
         store l,
    r_showRestDrawer rest || r_isAllSetsComplete rest = true ->
    r_showRestDrawer go = false ->
    r_isAllSetsComplete go = false ->
    Handoff.device store = None ->
    Wiring.sensorStatus l = Wiring.Connected ->
    Wiring.deviceRef l = Some d ->
    Wiring.hadDeviceRef l = true ->
    Wiring.mainDeps l
    = Some {| Wiring.m_showRestDrawer := false;
              Wiring.m_isAllSetsComplete := false;
              Wiring.m_preConnectedDevice := Handoff.device store;
              Wiring.m_preConnectedManager := Handoff.manager store;
              Wiring.m_reps := reps |} ->
    Wiring.retryDeps l
    = Some {| Wiring.t_sensorStatus := Wiring.Connected;
              Wiring.t_retryDevice := retryDevice;
              Wiring.t_retryManager := retryManager;
              Wiring.t_reps := reps |} ->
    let x1 := Wiring.rendered reps rest retryDevice retryManager (store, l) in
    let x2 := Wiring.rendered reps go retryDevice retryManager x1 in
    (Wiring.sensorStatus (snd x1) = Wiring.Idle
     /\ Wiring.deviceRef (snd x1) = None
     /\ Wiring.mainSetup (snd x1)
        = (if Wiring.mainCleanup l then None else Wiring.mainSetup l)
     /\ Wiring.cancelled (snd x1) = Wiring.cancelled l ++ [d])
    /\ (Wiring.sensorStatus (snd x2) = Wiring.Error
        /\ Wiring.deviceRef (snd x2) = None
        /\ Wiring.retrySetup (snd x2)
           = (if Wiring.retryCleanup l then None else Wiring.retrySetup l)
        /\ Wiring.cancelled (snd x2) = Wiring.cancelled l ++ [d]).
Proof.
  intros reps rest go d retryDevice retryManager store l Hpaused Hrest Hall
         Hnone Hst Hdev Hhad Hmain Hretry x1 x2.
  destruct l as [st had dev mgr ms rs log md mc rd rc].
  cbn in Hst, Hdev, Hhad, Hmain, Hretry. subst st dev had md rd.
  assert (Hflags : (r_showRestDrawer rest, r_isAllSetsComplete rest)
                   <> (false, false)).
  { intros [=Ha Hb]. rewrite Ha, Hb in Hpaused. discriminate. }
  assert (H1 : x1 =
    (store,
     {| Wiring.sensorStatus := Wiring.Idle; Wiring.hadDeviceRef := true;
        Wiring.deviceRef := None; Wiring.bleManagerRef := mgr;
        Wiring.mainSetup := (if mc then None else ms);
        Wiring.retrySetup := rs;
        Wiring.cancelled := log ++ [d];
        Wiring.mainDeps :=
          Some {| Wiring.m_showRestDrawer := r_showRestDrawer rest;
                  Wiring.m_isAllSetsComplete := r_isAllSetsComplete rest;
                  Wiring.m_preConnectedDevice := Handoff.device store;
                  Wiring.m_preConnectedManager := Handoff.manager store;
                  Wiring.m_reps := reps |};
        Wiring.mainCleanup := false;
        Wiring.retryDeps :=
          Some {| Wiring.t_sensorStatus := Wiring.Connected;
                  Wiring.t_retryDevice := retryDevice;
                  Wiring.t_retryManager := retryManager;
                  Wiring.t_reps := reps |};
        Wiring.retryCleanup := rc |})).
  { subst x1. wiring_unfold.
    rewrite (bool_decide_eq_false_2 (Some _ = Some _))
      by (intros [=Ha Hb]; apply Hflags; congruence).
    rewrite bool_decide_eq_true_2 by reflexivity.
    cbn [negb andb]. unfold Wiring.mainBody.
    cbn [Wiring.v_showRestDrawer Wiring.v_isAllSetsComplete].
    rewrite Hpaused. destruct mc; reflexivity. }
  assert (H2 : Wiring.sensorStatus (snd x2) = Wiring.Error
               /\ Wiring.deviceRef (snd x2) = None
               /\ Wiring.retrySetup (snd x2) = (if rc then None else rs)
               /\ Wiring.cancelled (snd x2) = log ++ [d]).
  { subst x2. rewrite H1. wiring_unfold. rewrite Hrest, Hall.
    rewrite (bool_decide_eq_false_2 (Some _ = Some _))
      by (intros [=Ha Hb]; apply Hflags; congruence).
    rewrite (bool_decide_eq_false_2 (Some _ = Some _)) by (intros [=]).
    cbn [negb andb]. unfold Wiring.mainBody.
    cbn [Wiring.v_showRestDrawer Wiring.v_isAllSetsComplete
         Wiring.v_preConnectedDevice orb].
    rewrite Hnone. unfold Wiring.retryBody.
    cbn [Wiring.v_sensorStatus].
    rewrite (bool_decide_eq_false_2 (Wiring.Idle = Wiring.Error))
      by discriminate.
    destruct rc; cbn; repeat split; reflexivity. }
  rewrite H1. cbn [fst snd Wiring.sensorStatus Wiring.deviceRef
                   Wiring.mainSetup Wiring.cancelled Wiring.mainCleanup].
  split; [repeat split; reflexivity|exact H2].
Qed.

End WiringFacts.

(** ** Instances *)

Lemma connected_sensor_is_the_target_witness :
  exists d m uuids,
    Hook.device (Hook.run "IMU-STACK" None sensorFound Hook.initial) = Some d
    /\ Hook.manager (Hook.run "IMU-STACK" None sensorFound Hook.initial)
       = Some m
    /\ matches (Hook.targetName "IMU-STACK") (Hook.targetMac None) (Some d)
       = true
    /\ In (Hook.Attempted (Hook.Discovered uuids)) sensorFound
    /\ Hook.hasService uuids = true.
Proof.
  apply (connected_sensor_is_the_target "IMU-STACK" None sensorFound).
  vm_compute. reflexivity.
Defined.

Lemma unanswered_scan_times_out_witness :
  Hook.status
    (Hook.run "IMU-STACK" None
       ([Hook.Scanned None (Some headset); Hook.Scanned None None]
        ++ [Hook.TimedOut]) scanning)
  = Hook.Error.
Proof.
  apply (unanswered_scan_times_out "IMU-STACK" None scanning
           [Hook.Scanned None (Some headset); Hook.Scanned None None]
           None (Some imuLower));
    try reflexivity.
  repeat constructor.
Defined.

Lemma sensor_found_connects_witness :
  Hook.device
    (Hook.run "IMU-STACK" None
       ([Hook.Connect (inl tt); Hook.AdapterSettled Hook.PoweredOn]
        ++ [Hook.Scanned None (Some headset)]
        ++ [Hook.Scanned None (Some imuLower);
            Hook.Attempted
              (Hook.Discovered
                 ["6E400001-B5A3-F393-E0A9-E50E24DCCA9E"%string])])
       (@Hook.initial unit))
  = Some imuLower.
Proof.
  apply (sensor_found_connects "IMU-STACK" None (@Hook.initial unit)
           (inl tt) [Hook.Scanned None (Some headset)] imuLower
           ["6E400001-B5A3-F393-E0A9-E50E24DCCA9E"%string]);
    try reflexivity.
  - right. exists tt. reflexivity.
  - repeat constructor.
Defined.

Lemma handoff_carries_the_target_witness :
  Hook.status (Hook.run "IMU-STACK" None sensorFound (@Hook.initial unit))
  = Hook.Connected.
Proof.
  apply (handoff_carries_the_target "IMU-STACK" None sensorFound
           (Some "Leg Press"%string) imuLower tt).
  vm_compute. reflexivity.
Defined.

Lemma handoff_connection_is_dropped_witness :
  let store := setPreConnected 7%nat 1%nat "Leg Press" "IMU-STACK" ""
                 initialState in
  let x1 := Wiring.rendered 10 firstRender None None (store, Wiring.mounted) in
  let x2 := Wiring.rendered 10 firstRender None None x1 in
  Wiring.sensorStatus (snd x2) = Wiring.Error
  /\ Wiring.deviceRef (snd x2) = None
  /\ Wiring.delivering (snd x2) = false
  /\ Wiring.cancelled (snd x2) = [7%nat]
  /\ fst x2 = initialState.
Proof.
  pose proof (handoff_connection_is_dropped 10 firstRender 7%nat 1%nat
                "Leg Press" "IMU-STACK" "" None eq_refl eq_refl) as H.
  cbv zeta in H. destruct H as (_ & H & _). exact H.
Defined.

Lemma retry_subscription_is_dropped_witness :
  let x1 := Wiring.rendered 10 firstRender (Some 8%nat) (Some 1%nat)
              (initialState, lostLink) in
  let x2 := Wiring.rendered 10 firstRender (Some 8%nat) (Some 1%nat) x1 in
  Wiring.sensorStatus (snd x2) = Wiring.Connected
  /\ Wiring.deviceRef (snd x2) = Some 8%nat
  /\ Wiring.delivering (snd x2) = false
  /\ Wiring.cancelled (snd x2) = Wiring.cancelled lostLink
  /\ Wiring.rendered 10 firstRender (Some 8%nat) (Some 1%nat) x2 = x2.
Proof.
  assert (Hdeps : forall deps, Wiring.retryDeps lostLink = Some deps ->
                               Wiring.t_retryDevice deps = None).
  { intros deps [= <-]. reflexivity. }
  pose proof (retry_subscription_is_dropped 10 firstRender 8%nat 1%nat
                initialState lostLink eq_refl eq_refl eq_refl eq_refl eq_refl
                Hdeps eq_refl) as H.
  cbv zeta in H. destruct H as (_ & H). exact H.
Defined.

Lemma rest_drops_connection_witness :
  let x1 := Wiring.rendered 10 restRender (Some 7%nat) (Some 1%nat)
              (initialState, connectedLink) in
  let x2 := Wiring.rendered 10 firstRender (Some 7%nat) (Some 1%nat) x1 in
  Wiring.sensorStatus (snd x2) = Wiring.Error
  /\ Wiring.deviceRef (snd x2) = None
  /\ Wiring.retrySetup (snd x2) = None
  /\ Wiring.cancelled (snd x2) = [7%nat].
Proof.
  pose proof (rest_drops_connection 10 restRender firstRender 7%nat
                (Some 7%nat) (Some 1%nat) initialState connectedLink
                eq_refl eq_refl eq_refl eq_refl eq_refl eq_refl eq_refl
                eq_refl eq_refl) as H.
  cbv zeta in H. destruct H as (_ & H). exact H.
Defined.
